(** * Kernel log ring buffer: parser, source adapters, engine and plugin manager

    A shallow embedding of the core of the kernel-log viewer
    ([core/parser.py], [core/sources.py], [core/engine.py],
    [core/event.py], [plugins/manager.py]) together with the properties
    its specification states about it.

    Conventions of the embedding.
    - A Python [str] is a [string]; a character is a code point below 256
      (Latin-1).  Character classes ([str.isspace], [\s], [\d]) are the
      interpreter's tables restricted to that range.
    - A [float] is an IEEE 754 binary64 value: a finite one is the
      rational it denotes, and the conversion of a decimal literal and
      addition round to nearest, ties to even.  An [int] is a [Z]; the
      conversion of a [str] to an [int] has the interpreter's default
      ceiling of 4300 digits.
    - A [dict] is a [gmap]; a Python object that is shared and mutated in
      place (an event held by the engine buffer) lives in a store and is
      referred to by its address.
    - Exceptions are explicit results. *)

From Stdlib Require Import ZArith QArith Qabs Qpower Lqa Ascii String List Bool Lia.
From stdpp Require Import gmap strings list pretty.

Local Open Scope string_scope.
Local Open Scope list_scope.

(** * Python floats *)

Module Float64.

(** An IEEE 754 binary64 value.  A finite value is the rational it
    denotes. *)
Inductive float64 : Type :=
| Finite (q : Q)
| Infinite (negative : bool)
| NaN.

Definition pow2 (k : Z) : Q :=
  if (0 <=? k)%Z then inject_Z (2 ^ k) else Qmake 1 (Z.to_pos (2 ^ (- k))).

(** The [e] with [2 ^ e <= n / d < 2 ^ (e + 1)], for positive [n] and
    [d]. *)
Definition ilog2 (n d : Z) : Z :=
  let e := (Z.log2 n - Z.log2 d)%Z in
  if (0 <=? e)%Z
  then (if (d * 2 ^ e <=? n)%Z then e else e - 1)%Z
  else (if (d <=? n * 2 ^ (- e))%Z then e else e - 1)%Z.

(** The integer nearest to [n / d], the even one of two that are
    equally near. *)
Definition round_half_even (n d : Z) : Z :=
  let a := (n / d)%Z in
  match (2 * (n mod d) ?= d)%Z with
  | Lt => a
  | Gt => (a + 1)%Z
  | Eq => if Z.even a then a else (a + 1)%Z
  end.

(** The binary64 value nearest to [n / d], for positive [n] and [d]: a
    53-bit significand times a power of two that is at least
    [2 ^ -1074]; from [2 ^ 1024] on the result is infinite. *)
Definition round_pos (n d : Z) : float64 :=
  let e := ilog2 n d in
  let k := Z.max (e - 52) (-1074) in
  let m := if (0 <=? k)%Z then round_half_even n (d * 2 ^ k)
           else round_half_even (n * 2 ^ (- k)) d in
  if (1024 <=? Z.log2 m + k)%Z then Infinite false
  else Finite (Qred (Qmult (inject_Z m) (pow2 k))).

Definition opp (x : float64) : float64 :=
  match x with
  | Finite q => Finite (Qopp q)
  | Infinite s => Infinite (negb s)
  | NaN => NaN
  end.

(** Rounding to nearest, ties to even: what the conversion of a decimal
    literal and every arithmetic operation do with the exact result. *)
Definition round (q : Q) : float64 :=
  match Qnum q with
  | Z0 => Finite 0
  | Zpos n => round_pos (Zpos n) (Zpos (Qden q))
  | Zneg n => opp (round_pos (Zpos n) (Zpos (Qden q)))
  end.

(** [x + y] *)
Definition add (x y : float64) : float64 :=
  match x, y with
  | Finite a, Finite b => round (Qplus a b)
  | NaN, _ | _, NaN => NaN
  | Infinite s, Infinite s' => if Bool.eqb s s' then Infinite s else NaN
  | Infinite s, Finite _ | Finite _, Infinite s => Infinite s
  end.

End Float64.

(** * Python string operations *)

Module PyStr.

Definition ord (c : ascii) : N := N_of_ascii c.

Definition newline : ascii := ascii_of_N 10.
Definition tab : ascii := ascii_of_N 9.

(** [str.isspace] on one character, also the class [\s] of [re] for
    [str] patterns: U+0009..U+000D, U+001C..U+0020, U+0085, U+00A0. *)
Definition isspace (c : ascii) : bool :=
  let n := ord c in
  ((9 <=? n) && (n <=? 13) || (28 <=? n) && (n <=? 32)
   || (n =? 133) || (n =? 160))%N.

(** The class [\d] of [re] for [str] patterns (decimal digits). *)
Definition isdecimal (c : ascii) : bool :=
  let n := ord c in ((48 <=? n) && (n <=? 57))%N.

Definition digit_value (c : ascii) : Z := Z.of_N (ord c) - 48.

Fixpoint lstrip_by (p : ascii -> bool) (s : string) : string :=
  match s with
  | "" => ""
  | String c s' => if p c then lstrip_by p s' else s
  end.

Fixpoint rstrip_by (p : ascii -> bool) (s : string) : string :=
  match s with
  | "" => ""
  | String c s' =>
      match rstrip_by p s' with
      | "" => if p c then "" else String c ""
      | r => String c r
      end
  end.

(** [s.strip()] *)
Definition strip (s : string) : string := lstrip_by isspace (rstrip_by isspace s).

(** [s.rstrip('\n')] *)
Definition rstrip_newline (s : string) : string :=
  rstrip_by (Ascii.eqb newline) s.

(** [s.find(c)] for a one-character needle: the first index, or -1. *)
Fixpoint find (c : ascii) (s : string) : Z :=
  match s with
  | "" => -1
  | String d s' =>
      if Ascii.eqb d c then 0
      else let r := find c s' in if r <? 0 then -1 else r + 1
  end%Z.

(** [s[:n]] and [s[n:]] for [0 <= n]. *)
Fixpoint take (n : nat) (s : string) : string :=
  match n, s with
  | S n', String c s' => String c (take n' s')
  | _, _ => ""
  end.

Fixpoint drop (n : nat) (s : string) : string :=
  match n, s with
  | S n', String _ s' => drop n' s'
  | _, _ => s
  end.

(** [s.startswith(p)] *)
Fixpoint startswith (p s : string) : bool :=
  match p, s with
  | "", _ => true
  | String a p', String b s' => Ascii.eqb a b && startswith p' s'
  | String _ _, "" => false
  end.

(** [needle in s] *)
Fixpoint contains (needle s : string) : bool :=
  startswith needle s
  || match s with
     | "" => false
     | String _ s' => contains needle s'
     end.

(** [c in s] for a one-character needle. *)
Fixpoint has_char (c : ascii) (s : string) : bool :=
  match s with
  | "" => false
  | String d s' => Ascii.eqb d c || has_char c s'
  end.

(** [s.split(sep)] for a one-character separator: one more piece than
    there are separators. *)
Fixpoint split (sep : ascii) (s : string) : list string :=
  match s with
  | "" => [""]
  | String c s' =>
      if Ascii.eqb c sep then "" :: split sep s'
      else match split sep s' with
           | [] => [String c ""]
           | p :: ps => String c p :: ps
           end
  end.

Definition lower_char (c : ascii) : ascii :=
  let n := ord c in
  if ((65 <=? n) && (n <=? 90)
      || (192 <=? n) && (n <=? 222) && negb (n =? 215))%N
  then ascii_of_N (n + 32) else c.

(** [str.upper] on one character.  The three Latin-1 letters whose
    upper case lies outside Latin-1 or is two letters long (U+00B5,
    U+00DF, U+00FF) are left as they are; the parser only applies
    [upper] to its own ASCII severity names. *)
Definition upper_char (c : ascii) : ascii :=
  let n := ord c in
  if ((97 <=? n) && (n <=? 122)
      || (224 <=? n) && (n <=? 254) && negb (n =? 247))%N
  then ascii_of_N (n - 32) else c.

Fixpoint map_chars (f : ascii -> ascii) (s : string) : string :=
  match s with
  | "" => ""
  | String c s' => String (f c) (map_chars f s')
  end.

Definition lower : string -> string := map_chars lower_char.
Definition upper : string -> string := map_chars upper_char.

Fixpoint all_chars (p : ascii -> bool) (s : string) : bool :=
  match s with
  | "" => true
  | String c s' => p c && all_chars p s'
  end.

(** Value of a run of decimal digits, most significant first. *)
Fixpoint digits_value_from (acc : Z) (s : string) : Z :=
  match s with
  | "" => acc
  | String c s' => digits_value_from (10 * acc + digit_value c) s'
  end.

Definition digits_value : string -> Z := digits_value_from 0.

(** The digits of an integer literal after the sign: digit groups
    separated by single underscores ([int] accepts "1_000"). *)
Fixpoint int_body (prev_digit : bool) (acc : Z) (s : string) : option Z :=
  match s with
  | "" => if prev_digit then Some acc else None
  | String c s' =>
      if isdecimal c then int_body true (10 * acc + digit_value c) s'
      else if Ascii.eqb c "_" then
             if prev_digit then
               match s' with
               | String d _ => if isdecimal d then int_body false acc s' else None
               | "" => None
               end
             else None
      else None
  end.

(** The whitespace [int] skips around the literal: the ASCII
    whitespace U+0009..U+000D and U+0020, and the spaces outside ASCII,
    U+0085 and U+00A0.  The separators U+001C..U+001F, which [str.strip]
    removes, are not among them. *)
Definition int_space (c : ascii) : bool :=
  let n := ord c in
  ((9 <=? n) && (n <=? 13) || (n =? 32) || (n =? 133) || (n =? 160))%N.

(** The interpreter's ceiling on the digits of a decimal literal
    ([sys.int_info.default_max_str_digits]); the program does not change
    it. *)
Definition int_max_str_digits : nat := 4300.

(** The number of decimal digits in [s]. *)
Fixpoint count_decimal (s : string) : nat :=
  match s with
  | "" => 0
  | String c s' => (if isdecimal c then 1 else 0) + count_decimal s'
  end.

(** [int(s)] in base 10: surrounding whitespace, an optional sign and
    a digit body of at most [int_max_str_digits] digits; [None] stands
    for [ValueError]. *)
Definition int (s : string) : option Z :=
  let unsigned (b : string) :=
    if (count_decimal b <=? int_max_str_digits)%nat then int_body false 0 b else None in
  match lstrip_by int_space (rstrip_by int_space s) with
  | String "-" b => option_map Z.opp (unsigned b)
  | String "+" b => unsigned b
  | b => unsigned b
  end.

(** The characters of a timestamp capture: digits and dots. *)
Definition is_digit_or_dot (c : ascii) : bool := isdecimal c || Ascii.eqb c ".".

Fixpoint count_char (c : ascii) (s : string) : nat :=
  match s with
  | "" => 0
  | String d s' => (if Ascii.eqb d c then 1 else 0) + count_char c s'
  end.

Fixpoint remove_char (c : ascii) (s : string) : string :=
  match s with
  | "" => ""
  | String d s' => if Ascii.eqb d c then remove_char c s' else String d (remove_char c s')
  end.

(** [float(s)] on a string of digits and dots: a value exactly when
    there is at most one dot and at least one digit ("12", "12.", ".5",
    "12.5"), and then the binary64 value nearest to the number written;
    [None] stands for [ValueError].  Strings with other characters
    (signs, exponents, underscores, "inf") are outside this model and
    read as [None]: the parser only passes the capture of [[\d.]+]. *)
Definition float (s0 : string) : option Float64.float64 :=
  let s := strip s0 in
  if all_chars is_digit_or_dot s
     && (count_char "." s <=? 1)%nat
     && negb (String.eqb (remove_char "." s) "")
  then
    let frac := String.length (drop (Z.to_nat (find "." s) + 1) s) in
    let frac := if (find "." s <? 0)%Z then 0%nat else frac in
    Some (Float64.round
            (Qred (digits_value (remove_char "." s) # Z.to_pos (10 ^ Z.of_nat frac))))
  else None.

End PyStr.

(** * The fragment of Python's [re] the parser uses

    A backtracking matcher: greedy repetition, leftmost alternative
    first, numbered capture groups.  A pattern given to [re_match] is
    tried at position 0 only, so a leading [^] adds nothing and is not
    represented. *)

Module Re.

Inductive regex : Type :=
| Chr (p : ascii -> bool)                      (* one character of a class *)
| Seq (r1 r2 : regex)
| Rep (r : regex) (lo : nat) (hi : option nat) (* r{lo,hi}, greedy *)
| Grp (n : nat) (r : regex)                    (* capture group number n *)
| Eol.                                         (* $ *)

Definition captures := list (nat * string).

Fixpoint group (n : nat) (c : captures) : option string :=
  match c with
  | [] => None
  | (m, s) :: c' => if Nat.eqb m n then Some s else group n c'
  end.

(** The text consumed between two positions of the same subject. *)
Definition consumed (s s' : string) : string :=
  PyStr.take (String.length s - String.length s') s.

Definition below (n : nat) (hi : option nat) : bool :=
  match hi with
  | None => true
  | Some h => Nat.ltb n h
  end.

Definition cont := string -> captures -> option captures.

(** The greedy loop of a repetition [r{lo,hi}]: [step] matches [r] once,
    [n] counts the iterations done.  One more iteration is tried first;
    when that way fails the loop stops here, if [lo] iterations are
    done.  An iteration that consumes nothing ends the repetition. *)
Fixpoint rep_loop (step : string -> captures -> cont -> option captures)
         (lo : nat) (hi : option nat) (k : cont)
         (fuel n : nat) (s : string) (c : captures) {struct fuel}
  : option captures :=
  let stop := if Nat.leb lo n then k s c else None in
  match fuel with
  | O => stop
  | S fuel' =>
      if below n hi then
        match step s c
                (fun s' c' =>
                   if Nat.ltb (String.length s') (String.length s)
                   then rep_loop step lo hi k fuel' (S n) s' c' else None)
        with
        | Some res => Some res
        | None => stop
        end
      else stop
  end.

(** [m r s c k]: match [r] at the head of [s] with captures [c] so
    far, then continue with [k] on what is left; [None] makes the
    matcher backtrack. *)
Fixpoint m (r : regex) (s : string) (c : captures) (k : cont) {struct r}
  : option captures :=
  match r with
  | Chr p =>
      match s with
      | String a s' => if p a then k s' c else None
      | "" => None
      end
  | Seq r1 r2 => m r1 s c (fun s' c' => m r2 s' c' k)
  | Grp n r1 => m r1 s c (fun s' c' => k s' ((n, consumed s s') :: c'))
  | Eol =>
      match s with
      | "" => k s c
      | String a "" => if Ascii.eqb a PyStr.newline then k s c else None
      | _ => None
      end
  | Rep r1 lo hi => rep_loop (m r1) lo hi k (S (String.length s)) O s c
  end.

Definition finish : cont :=
  fun _ c => Some c.

(** [pattern.match(s)] *)
Definition re_match (r : regex) (s : string) : option captures :=
  m r s [] finish.

(** [pattern.search(s)]: the leftmost position with a match. *)
Fixpoint re_search (r : regex) (s : string) : option captures :=
  match re_match r s with
  | Some c => Some c
  | None =>
      match s with
      | "" => None
      | String _ s' => re_search r s'
      end
  end.

(** Sugar. *)
Definition star (r : regex) : regex := Rep r 0 None.
Definition plus (r : regex) : regex := Rep r 1 None.
Definition opt (r : regex) : regex := Rep r 0 (Some 1).

Definition chr (a : ascii) : regex := Chr (Ascii.eqb a).

(** A literal under [re.I]. *)
Definition ichr (a : ascii) : regex :=
  Chr (fun b => Ascii.eqb (PyStr.lower_char b) (PyStr.lower_char a)).

Fixpoint seqs (rs : list regex) (last : regex) : regex :=
  match rs with
  | [] => last
  | r :: rs' => Seq r (seqs rs' last)
  end.

(** Character classes. *)
Definition dot (a : ascii) : bool := negb (Ascii.eqb a PyStr.newline).
Definition space : ascii -> bool := PyStr.isspace.
Definition digit : ascii -> bool := PyStr.isdecimal.
Definition one_of (cs : string) (a : ascii) : bool := PyStr.has_char a cs.
Definition none_of (cs : string) (a : ascii) : bool := negb (PyStr.has_char a cs).
Definition hexdigit (a : ascii) : bool :=
  let n := PyStr.ord a in
  ((48 <=? n) && (n <=? 57) || (65 <=? n) && (n <=? 70)
   || (97 <=? n) && (n <=? 102))%N.

End Re.

(** * Events ([core/event.py]) *)

Module Event.

(** Values stored in the open [annotations] and [plugin_metadata]
    dictionaries. *)
Inductive pyval : Type :=
| PyNone
| PyBool (b : bool)
| PyInt (z : Z)
| PyStr (s : string).

(** [bool(v)] *)
Definition truthy (v : pyval) : bool :=
  match v with
  | PyNone => false
  | PyBool b => b
  | PyInt z => negb (z =? 0)%Z
  | PyStr s => negb (String.eqb s "")
  end.

Record KernelEvent : Type := mkEvent {
  timestamp_monotonic : option Float64.float64;
  timestamp_realtime : option Q;   (* seconds since the epoch *)
  severity : string;
  subsystem : option string;
  message : string;
  raw : string;
  source : string;
  event_id : string;
  cpu : option Z;
  pid : option Z;
  annotations : gmap string pyval;
  plugin_metadata : gmap string pyval
}.

End Event.

(** * The parser ([core/parser.py]) *)

Module Parser.
Import Event Re.

(** What a call of the parser reads from its surroundings: the
    module-level [BOOT_TIME], the number it holds (the [int] read from
    [/proc/stat], or a float); the wall clock ([datetime.now()]); the
    platform's [datetime.fromtimestamp] on finite floats, [None] where it
    raises [OverflowError], [OSError] or [ValueError]; and the identifier
    [uuid4()] hands to the new event.  In [BOOT_TIME + float(t)] an
    [int] becomes the nearest float, one too large for a float raises
    [OverflowError], and a float is its own nearest float. *)
Record host : Type := mkHost {
  BOOT_TIME : option Q;
  now : Q;
  fromtimestamp : Q -> option Q;
  uuid4 : string
}.

(** [datetime.fromtimestamp(x)] behind its [try]: an infinite [x] raises
    [OverflowError] and a NaN [ValueError] on every platform, and the
    wall clock stands in. *)
Definition realtime (h : host) (x : Float64.float64) : Q :=
  match x with
  | Float64.Finite q =>
      match fromtimestamp h q with
      | Some d => d
      | None => now h
      end
  | Float64.Infinite _ | Float64.NaN => now h
  end.

Definition SEVERITY_LEVELS (level : Z) : option string :=
  match level with
  | 0 => Some "EMERG"
  | 1 => Some "ALERT"
  | 2 => Some "CRIT"
  | 3 => Some "ERR"
  | 4 => Some "WARN"
  | 5 => Some "NOTICE"
  | 6 => Some "INFO"
  | 7 => Some "DEBUG"
  | _ => None
  end%Z.

(** The keys of [SEVERITY_TO_LEVEL]. *)
Definition standard_severities : list string :=
  ["EMERG"; "ALERT"; "CRIT"; "ERR"; "WARN"; "NOTICE"; "INFO"; "DEBUG"].

Definition in_strings (s : string) (l : list string) : bool :=
  existsb (String.eqb s) l.

(** DMESG_PATTERN, spaced out:  ^ \[ \s* (?P<timestamp> [\d.]+ ) \] \s+ (?P<rest> .* ) $ *)
Definition DMESG_PATTERN : regex :=
  seqs [chr "["; star (Chr space);
        Grp 1 (plus (Chr (fun a => digit a || Ascii.eqb a ".")));
        chr "]"; plus (Chr space);
        Grp 2 (star (Chr dot))] Eol.

(** The inline priority pattern, spaced out:  ^ < (?P<level> \d ) > (?P<rest> .* ) $ *)
Definition PRIORITY_PATTERN : regex :=
  seqs [chr "<"; Grp 1 (Chr digit); chr ">"; Grp 2 (star (Chr dot))] Eol.

(** PROCESS_PATTERN, spaced out:  ^ (?P<process> [^\[\]:]+ ) \[ (?P<pid> \d+ ) \] : \s* (?P<message> .* ) $ *)
Definition PROCESS_PATTERN : regex :=
  seqs [Grp 1 (plus (Chr (none_of "[]:")));
        chr "["; Grp 2 (plus (Chr digit)); chr "]"; chr ":";
        star (Chr space); Grp 3 (star (Chr dot))] Eol.

(** KERNEL_PREFIX, spaced out:  ^ < ( \d ) > (?: (?P<subsystem> [^:>\s]+ ) [:.\s]+ )? ( .* ) $ *)
Definition KERNEL_PREFIX : regex :=
  seqs [chr "<"; Grp 1 (Chr digit); chr ">";
        opt (Seq (Grp 2 (plus (Chr (fun a => none_of ":>" a && negb (space a)))))
                 (plus (Chr (fun a => one_of ":." a || space a))));
        Grp 3 (star (Chr dot))] Eol.

(** CPU_PATTERNS, both under re.I:  on CPU (?P<cpu> \d+ )
    and  CPU [:#\s]+ (?P<cpu> \d+ ) *)
Definition CPU_PATTERNS : list regex :=
  [seqs [ichr "o"; ichr "n"; chr " "; ichr "C"; ichr "P"; ichr "U"; chr " "]
        (Grp 1 (plus (Chr digit)));
   seqs [ichr "C"; ichr "P"; ichr "U";
         plus (Chr (fun a => one_of ":#" a || space a))]
        (Grp 1 (plus (Chr digit)))].

Definition CONTINUATION_MARKERS : list string :=
  ["Code:"; "Backtrace"; "Call Trace"; "Call trace";
   "EIP"; "RIP"; "RSP"; String PyStr.tab ""].

(** The hex dump pattern:  ^ (?: [0-9A-Fa-f]{2} \s+ ){6,} *)
Definition HEX_DUMP : regex :=
  Rep (Seq (Rep (Chr hexdigit) 2 (Some 2)) (plus (Chr space))) 6 None.

(** The indentation pattern:  ^ [\t ]{2,} *)
Definition INDENTED : regex :=
  Rep (Chr (fun a => Ascii.eqb a PyStr.tab || Ascii.eqb a " ")) 2 None.

Definition is_some {A} (o : option A) : bool :=
  match o with Some _ => true | None => false end.

Definition _parse_timestamp (ts_str : option string) : option Float64.float64 :=
  match ts_str with
  | None => None
  | Some "" => None
  | Some s => PyStr.float (PyStr.strip s)
  end.

Definition severity_mapping (s : string) : option string :=
  if String.eqb s "ERROR" then Some "ERR"
  else if String.eqb s "WARNING" then Some "WARN"
  else if String.eqb s "NOTE" then Some "NOTICE"
  else if String.eqb s "INFORMATION" then Some "INFO"
  else if String.eqb s "CRITICAL" then Some "CRIT"
  else if String.eqb s "EMERGENCY" then Some "EMERG"
  else None.

Definition _normalize_severity (severity_str : string) : string :=
  if String.eqb severity_str "" then "INFO"
  else
    let normalized := PyStr.strip (PyStr.upper severity_str) in
    if in_strings normalized standard_severities then normalized
    else match severity_mapping normalized with
         | Some s => s
         | None => normalized
         end.

Definition any_keyword (keywords : list string) (message_lower : string) : bool :=
  existsb (fun keyword => PyStr.contains keyword message_lower) keywords.

Definition _infer_severity (message : string) : string :=
  if String.eqb message "" then "INFO"
  else
    let message_lower := PyStr.lower message in
    if any_keyword ["panic"; "oops"; "fatal"; "emergency"; "crash"; "bug:"]
                   message_lower then "EMERG"
    else if any_keyword ["alert"; "failure"; "critical"; "corruption"]
                        message_lower then "ALERT"
    else if any_keyword ["error"; "err"; "failed"; "segfault"; "fault";
                         "invalid"; "unable"; "cannot"; "timeout"]
                        message_lower then "ERR"
    else if any_keyword ["warning"; "warn"; "deprecated"; "attention"]
                        message_lower then "WARN"
    else if any_keyword ["notice"; "note"; "fyi"] message_lower then "NOTICE"
    else if any_keyword ["debug"; "trace"; "verbose"; "dump"]
                        message_lower then "DEBUG"
    else "INFO".

Definition _is_continuation_line (message : string) : bool :=
  if String.eqb message "" then false
  else if existsb (fun marker => PyStr.startswith marker message)
                  CONTINUATION_MARKERS then true
  else if is_some (re_match HEX_DUMP message) then true
  else if is_some (re_match INDENTED message) then true
  else false.

Fixpoint first_cpu (patterns : list regex) (message : string) : option Z :=
  match patterns with
  | [] => None
  | pattern :: rest =>
      match re_search pattern message with
      | Some c =>
          match group 1 c with
          | Some digits =>
              match PyStr.int digits with
              | Some cpu => Some cpu
              | None => first_cpu rest message
              end
          | None => first_cpu rest message
          end
      | None => first_cpu rest message
      end
  end.

Definition _extract_cpu (message : string) : option Z :=
  if String.eqb message "" then None
  else first_cpu CPU_PATTERNS message.

Definition or_default (o : option string) (d : string) : string :=
  match o with
  | Some "" | None => d
  | Some s => s
  end.

(** The fallback for lines without a timestamp: [<level>subsystem: message]. *)
Definition _parse_kernel_prefix (h : host) (line source : string)
  : option KernelEvent :=
  match re_match KERNEL_PREFIX line with
  | None => None
  | Some c =>
      let level_str := group 1 c in
      let subsystem := group 2 c in
      let message := group 3 c in
      let severity :=
        match level_str with
        | Some d =>
            match SEVERITY_LEVELS (PyStr.digits_value d) with
            | Some s => s
            | None => "UNKNOWN"
            end
        | None => "UNKNOWN"
        end in
      Some {| timestamp_monotonic := None;
              timestamp_realtime := Some (now h);
              severity := _normalize_severity severity;
              subsystem := Some (or_default subsystem "KERNEL");
              message := PyStr.strip (or_default message "");
              raw := line;
              source := source;
              event_id := uuid4 h;
              cpu := None;
              pid := None;
              annotations := ∅;
              plugin_metadata := ∅ |}
  end.

(** The colon rule for [subsystem: message]. *)
Definition split_subsystem (rest : string) : option string * string :=
  let colon_idx := PyStr.find ":" rest in
  if ((0 <? colon_idx) && (colon_idx <? 50))%Z then
    let potential_subsystem := PyStr.strip (PyStr.take (Z.to_nat colon_idx) rest) in
    if (String.length potential_subsystem <? 30)%nat
       && negb (PyStr.has_char " " potential_subsystem)
       && negb (String.eqb potential_subsystem "")
    then (Some potential_subsystem,
          PyStr.strip (PyStr.drop (Z.to_nat (colon_idx + 1)) rest))
    else (None, rest)
  else (None, rest).

Definition parse_dmesg_line (h : host) (line source : string)
  : option KernelEvent :=
  if String.eqb line "" then None
  else
    let raw := PyStr.rstrip_newline line in
    let text := PyStr.strip line in
    if String.eqb text "" then None
    else
      match re_match DMESG_PATTERN text with
      | None => _parse_kernel_prefix h text source
      | Some c =>
          let timestamp_mono := _parse_timestamp (group 1 c) in
          let rest := PyStr.strip (or_default (group 2 c) "") in
          (* inline priority prefix <N> *)
          let '(severity, rest) :=
            match re_match PRIORITY_PATTERN rest with
            | Some pc =>
                (match group 1 pc with
                 | Some d => SEVERITY_LEVELS (PyStr.digits_value d)
                 | None => None
                 end,
                 PyStr.strip (or_default (group 2 pc) ""))
            | None => (None, rest)
            end in
          let '(subsystem, pid, message) :=
            match re_match PROCESS_PATTERN rest with
            | Some pm =>
                (group 1 pm,
                 match group 2 pm with
                 | Some digits => PyStr.int digits
                 | None => None
                 end,
                 or_default (group 3 pm) "")
            | None =>
                let '(subsystem, message) := split_subsystem rest in
                (subsystem, None, message)
            end in
          let severity :=
            match severity with
            | Some "" | None => _infer_severity message
            | Some s => s
            end in
          let severity :=
            if String.eqb severity "" then "INFO" else _normalize_severity severity in
          let continuation := _is_continuation_line message in
          let annotations : gmap string pyval :=
            if continuation then {[ "continuation" := PyBool true ]} else ∅ in
          let ts_rt :=
            match timestamp_mono, BOOT_TIME h with
            | Some t, Some b => realtime h (Float64.add (Float64.round b) t)
            | _, _ => now h
            end in
          let cpu := _extract_cpu message in
          Some {| timestamp_monotonic := timestamp_mono;
                  timestamp_realtime := Some ts_rt;
                  severity := severity;
                  subsystem := Some (or_default subsystem "KERNEL");
                  message := message;
                  raw := raw;
                  source := source;
                  event_id := uuid4 h;
                  cpu := cpu;
                  pid := pid;
                  annotations := annotations;
                  plugin_metadata := ∅ |}
      end.

(** The module-level [parse_line]. *)
Definition parse_line := parse_dmesg_line.

End Parser.

(** * Exceptions ([core/errors.py]) and results *)

Module Errors.

Inductive exn : Type :=
| SourceUnavailableError
| PermissionDeniedError
| PluginLoadError
| PluginVersionError
| RuntimeError
| ValueError
| TimeoutExpired          (* subprocess.TimeoutExpired *)
| CancelledError          (* asyncio.CancelledError, not an Exception *)
| OtherException.         (* any other subclass of Exception *)

(** [except Exception] catches everything here but a cancellation. *)
Definition is_Exception (e : exn) : bool :=
  match e with
  | CancelledError => false
  | _ => true
  end.

Inductive result (A : Type) : Type :=
| Return (a : A)
| Raise (e : exn).
Arguments Return {A} a.
Arguments Raise {A} e.

End Errors.

(** * Source adapters ([core/sources.py]) *)

Module Sources.
Import Event Errors.

(** What [subprocess.run] can do with a command line. *)
Inductive run_result : Type :=
| FileNotFound
| TimedOut
| Completed (returncode : Z) (stdout : string).

(** The external tools: a command line gives its outcome. *)
Definition tools := list string -> run_result.

(** The hosts of the successive parser calls of one adapter call. *)
Definition hosts := nat -> Parser.host.

(** The loop [for line in lines: event = parse(line); if event: append]. *)
Fixpoint parse_lines (h : hosts) (i : nat) (source : string)
         (lines : list string) : list KernelEvent :=
  match lines with
  | [] => []
  | line :: rest =>
      match Parser.parse_dmesg_line (h i) line source with
      | Some event => event :: parse_lines h (S i) source rest
      | None => parse_lines h (S i) source rest
      end
  end.

(** [l[-n:]] *)
Definition last_slice {A} (n : Z) (l : list A) : list A :=
  let len := Z.of_nat (length l) in
  let start := if (- n <? 0)%Z then Z.max (len - n) 0 else Z.min (- n) len in
  drop (Z.to_nat start) l.

Definition stdout_lines (stdout : string) : list string :=
  PyStr.split PyStr.newline (PyStr.strip stdout).

Record DmesgSource : Type := mkDmesg {
  dmesg_buffer_size : Z;
  last_lines : list string
}.

Definition DmesgSource_init (buffer_size : Z) : DmesgSource :=
  {| dmesg_buffer_size := buffer_size; last_lines := [] |}.

(** [DmesgSource.get_snapshot].  A timeout of [subprocess.run] is a
    [subprocess.TimeoutExpired], which neither handler catches. *)
Definition dmesg_get_snapshot (run : tools) (h : hosts) (self : DmesgSource)
  : result (list KernelEvent) * DmesgSource :=
  match run ["dmesg"; "-L"] with
  | FileNotFound => (Raise SourceUnavailableError, self)
  | TimedOut => (Raise TimeoutExpired, self)
  | Completed returncode stdout =>
      if negb (returncode =? 0)%Z then (Raise PermissionDeniedError, self)
      else
        let events := parse_lines h 0 "dmesg" (stdout_lines stdout) in
        (Return events,
         {| dmesg_buffer_size := dmesg_buffer_size self;
            last_lines := last_slice (dmesg_buffer_size self) (stdout_lines stdout) |})
  end.

Record JournalctlSource : Type := mkJournal {
  journal_buffer_size : Z
}.

(** [JournalctlSource.get_snapshot] *)
Definition journalctl_get_snapshot (run : tools) (h : hosts) (self : JournalctlSource)
  : result (list KernelEvent) :=
  match run ["journalctl"; "-k"; "-n"; pretty (journal_buffer_size self); "-o"; "short"] with
  | FileNotFound => Raise SourceUnavailableError
  | TimedOut => Raise TimeoutExpired
  | Completed returncode stdout =>
      if negb (returncode =? 0)%Z then Raise PermissionDeniedError
      else Return (parse_lines h 0 "journal" (stdout_lines stdout))
  end.

(** The lines [readline] returns before the first empty one (end of
    the child's output). *)
Fixpoint until_eof (lines : list string) : list string :=
  match lines with
  | [] => []
  | line :: rest => if String.eqb line "" then [] else line :: until_eof rest
  end.

(** What an adapter hands to the parser for one line of the stream:
    the decoded line, stripped. *)
Definition decoded (line : string) : string := PyStr.strip line.

(** The events [stream_live] yields for [lines], the lines [readline]
    has returned so far; [source] is "dmesg" or "journal".  Lines are
    taken as already decoded (decoding replaces bad bytes and never
    fails).  The reader is created with [limit=4096]: a longer line of
    the child makes [readline] raise instead of returning, which ends
    the stream after the events of the lines returned before it. *)
Definition stream_live (h : hosts) (source : string) (lines : list string)
  : list KernelEvent :=
  parse_lines h 0 source (map decoded (until_eof lines)).

End Sources.

(** * The engine ([core/engine.py]) *)

Module Engine.
Import Event Errors.

(** Events are objects: the buffer, the subscribers and the adapters
    hold references to them. *)
Definition addr := nat.

(** A subscriber is known by its identity; what a call of it does is
    given by [behaviour]: it returns, raises an [Exception], or is
    cancelled while awaited. *)
Inductive cb_outcome : Type := CbReturns | CbRaises | CbCancelled.
Definition behaviour := nat -> KernelEvent -> cb_outcome.

Record engine : Type := mkEngine {
  buffer_size : nat;                    (* the deque's maxlen *)
  buffer : list addr;
  objects : gmap addr KernelEvent;      (* the store *)
  next_addr : addr;
  has_source : bool;
  running : bool;
  paused : bool;
  event_callbacks : list nat;
  delivered : list (nat * addr)         (* calls made to subscribers, oldest first *)
}.

(** [KernelLogEngine(buffer_size)]: [deque(maxlen=n)] refuses a
    negative [n]. *)
Definition init (buffer_size : Z) : result engine :=
  if (buffer_size <? 0)%Z then Raise ValueError
  else Return {| buffer_size := Z.to_nat buffer_size;
                 buffer := [];
                 objects := ∅;
                 next_addr := 0;
                 has_source := false;
                 running := false;
                 paused := false;
                 event_callbacks := [];
                 delivered := [] |}.

Definition set_buffer (b : list addr) (e : engine) : engine :=
  {| buffer_size := buffer_size e; buffer := b; objects := objects e;
     next_addr := next_addr e; has_source := has_source e;
     running := running e; paused := paused e;
     event_callbacks := event_callbacks e; delivered := delivered e |}.

Definition set_objects (o : gmap addr KernelEvent) (n : addr) (e : engine) : engine :=
  {| buffer_size := buffer_size e; buffer := buffer e; objects := o;
     next_addr := n; has_source := has_source e;
     running := running e; paused := paused e;
     event_callbacks := event_callbacks e; delivered := delivered e |}.

Definition set_flags (r p : bool) (e : engine) : engine :=
  {| buffer_size := buffer_size e; buffer := buffer e; objects := objects e;
     next_addr := next_addr e; has_source := has_source e;
     running := r; paused := p;
     event_callbacks := event_callbacks e; delivered := delivered e |}.

Definition set_callbacks (cbs : list nat) (e : engine) : engine :=
  {| buffer_size := buffer_size e; buffer := buffer e; objects := objects e;
     next_addr := next_addr e; has_source := has_source e;
     running := running e; paused := paused e;
     event_callbacks := cbs; delivered := delivered e |}.

Definition set_delivered (d : list (nat * addr)) (e : engine) : engine :=
  {| buffer_size := buffer_size e; buffer := buffer e; objects := objects e;
     next_addr := next_addr e; has_source := has_source e;
     running := running e; paused := paused e;
     event_callbacks := event_callbacks e; delivered := d |}.

Definition set_source (b : bool) (e : engine) : engine :=
  {| buffer_size := buffer_size e; buffer := buffer e; objects := objects e;
     next_addr := next_addr e; has_source := b;
     running := running e; paused := paused e;
     event_callbacks := event_callbacks e; delivered := delivered e |}.

(** [deque.append] on a deque with [maxlen]: append on the right, then
    drop one entry on the left if the deque became too long. *)
Definition deque_append (maxlen : nat) (q : list addr) (x : addr) : list addr :=
  let q' := q ++ [x] in
  if (maxlen <? length q')%nat then drop 1 q' else q'.

(** [deque.extend] *)
Definition deque_extend (maxlen : nat) (q : list addr) (xs : list addr) : list addr :=
  fold_left (deque_append maxlen) xs q.

(** A new event object enters the store. *)
Definition alloc (ev : KernelEvent) (e : engine) : addr * engine :=
  (next_addr e, set_objects (<[next_addr e := ev]> (objects e)) (S (next_addr e)) e).

Fixpoint alloc_all (evs : list KernelEvent) (e : engine) : list addr * engine :=
  match evs with
  | [] => ([], e)
  | ev :: rest =>
      let '(a, e1) := alloc ev e in
      let '(als, e2) := alloc_all rest e1 in
      (a :: als, e2)
  end.

(** [bool(event.annotations.get('continuation'))] *)
Definition is_cont (ev : KernelEvent) : bool :=
  match annotations ev !! "continuation" with
  | Some v => truthy v
  | None => false
  end.

(** The merge of a continuation event into the last buffered one.
    [dict.update] lets the newer value win. *)
Definition merge (last event : KernelEvent) : KernelEvent :=
  {| timestamp_monotonic := timestamp_monotonic last;
     timestamp_realtime := timestamp_realtime last;
     severity := severity last;
     subsystem := subsystem last;
     message := message last +:+ String PyStr.newline "" +:+ message event;
     raw := raw last +:+ String PyStr.newline "" +:+ raw event;
     source := source last;
     event_id := event_id last;
     cpu := cpu last;
     pid := pid last;
     annotations := annotations event ∪ annotations last;
     plugin_metadata := plugin_metadata last |}.

(** The loop [for callback in self.event_callbacks] on one event
    object: every call is recorded; an [Exception] is logged and the
    loop goes on; a cancellation leaves the loop. *)
Fixpoint notify (beh : behaviour) (cbs : list nat) (a : addr) (ev : KernelEvent)
         (log : list (nat * addr)) : result unit * list (nat * addr) :=
  match cbs with
  | [] => (Return tt, log)
  | cb :: rest =>
      match beh cb ev with
      | CbCancelled => (Raise CancelledError, log ++ [(cb, a)])
      | CbReturns | CbRaises => notify beh rest a ev (log ++ [(cb, a)])
      end
  end.

Definition notify_at (beh : behaviour) (a : addr) (e : engine) : result unit * engine :=
  match objects e !! a with
  | Some ev =>
      let '(r, log) := notify beh (event_callbacks e) a ev (delivered e) in
      (r, set_delivered log e)
  | None => (Return tt, e)
  end.

(** The body of the consumption loop from the continuation test on,
    for the event object at [a]. *)
Definition handle_event (beh : behaviour) (a : addr) (e : engine)
  : result unit * engine :=
  match objects e !! a with
  | None => (Return tt, e)
  | Some event =>
      match is_cont event, last (buffer e) with
      | true, Some l =>
          match objects e !! l with
          | Some last_ev =>
              let e1 := set_objects (<[l := merge last_ev event]> (objects e))
                                    (next_addr e) e in
              notify_at beh l e1
          | None => (Return tt, e)
          end
      | _, _ =>
          let e1 := set_buffer (deque_append (buffer_size e) (buffer e) a) e in
          notify_at beh a e1
      end
  end.

(** One turn of [_run_stream] with an event of the live sequence in
    hand.  A turn that finds the engine paused changes nothing: the loop
    sleeps, keeps the event, and takes it up in a later turn, once the
    client has resumed. *)
Inductive turn : Type :=
| Handled     (* the event went through; the loop goes on *)
| Idle        (* paused: the loop sleeps, the event still in hand *)
| Left.       (* the loop is over: not running, or cancelled *)

Definition consume (beh : behaviour) (ev : KernelEvent) (e : engine) : turn * engine :=
  if negb (running e) then (Left, e)
  else if paused e then (Idle, e)
  else
    let '(a, e1) := alloc ev e in
    match handle_event beh a e1 with
    | (Return _, e2) => (Handled, e2)
    | (Raise _, e2) => (Left, e2)
    end.

(** [_run_stream] over the events the adapter yields, with no call of
    the client in between: the engine when the loop ends or goes to
    sleep. *)
Fixpoint run_stream (beh : behaviour) (evs : list KernelEvent) (e : engine) : engine :=
  match evs with
  | [] => e
  | ev :: rest =>
      match consume beh ev e with
      | (Handled, e1) => run_stream beh rest e1
      | (_, e1) => e1
      end
  end.

(** [load_snapshot], given what the adapter's [get_snapshot] returned. *)
Definition load_snapshot (events : list KernelEvent) (e : engine)
  : result (list addr) * engine :=
  if negb (has_source e) then (Raise RuntimeError, e)
  else
    let '(als, e1) := alloc_all events e in
    (Return als, set_buffer (deque_extend (buffer_size e1) (buffer e1) als) e1).

Definition subscribe (cb : nat) (e : engine) : engine :=
  set_callbacks (event_callbacks e ++ [cb]) e.

Fixpoint remove_first (cb : nat) (l : list nat) : list nat :=
  match l with
  | [] => []
  | x :: l' => if Nat.eqb x cb then l' else x :: remove_first cb l'
  end.

Definition unsubscribe (cb : nat) (e : engine) : engine :=
  set_callbacks (remove_first cb (event_callbacks e)) e.

Definition pause (e : engine) : engine := set_flags (running e) true e.
Definition resume (e : engine) : engine := set_flags (running e) false e.

Definition start_streaming (e : engine) : result unit * engine :=
  if running e then (Return tt, e)
  else if negb (has_source e) then (Raise RuntimeError, e)
  else (Return tt, set_flags true (paused e) e).

Definition stop_streaming (e : engine) : engine := set_flags false (paused e) e.

(** [get_buffer]: a copy of the references, oldest first. *)
Definition get_buffer (e : engine) : list addr := buffer e.

Definition flush_buffer (e : engine) : engine := set_buffer [] e.

Definition shutdown (e : engine) : engine := flush_buffer (stop_streaming e).

(** The operations a client and the adapter can apply to an engine. *)
Inductive op : Type :=
| OpSelectSource             (* a successful initialize() *)
| OpLoadSnapshot (events : list KernelEvent)
| OpStart
| OpStop
| OpEvent (ev : KernelEvent)  (* a turn of the loop with [ev] in hand *)
| OpSubscribe (cb : nat)
| OpUnsubscribe (cb : nat)
| OpPause
| OpResume
| OpFlush
| OpShutdown.

Definition apply (beh : behaviour) (o : op) (e : engine) : engine :=
  match o with
  | OpSelectSource => set_source true e
  | OpLoadSnapshot events => snd (load_snapshot events e)
  | OpStart => snd (start_streaming e)
  | OpStop => stop_streaming e
  | OpEvent ev => snd (consume beh ev e)
  | OpSubscribe cb => subscribe cb e
  | OpUnsubscribe cb => unsubscribe cb e
  | OpPause => pause e
  | OpResume => resume e
  | OpFlush => flush_buffer e
  | OpShutdown => shutdown e
  end.

Definition apply_all (beh : behaviour) (ops : list op) (e : engine) : engine :=
  fold_left (fun e o => apply beh o e) ops e.

(** The subscribers one notification reaches: all of them in
    registration order, up to and including the first one that is
    cancelled. *)
Fixpoint reached (beh : behaviour) (cbs : list nat) (ev : KernelEvent) : list nat :=
  match cbs with
  | [] => []
  | cb :: rest =>
      match beh cb ev with
      | CbCancelled => [cb]
      | CbReturns | CbRaises => cb :: reached beh rest ev
      end
  end.

(** Every buffered reference points to an object of the store that was
    allocated earlier. *)
Definition well_formed (e : engine) : Prop :=
  Forall (fun a => (a < next_addr e)%nat /\ is_Some (objects e !! a)) (buffer e).

End Engine.

(** * The plugin manager ([plugins/manager.py], [plugins/base.py]) *)

Module Plugins.
Import Event Errors.

(** What awaiting a hook can do. *)
Inductive hook (A : Type) : Type :=
| Returns (a : A)
| Fails                 (* raises an Exception *)
| Cancelled.            (* raises asyncio.CancelledError *)
Arguments Returns {A} a.
Arguments Fails {A}.
Arguments Cancelled {A}.

(** A plugin instance.  [min_engine_version] is [None] when the
    metadata object has no such attribute; [truth] is [bool(plugin)]. *)
Record KernelPlugin : Type := mkPlugin {
  min_engine_version : option string;
  truth : bool;
  on_load : hook bool;
  on_event : KernelEvent -> hook unit;
  on_unload : hook unit
}.

(** The names [dir(module)] lists, in order. *)
Inductive module_item : Type :=
| NotAClass
| OtherClass                                  (* not a KernelPlugin subclass *)
| BaseClass                                   (* KernelPlugin itself *)
| PluginClass (instance : option KernelPlugin). (* calling it returns or raises *)

(** A plugin file on disk, as the import machinery sees it. *)
Inductive plugin_file : Type :=
| NoSpec                                      (* no spec or no loader *)
| ExecFails                                   (* exec_module raises *)
| Module (items : list module_item).

(** The plugin directory: [None] when [<name>.py] does not exist. *)
Definition plugin_dir := string -> option plugin_file.

Record manager : Type := mkManager {
  engine_version : string;
  plugins : gmap string KernelPlugin;
  enabled_plugins : list string;     (* the set, in its iteration order *)
  context_set : bool                 (* _context_impl is not None *)
}.

Definition init (engine_version : string) : manager :=
  {| engine_version := engine_version; plugins := ∅;
     enabled_plugins := []; context_set := false |}.

Definition set_context (mgr : manager) : manager :=
  {| engine_version := engine_version mgr; plugins := plugins mgr;
     enabled_plugins := enabled_plugins mgr; context_set := true |}.

Definition set_plugins (p : gmap string KernelPlugin) (mgr : manager) : manager :=
  {| engine_version := engine_version mgr; plugins := p;
     enabled_plugins := enabled_plugins mgr; context_set := context_set mgr |}.

Definition set_enabled (en : list string) (mgr : manager) : manager :=
  {| engine_version := engine_version mgr; plugins := plugins mgr;
     enabled_plugins := en; context_set := context_set mgr |}.

(** [[int(x) for x in parts]]: the first [ValueError] ends it. *)
Fixpoint ints (parts : list string) : option (list Z) :=
  match parts with
  | [] => Some []
  | x :: rest =>
      match PyStr.int x with
      | None => None
      | Some n =>
          match ints rest with
          | None => None
          | Some ns => Some (n :: ns)
          end
      end
  end.

(** [a >= b] on lists of integers: the first pair of different
    elements decides; without one, the lengths do. *)
Fixpoint list_ge (a b : list Z) : bool :=
  match a, b with
  | x :: a', y :: b' => if (x =? y)%Z then list_ge a' b' else (y <? x)%Z
  | [], _ :: _ => false
  | _, [] => true
  end.

Definition _check_version_compatibility (required available : string) : bool :=
  match ints (PyStr.split "." required) with
  | None => false
  | Some req_parts =>
      match ints (PyStr.split "." available) with
      | None => false
      | Some avail_parts => list_ge avail_parts req_parts
      end
  end.

(** The scan of [dir(module)] for the first proper subclass of
    KernelPlugin, which is then instantiated. *)
Fixpoint find_plugin_class (items : list module_item) : result KernelPlugin :=
  match items with
  | [] => Raise PluginLoadError
  | PluginClass (Some p) :: _ => Return p
  | PluginClass None :: _ => Raise OtherException
  | _ :: rest => find_plugin_class rest
  end.

Definition _load_plugin_module (dir : plugin_dir) (plugin_name : string)
  : result KernelPlugin :=
  match dir plugin_name with
  | None => Raise PluginLoadError
  | Some file =>
      let attempt :=
        match file with
        | NoSpec => Raise PluginLoadError
        | ExecFails => Raise OtherException
        | Module items => find_plugin_class items
        end in
      match attempt with
      | Return p => Return p
      | Raise e => if is_Exception e then Raise PluginLoadError else Raise e
      end
  end.

(** The body of the [try] of [load_plugin]. *)
Definition load_attempt (dir : plugin_dir) (plugin_name : string) (mgr : manager)
  : result bool * manager :=
  match _load_plugin_module dir plugin_name with
  | Raise e => (Raise e, mgr)
  | Return plugin =>
      if negb (truth plugin) then (Return false, mgr)
      else
        let compatible :=
          match min_engine_version plugin with
          | Some required => _check_version_compatibility required (engine_version mgr)
          | None => true
          end in
        if negb compatible then (Raise PluginVersionError, mgr)
        else
          let register := (Return true, set_plugins (<[plugin_name := plugin]> (plugins mgr)) mgr) in
          if context_set mgr then
            match on_load plugin with
            | Returns true => register
            | Returns false => (Return false, mgr)
            | Fails => (Raise OtherException, mgr)
            | Cancelled => (Raise CancelledError, mgr)
            end
          else register
  end.

Definition load_plugin (dir : plugin_dir) (plugin_name : string) (mgr : manager)
  : result bool * manager :=
  match plugins mgr !! plugin_name with
  | Some _ => (Return true, mgr)
  | None =>
      match load_attempt dir plugin_name mgr with
      | (Raise e, mgr') =>
          if is_Exception e then (Raise PluginLoadError, mgr') else (Raise e, mgr')
      | r => r
      end
  end.

(** [set.discard]: the other members stay where they are. *)
Definition discard (name : string) (l : list string) : list string :=
  filter (fun x => x ≠ name) l.

Definition unload_plugin (plugin_name : string) (mgr : manager)
  : result bool * manager :=
  match plugins mgr !! plugin_name with
  | None => (Return false, mgr)
  | Some plugin =>
      match on_unload plugin with
      | Returns _ =>
          (Return true,
           set_enabled (discard plugin_name (enabled_plugins mgr))
                       (set_plugins (delete plugin_name (plugins mgr)) mgr))
      | Fails => (Return false, mgr)
      | Cancelled => (Raise CancelledError, mgr)
      end
  end.

(** [enable_plugin].  [enabled_plugins] is a set: a name already in it
    changes nothing, and a new one may make the hash table rebuild
    itself, so that the order in which the set is iterated afterwards
    is not the program's to say.  [rehash] is what the table makes of
    the members then; for a set it is a permutation. *)
Definition enable_plugin (rehash : list string -> list string)
           (plugin_name : string) (mgr : manager)
  : bool * manager :=
  match plugins mgr !! plugin_name with
  | None => (false, mgr)
  | Some _ =>
      (true,
       if bool_decide (plugin_name ∈ enabled_plugins mgr) then mgr
       else set_enabled (rehash (enabled_plugins mgr ++ [plugin_name])) mgr)
  end.

Definition disable_plugin (plugin_name : string) (mgr : manager)
  : bool * manager :=
  (true, set_enabled (discard plugin_name (enabled_plugins mgr)) mgr).

(** The loop of [process_event] over the enabled names; the second
    component lists the plugins whose [on_event] was called, in
    order. *)
Fixpoint process_names (registry : gmap string KernelPlugin) (event : KernelEvent)
         (names : list string) : result unit * list string :=
  match names with
  | [] => (Return tt, [])
  | plugin_name :: rest =>
      match registry !! plugin_name with
      | None => process_names registry event rest
      | Some plugin =>
          match on_event plugin event with
          | Cancelled => (Raise CancelledError, [plugin_name])
          | Returns _ | Fails =>
              let '(r, called) := process_names registry event rest in
              (r, plugin_name :: called)
          end
      end
  end.

Definition process_event (mgr : manager) (event : KernelEvent)
  : result unit * list string :=
  process_names (plugins mgr) event (enabled_plugins mgr).

End Plugins.

(** * Vocabulary of the specification *)

Module Spec.
Import Event.

(** The eight severities of the specification's enumeration. *)
Definition severity_enumeration : list string :=
  ["EMERG"; "ALERT"; "CRIT"; "ERR"; "WARN"; "NOTICE"; "INFO"; "DEBUG"].

(** List-lexicographic order on integer lists, as the specification
    words it: the first position where the lists differ decides, and a
    list that is a proper prefix of another is the smaller one. *)
Inductive lex_le : list Z -> list Z -> Prop :=
| lex_le_nil l : lex_le [] l
| lex_le_lt x y l l' : (x < y)%Z -> lex_le (x :: l) (y :: l')
| lex_le_eq x l l' : lex_le l l' -> lex_le (x :: l) (x :: l').

(** A decimal number as the timestamped form writes it: digits with at
    most one dot, and at least one digit. *)
Definition decimal_number (t : string) : bool :=
  PyStr.all_chars PyStr.is_digit_or_dot t
  && (PyStr.count_char "." t <=? 1)%nat
  && negb (String.eqb (PyStr.remove_char "." t) "").

(** The number a decimal literal [int_part.frac_part] denotes. *)
Definition decimal_value (int_part frac_part : string) : Q :=
  Qred (PyStr.digits_value (int_part +:+ frac_part)
        # Z.to_pos (10 ^ Z.of_nat (String.length frac_part))).

(** A decimal integer in the plain sense of the words: a run of decimal
    digits, at least one. *)
Definition decimal_integer (c : string) : bool :=
  negb (String.eqb c "") && PyStr.all_chars PyStr.isdecimal c.

Definition starts_with_digit (b : string) : bool :=
  match b with
  | String c _ => PyStr.isdecimal c
  | "" => false
  end.

Fixpoint ends_with_underscore (b : string) : bool :=
  match b with
  | "" => false
  | String c "" => Ascii.eqb c "_"
  | String _ b' => ends_with_underscore b'
  end.

(** Digits in groups that single underscores keep apart: nothing but
    digits and underscores, no underscore at the end and no two in a
    row, and a digit first, unless a digit came just before. *)
Definition grouped_from (after_digit : bool) (b : string) : bool :=
  PyStr.all_chars (fun c => PyStr.isdecimal c || Ascii.eqb c "_") b
  && (after_digit || starts_with_digit b)
  && negb (ends_with_underscore b)
  && negb (PyStr.contains "__" b).

Definition grouped_digits : string -> bool := grouped_from false.

(** The literal without the whitespace around it, and without its
    sign. *)
Definition trimmed (c : string) : string :=
  PyStr.lstrip_by PyStr.int_space (PyStr.rstrip_by PyStr.int_space c).

Definition unsigned (t : string) : string :=
  match t with
  | String "-" b => b
  | String "+" b => b
  | _ => t
  end.

Definition negative (t : string) : bool :=
  match t with
  | String "-" _ => true
  | _ => false
  end.

(** What [int] takes for an integer: whitespace around, one sign at
    most, grouped digits, 4300 digits at most. *)
Definition int_literal (c : string) : bool :=
  let body := unsigned (trimmed c) in
  grouped_digits body && (PyStr.count_decimal body <=? 4300)%nat.

(** The integer such a literal denotes. *)
Definition int_value (c : string) : Z :=
  let v := PyStr.digits_value (PyStr.remove_char "_" (unsigned (trimmed c))) in
  if negative (trimmed c) then (- v)%Z else v.

(** The longest prefix whose characters all satisfy [p]. *)
Fixpoint run (p : ascii -> bool) (s : string) : string :=
  match s with
  | "" => ""
  | String c s' => if p c then String c (run p s') else ""
  end.

Definition name_char (c : ascii) : bool := negb (PyStr.has_char c "[]:").

(** The form [name[pid]]: a non-empty name without brackets or colon,
    then a bracketed non-empty run of digits, and nothing more. *)
Definition process_form (s : string) : bool :=
  match PyStr.lstrip_by name_char s with
  | String "[" after =>
      negb (String.eqb (run name_char s) "")
      && negb (String.eqb (run PyStr.isdecimal after) "")
      && String.eqb (PyStr.lstrip_by PyStr.isdecimal after) "]"
  | _ => false
  end.

(** A leading inline priority prefix: [<], one digit, [>]. *)
Definition priority_prefixed (s : string) : bool :=
  match s with
  | String "<" (String d (String ">" _)) => PyStr.isdecimal d
  | _ => false
  end.

Definition no_space (c : ascii) : bool := negb (PyStr.isspace c).

(** The finite binary64 numbers: a significand below [2 ^ 53] in
    magnitude times a power of two from [2 ^ -1074] to [2 ^ 971]. *)
Definition binary64 (x : Q) : Prop :=
  exists m k : Z,
    (Z.abs m < 2 ^ 53)%Z /\ (-1074 <= k <= 971)%Z
    /\ (x == inject_Z m * 2 ^ k)%Q.

(** [r] is the binary64 number nearest to [x]; of two that are equally
    near it is the one with the even significand, an even multiple of
    their distance. *)
Definition nearest_binary64 (x r : Q) : Prop :=
  binary64 r
  /\ (forall y, binary64 y -> (Qabs (r - x) <= Qabs (y - x))%Q)
  /\ (forall y, binary64 y -> ~ (y == r)%Q ->
                (Qabs (y - x) == Qabs (r - x))%Q ->
                exists n : Z, (r == inject_Z (2 * n) * (y - r))%Q).

(** Halfway between the largest binary64 number and [2 ^ 1024]: from
    here on a number rounds to infinity. *)
Definition overflow_threshold : Q := inject_Z ((2 ^ 54 - 1) * 2 ^ 970).

(** The float that stands for the number [x]: the nearest binary64
    number, ties to the even significand, and infinity from the
    threshold on. *)
Definition rounds_to (x : Q) (f : Float64.float64) : Prop :=
  match f with
  | Float64.Finite r => (Qabs x < overflow_threshold)%Q /\ nearest_binary64 x r
  | Float64.Infinite negative =>
      (overflow_threshold <= (if negative then - x else x))%Q
  | Float64.NaN => False
  end.

End Spec.

(** * Concrete surroundings for the worked examples *)

Module Samples.
Import Event.

(** A [datetime.fromtimestamp] that takes the years 1970 to 9999. *)
Definition fromtimestamp0 (x : Q) : option Q :=
  if Qle_bool 0 x && Qle_bool x 253402300799 then Some x else None.

Definition host0 : Parser.host :=
  {| Parser.BOOT_TIME := Some 1700000000%Q; Parser.now := 1700001000%Q;
     Parser.fromtimestamp := fromtimestamp0;
     Parser.uuid4 := "00000000-0000-4000-8000-000000000000" |}.

(** The i-th parser call gets its own identifier. *)
Definition hosts0 : Sources.hosts :=
  fun i => {| Parser.BOOT_TIME := Some 1700000000%Q; Parser.now := 1700001000%Q;
              Parser.fromtimestamp := fromtimestamp0;
              Parser.uuid4 := "event-" +:+ pretty i |}.

Definition nl : string := String PyStr.newline "".

(** The digit 1, [n] times. *)
Fixpoint ones (n : nat) : string :=
  match n with
  | O => ""
  | S n' => String "1" (ones n')
  end.

(** A [dmesg] that prints two lines. *)
Definition two_lines : string :=
  "[1.0] usb: device attached" +:+ nl +:+ "[2.0] usb: device removed" +:+ nl.

Definition dmesg_two_lines : Sources.tools :=
  fun _ => Sources.Completed 0 two_lines.

(** A [dmesg] whose second line has a priority prefix, no timestamp
    and a leading blank. *)
Definition indented_prefix : string :=
  "[1.0] usb: device attached" +:+ nl +:+ " <6>usb: reset" +:+ nl +:+
  "[2.0] usb: device removed" +:+ nl.

Definition dmesg_indented_prefix : Sources.tools :=
  fun _ => Sources.Completed 0 indented_prefix.

(** Subscribers that always return. *)
Definition quiet : Engine.behaviour := fun _ _ => Engine.CbReturns.

Definition plain_event (msg : string) : KernelEvent :=
  {| timestamp_monotonic := None; timestamp_realtime := None;
     severity := "INFO"; subsystem := Some "KERNEL"; message := msg;
     raw := msg; source := "dmesg"; event_id := msg;
     cpu := None; pid := None; annotations := ∅; plugin_metadata := ∅ |}.

Definition cont_event (msg : string) : KernelEvent :=
  {| timestamp_monotonic := None; timestamp_realtime := None;
     severity := "INFO"; subsystem := Some "KERNEL"; message := msg;
     raw := msg; source := "dmesg"; event_id := msg;
     cpu := None; pid := None;
     annotations := {[ "continuation" := PyBool true ]};
     plugin_metadata := ∅ |}.

Definition plugin (v : string) (load : Plugins.hook bool)
           (ev : Plugins.hook unit) : Plugins.KernelPlugin :=
  {| Plugins.min_engine_version := Some v; Plugins.truth := true;
     Plugins.on_load := load; Plugins.on_event := fun _ => ev;
     Plugins.on_unload := Plugins.Returns tt |}.

(** A running engine of capacity [n] with an empty buffer. *)
Definition engine_running (n : nat) : Engine.engine :=
  {| Engine.buffer_size := n; Engine.buffer := []; Engine.objects := ∅;
     Engine.next_addr := 0; Engine.has_source := true;
     Engine.running := true; Engine.paused := false;
     Engine.event_callbacks := [7; 9]; Engine.delivered := [] |}.

(** The same engine after it took in the event [head]. *)
Definition engine_one : Engine.engine :=
  {| Engine.buffer_size := 4; Engine.buffer := [0];
     Engine.objects := {[ 0 := plain_event "head" ]};
     Engine.next_addr := 1; Engine.has_source := true;
     Engine.running := true; Engine.paused := false;
     Engine.event_callbacks := [7; 9]; Engine.delivered := [(7, 0); (9, 0)] |}.

(** A plugin directory with one file, which defines one plugin class. *)
Definition one_plugin (p : Plugins.KernelPlugin) : Plugins.plugin_dir :=
  fun name =>
    if String.eqb name "demo"
    then Some (Plugins.Module [Plugins.NotAClass; Plugins.BaseClass;
                               Plugins.PluginClass (Some p)])
    else None.

(** A plugin whose load hook declines. *)
Definition declining : Plugins.KernelPlugin :=
  plugin "1.0" (Plugins.Returns false) (Plugins.Returns tt).

(** A manager for engine version 1.0 with a context in place. *)
Definition manager0 : Plugins.manager := Plugins.set_context (Plugins.init "1.0").

(** Three loaded and enabled plugins; the second one's event hook raises. *)
Definition manager3 : Plugins.manager :=
  {| Plugins.engine_version := "1.0";
     Plugins.plugins :=
       <[ "a" := plugin "1.0" (Plugins.Returns true) (Plugins.Returns tt) ]>
       (<[ "b" := plugin "1.0" (Plugins.Returns true) Plugins.Fails ]>
       (<[ "c" := plugin "1.0" (Plugins.Returns true) (Plugins.Returns tt) ]> ∅));
     Plugins.enabled_plugins := ["a"; "b"; "c"];
     Plugins.context_set := true |}.

End Samples.

(** * The capture groups of a pattern *)

Module ReGroups.
Import Re.

(** The numbers of the groups a pattern can set. *)
Fixpoint groups (r : regex) : list nat :=
  match r with
  | Chr _ | Eol => []
  | Seq r1 r2 => groups r1 ++ groups r2
  | Rep r1 _ _ => groups r1
  | Grp n r1 => n :: groups r1
  end.

(** [new] holds captures of the groups [ns] only. *)
Definition only (ns : list nat) (new : captures) : Prop :=
  Forall (fun kv => In (fst kv) ns) new.

End ReGroups.

(** * The capability probe ([core/permissions.py]) and source selection *)

Module Probe.
Import Sources.

(** [PermissionChecker.can_read_dmesg]: the exit status of [dmesg];
    every exception of the call counts as no. *)
Definition can_read_dmesg (run : tools) : bool :=
  match run ["dmesg"] with
  | Completed returncode _ => (returncode =? 0)%Z
  | FileNotFound | TimedOut => false
  end.

(** [PermissionChecker.can_use_journalctl] *)
Definition can_use_journalctl (run : tools) : bool :=
  match run ["journalctl"; "-k"; "-n"; "1"] with
  | Completed returncode _ => (returncode =? 0)%Z
  | FileNotFound | TimedOut => false
  end.

(** [PermissionChecker.get_available_sources] *)
Definition get_available_sources (run : tools) : list string :=
  (if can_read_dmesg run then ["dmesg"] else [])
  ++ (if can_use_journalctl run then ["journal"] else []).

(** The adapter an engine holds. *)
Inductive LogSource : Type :=
| UseDmesg (s : DmesgSource)
| UseJournalctl (s : JournalctlSource).

(** [KernelLogEngine.initialize]: the result, the adapter chosen and the
    engine, which now has a source when the result is true. *)
Definition initialize (run : tools) (e : Engine.engine)
  : bool * option LogSource * Engine.engine :=
  let available_sources := get_available_sources run in
  match available_sources with
  | [] => (false, None, e)
  | _ =>
      if existsb (String.eqb "dmesg") available_sources then
        (true,
         Some (UseDmesg (DmesgSource_init (Z.of_nat (Engine.buffer_size e)))),
         Engine.set_source true e)
      else if existsb (String.eqb "journal") available_sources then
        (true,
         Some (UseJournalctl {| journal_buffer_size := Z.of_nat (Engine.buffer_size e) |}),
         Engine.set_source true e)
      else (false, None, e)
  end.

End Probe.

(** * The synchronous reader ([core/kernel_log_reader.py]) *)

Module Reader.
Import Engine.

(** The part of a [KernelLogReader] its polling methods use.  The
    methods return event objects; their conversion with [to_dict] copies
    the fields. *)
Record KernelLogReader : Type := mkReader {
  engine : Engine.engine;
  engine_initialized : bool;
  _last_buffer_index : Z
}.

(** [events[i:]] for [0 <= i] *)
Definition slice_from {A} (i : Z) (l : list A) : list A := drop (Z.to_nat i) l.

(** [get_new_logs]: the buffer entries from the remembered index on. *)
Definition get_new_logs (r : KernelLogReader) : list addr * KernelLogReader :=
  if negb (engine_initialized r) then ([], r)
  else
    let events := get_buffer (engine r) in
    let index := if (_last_buffer_index r <? 0)%Z then 0%Z else _last_buffer_index r in
    (slice_from index events,
     {| engine := engine r; engine_initialized := engine_initialized r;
        _last_buffer_index := Z.of_nat (length events) |}).

(** [clear_buffer] *)
Definition clear_buffer (r : KernelLogReader) : bool * KernelLogReader :=
  (true,
   {| engine := flush_buffer (engine r); engine_initialized := engine_initialized r;
      _last_buffer_index := _last_buffer_index r |}).

(** The engine of a reader goes through some operations. *)
Definition with_engine (f : Engine.engine -> Engine.engine) (r : KernelLogReader)
  : KernelLogReader :=
  {| engine := f (engine r); engine_initialized := engine_initialized r;
     _last_buffer_index := _last_buffer_index r |}.

End Reader.

(** * More of the plugin manager: shutdown, sequences of calls *)

Module PluginOps.
Import Errors Plugins.

(** [shutdown]: unload every name of [list(self.plugins.keys())], here
    [names], in turn; a cancellation leaves the loop. *)
Fixpoint shutdown (names : list string) (mgr : manager) : result unit * manager :=
  match names with
  | [] => (Return tt, mgr)
  | plugin_name :: rest =>
      match unload_plugin plugin_name mgr with
      | (Raise e, mgr') => (Raise e, mgr')
      | (Return _, mgr') => shutdown rest mgr'
      end
  end.

(** Whether [unload_plugin] takes the name out of [mgr]: it is loaded
    and its unload hook returns. *)
Definition unloads (mgr : manager) (plugin_name : string) : bool :=
  match plugins mgr !! plugin_name with
  | Some plugin =>
      match on_unload plugin with
      | Returns _ => true
      | Fails | Cancelled => false
      end
  | None => false
  end.

(** The calls a client makes on a manager. *)
Inductive call : Type :=
| Load (dir : plugin_dir) (plugin_name : string)
| Unload (plugin_name : string)
| Enable (rehash : list string -> list string) (plugin_name : string)
| Disable (plugin_name : string).

(** The hash table of a call only reorders the members of the set. *)
Definition reorders (c : call) : Prop :=
  match c with
  | Enable rehash _ => forall l, rehash l ≡ₚ l
  | _ => True
  end.

Definition after (c : call) (mgr : manager) : manager :=
  match c with
  | Load dir plugin_name => snd (load_plugin dir plugin_name mgr)
  | Unload plugin_name => snd (unload_plugin plugin_name mgr)
  | Enable rehash plugin_name => snd (enable_plugin rehash plugin_name mgr)
  | Disable plugin_name => snd (disable_plugin plugin_name mgr)
  end.

Definition after_all (calls : list call) (mgr : manager) : manager :=
  fold_left (fun m c => after c m) calls mgr.

(** Every enabled name is loaded, and no name is enabled twice. *)
Definition consistent (mgr : manager) : Prop :=
  NoDup (enabled_plugins mgr)
  /\ Forall (fun plugin_name => is_Some (plugins mgr !! plugin_name)) (enabled_plugins mgr).

End PluginOps.

(** * Properties *)

(** ** The parser *)

Module ParserProps.
Import Event Parser.

Lemma normalize_standard s :
  In s Spec.severity_enumeration ->
  _normalize_severity s = s.
Proof.
  simpl. intros H.
  repeat (destruct H as [<- | H]; [reflexivity |]). destruct H.
Qed.

Lemma SEVERITY_LEVELS_standard level s :
  SEVERITY_LEVELS level = Some s -> In s Spec.severity_enumeration.
Proof.
  unfold SEVERITY_LEVELS. intros H.
  repeat (match type of H with
          | match ?z with _ => _ end = _ => destruct z
          end; try discriminate);
    try (inversion H; subst; simpl; tauto).
Qed.

Lemma infer_severity_standard message :
  In (_infer_severity message) Spec.severity_enumeration.
Proof.
  unfold _infer_severity.
  repeat (match goal with
          | |- context [if ?b then _ else _] => destruct b
          end; [simpl; tauto |]).
  simpl; tauto.
Qed.

(** The severity the timestamped path settles on, from what the
    inline priority digit gave. *)
Lemma settled_standard (prefix : option string) message :
  (forall s, prefix = Some s -> In s Spec.severity_enumeration) ->
  In (let severity :=
        match prefix with
        | Some "" | None => _infer_severity message
        | Some s => s
        end in
      if String.eqb severity "" then "INFO" else _normalize_severity severity)
     Spec.severity_enumeration.
Proof.
  intros Hp. cbv zeta.
  assert (Hin : In (match prefix with
                    | Some "" | None => _infer_severity message
                    | Some s => s
                    end) Spec.severity_enumeration).
  { destruct prefix as [[|c s]|].
    - apply infer_severity_standard.
    - apply Hp; reflexivity.
    - apply infer_severity_standard. }
  destruct (String.eqb _ "") eqn:E.
  - simpl; tauto.
  - rewrite normalize_standard by exact Hin. exact Hin.
Qed.

(** On the timestamped path the severity is always one of the eight
    levels: a priority digit outside 0..7 falls back on the keywords. *)
Lemma timestamped_severity_standard h line source c ev :
  Re.re_match DMESG_PATTERN (PyStr.strip line) = Some c ->
  parse_dmesg_line h line source = Some ev ->
  In (severity ev) Spec.severity_enumeration.
Proof.
  intros Hm. unfold parse_dmesg_line.
  destruct (String.eqb line ""); [discriminate |].
  destruct (String.eqb (PyStr.strip line) ""); [discriminate |].
  rewrite Hm.
  destruct (Re.re_match PRIORITY_PATTERN _) as [pc|].
  - set (prefix := match Re.group 1 pc with
                   | Some d => SEVERITY_LEVELS (PyStr.digits_value d)
                   | None => None
                   end).
    assert (Hp : forall s, prefix = Some s -> In s Spec.severity_enumeration).
    { subst prefix. intros s Hs. destruct (Re.group 1 pc); [| discriminate].
      eapply SEVERITY_LEVELS_standard; exact Hs. }
    destruct (Re.re_match PROCESS_PATTERN _) as [pm|];
      try destruct (split_subsystem _) as [sub msg];
      intros [= <-]; cbn [severity];
      exact (settled_standard prefix _ Hp).
  - destruct (Re.re_match PROCESS_PATTERN _) as [pm|];
      try destruct (split_subsystem _) as [sub msg];
      intros [= <-]; cbn [severity];
      apply (settled_standard None); discriminate.
Qed.

(** On the fallback path the event is what [_parse_kernel_prefix]
    builds from the stripped line. *)
Lemma fallback_path h line source ev :
  Re.re_match DMESG_PATTERN (PyStr.strip line) = None ->
  parse_dmesg_line h line source = Some ev ->
  _parse_kernel_prefix h (PyStr.strip line) source = Some ev.
Proof.
  intros Hm. unfold parse_dmesg_line.
  destruct (String.eqb line ""); [discriminate |].
  destruct (String.eqb (PyStr.strip line) ""); [discriminate |].
  rewrite Hm. trivial.
Qed.

(** C1 (the code departs from it): every accepted line gets one of the
    eight severities.  The fallback path maps the priority digits 8 and
    9 to the string UNKNOWN, which normalisation leaves as it is; the
    line [<8>kernel: hello] is accepted with that severity. *)
Theorem C1_kernel_prefix_digit_8_is_unknown :
  exists ev,
    parse_dmesg_line Samples.host0 "<8>kernel: hello" "dmesg" = Some ev
    /\ Re.re_match DMESG_PATTERN (PyStr.strip "<8>kernel: hello") = None
    /\ severity ev = "UNKNOWN"
    /\ ~ In (severity ev) Spec.severity_enumeration.
Proof.
  eexists. split; [vm_compute; reflexivity |].
  split; [vm_compute; reflexivity |].
  split; [reflexivity |].
  cbn. intros H.
  repeat (destruct H as [H | H]; [discriminate H |]). exact H.
Qed.

(** C10: a line parsed through the no-timestamp fallback (the
    timestamped pattern does not match it) yields an event without
    monotonic timestamp, pid and cpu and with no annotations, so the
    engine never sees it as a continuation, whatever its message
    looks like. *)
Theorem C10_fallback_path_has_no_extras h line source ev
  (Hfallback : Re.re_match DMESG_PATTERN (PyStr.strip line) = None)
  (Haccepted : parse_dmesg_line h line source = Some ev) :
  timestamp_monotonic ev = None
  /\ pid ev = None
  /\ cpu ev = None
  /\ annotations ev = ∅
  /\ annotations ev !! "continuation" = None
  /\ Engine.is_cont ev = false.
Proof.
  pose proof (fallback_path _ _ _ _ Hfallback Haccepted) as H.
  unfold _parse_kernel_prefix in H.
  destruct (Re.re_match KERNEL_PREFIX _); [| discriminate].
  injection H as <-. unfold Engine.is_cont. cbn.
  repeat split; reflexivity.
Qed.

(** A fallback line whose message starts with a continuation marker. *)
Lemma C10_witness :
  exists ev,
    parse_dmesg_line Samples.host0 "<6>kernel: Code: f6 74 08 85 c9 0f 84" "dmesg" = Some ev
    /\ _is_continuation_line (message ev) = true
    /\ timestamp_monotonic ev = None /\ pid ev = None /\ cpu ev = None
    /\ annotations ev = ∅
    /\ annotations ev !! "continuation" = None
    /\ Engine.is_cont ev = false.
Proof.
  eexists. split; [vm_compute; reflexivity |].
  split; [vm_compute; reflexivity |].
  apply (C10_fallback_path_has_no_extras
           Samples.host0 "<6>kernel: Code: f6 74 08 85 c9 0f 84" "dmesg");
    vm_compute; reflexivity.
Defined.

End ParserProps.

(** ** The source adapters *)

Module SourcesProps.
Import Event Errors Sources.

(** C2 (the code departs from it): a snapshot holds at most
    [buffer_size] events.  The dmesg adapter parses every line the tool
    printed and returns all the events; only the [last_lines] it keeps
    for itself are cut to [buffer_size].  With [buffer_size = 1] and a
    tool that prints two lines it returns two events. *)
Theorem C2_dmesg_snapshot_is_not_capped :
  exists e1 e2 self',
    dmesg_get_snapshot Samples.dmesg_two_lines Samples.hosts0 (DmesgSource_init 1)
    = (Return [e1; e2], self')
    /\ dmesg_buffer_size self' = 1%Z
    /\ last_lines self' = ["[2.0] usb: device removed"]
    /\ (length [e1; e2] > 1)%nat.
Proof.
  do 3 eexists. split; [vm_compute; reflexivity |].
  repeat split. cbn. lia.
Qed.

(** The journalctl adapter leaves the cap to the tool: it asks for
    [-n buffer_size] and returns an event for every line that parses. *)
Lemma journalctl_snapshot_asks_for_n run h self stdout :
  run ["journalctl"; "-k"; "-n"; pretty (journal_buffer_size self); "-o"; "short"]
  = Completed 0 stdout ->
  journalctl_get_snapshot run h self
  = Return (parse_lines h 0 "journal" (stdout_lines stdout)).
Proof.
  intros H. unfold journalctl_get_snapshot. rewrite H. reflexivity.
Qed.

(** C7 (the code departs from it): [raw] is the line the adapter
    handed to the parser.  The fallback path stores the stripped text
    instead: in a snapshot whose second line is [ <6>usb: reset], with a
    leading blank, the second event's [raw] has lost the blank. *)
Theorem C7_fallback_raw_is_stripped :
  exists l1 l3 e1 e2 e3 self',
    stdout_lines Samples.indented_prefix = [l1; " <6>usb: reset"; l3]
    /\ dmesg_get_snapshot Samples.dmesg_indented_prefix Samples.hosts0
                          (DmesgSource_init 100)
       = (Return [e1; e2; e3], self')
    /\ Parser.parse_dmesg_line (Samples.hosts0 1) " <6>usb: reset" "dmesg" = Some e2
    /\ raw e2 = "<6>usb: reset"
    /\ raw e2 <> " <6>usb: reset".
Proof.
  do 6 eexists. split; [vm_compute; reflexivity |].
  split; [vm_compute; reflexivity |].
  split; [vm_compute; reflexivity |].
  split; [reflexivity |]. discriminate.
Qed.

End SourcesProps.

(** ** What [int] reads *)

Module IntFacts.
Import PyStr.

Lemma digit_not_underscore c : isdecimal c = true -> Ascii.eqb c "_" = false.
Proof.
  destruct c as [[] [] [] [] [] [] [] []]; vm_compute; congruence.
Qed.

Lemma digit_not_int_space c : isdecimal c = true -> int_space c = false.
Proof.
  destruct c as [[] [] [] [] [] [] [] []]; vm_compute; congruence.
Qed.

Lemma digit_not_sign c :
  isdecimal c = true -> Ascii.eqb c "-" = false /\ Ascii.eqb c "+" = false.
Proof.
  destruct c as [[] [] [] [] [] [] [] []]; vm_compute; intros H;
    first [discriminate H | split; reflexivity].
Qed.

(** The scan of the digit body accepts grouped digits and nothing
    else. *)
Lemma int_body_spec b :
  forall after_digit acc,
    int_body after_digit acc b
    = if Spec.grouped_from after_digit b
      then Some (digits_value_from acc (remove_char "_" b))
      else None.
Proof.
  unfold Spec.grouped_from.
  induction b as [|c b IH]; intros pd acc.
  - cbn. destruct pd; reflexivity.
  - cbn [int_body all_chars remove_char Spec.starts_with_digit].
    destruct (isdecimal c) eqn:Hd.
    + rewrite (digit_not_underscore c Hd). cbn [orb andb digits_value_from].
      rewrite IH. rewrite orb_true_r.
      assert (He : Spec.ends_with_underscore (String c b) = Spec.ends_with_underscore b).
      { cbn [Spec.ends_with_underscore]. destruct b; [| reflexivity].
        rewrite (digit_not_underscore c Hd). reflexivity. }
      assert (Hc : contains "__" (String c b) = contains "__" b).
      { cbn [contains startswith].
        rewrite Ascii.eqb_sym, (digit_not_underscore c Hd). reflexivity. }
      rewrite He, Hc. cbn [orb andb]. rewrite !andb_true_r.
      destruct (all_chars _ b); reflexivity.
    + destruct (Ascii.eqb_spec c "_") as [-> | Hne].
      2:{ cbn [orb andb]. reflexivity. }
      cbn [orb andb]. destruct pd; cbn [orb andb]; [| rewrite andb_false_r; reflexivity].
      destruct b as [|d b'].
      { cbn. reflexivity. }
      destruct (isdecimal d) eqn:Hdd.
      * rewrite IH.
        cbn [Spec.ends_with_underscore Spec.starts_with_digit contains startswith].
        rewrite Hdd.
        assert (Hu : Ascii.eqb "_" d = false)
          by (rewrite Ascii.eqb_sym; exact (digit_not_underscore d Hdd)).
        rewrite !Hu. cbn [andb orb]. rewrite ?andb_false_r. cbn [andb orb].
        reflexivity.
      * cbn [all_chars]. rewrite Hdd. cbn [orb].
        destruct (Ascii.eqb_spec d "_") as [-> | Hd'].
        -- cbn [contains startswith Ascii.eqb Bool.eqb andb orb].
           rewrite !andb_false_r. reflexivity.
        -- cbn [andb]. reflexivity.
Qed.

Lemma int_unfold s :
  int s
  = let unsigned (b : string) :=
      if (count_decimal b <=? int_max_str_digits)%nat then int_body false 0 b else None in
    match Spec.trimmed s with
    | String "-" b => option_map Z.opp (unsigned b)
    | String "+" b => unsigned b
    | b => unsigned b
    end.
Proof. reflexivity. Qed.

(** [int] reads the literals of [Spec.int_literal], and those only. *)
Lemma int_spec c :
  int c = if Spec.int_literal c then Some (Spec.int_value c) else None.
Proof.
  rewrite int_unfold. unfold Spec.int_literal, Spec.int_value. cbn zeta.
  assert (Hbody : forall b,
            (if (count_decimal b <=? int_max_str_digits)%nat
             then int_body false 0 b else None)
            = if Spec.grouped_digits b && (count_decimal b <=? 4300)%nat
              then Some (digits_value (remove_char "_" b)) else None).
  { intros b. rewrite int_body_spec. unfold Spec.grouped_digits.
    change int_max_str_digits with 4300%nat.
    destruct (count_decimal b <=? 4300)%nat; [| rewrite andb_false_r; reflexivity].
    rewrite andb_true_r. reflexivity. }
  destruct (Spec.trimmed c) as [|a t].
  - rewrite Hbody. reflexivity.
  - destruct a as [[] [] [] [] [] [] [] []];
      cbn [Spec.unsigned Spec.negative]; rewrite Hbody;
      match goal with
      | |- context [if ?b then _ else _] => destruct b
      end; reflexivity.
Qed.

(** Runs of digits. *)
Lemma digits_trimmed c : all_chars isdecimal c = true -> Spec.trimmed c = c.
Proof.
  intros H. unfold Spec.trimmed.
  assert (Hr : rstrip_by int_space c = c).
  { induction c as [|a c IH]; [reflexivity |].
    cbn [all_chars] in H. apply andb_true_iff in H as [Ha Hc].
    cbn [rstrip_by]. rewrite (IH Hc). destruct c; [| reflexivity].
    rewrite (digit_not_int_space a Ha). reflexivity. }
  rewrite Hr. destruct c as [|a c]; [reflexivity |].
  cbn [all_chars] in H. apply andb_true_iff in H as [Ha _].
  cbn [lstrip_by]. rewrite (digit_not_int_space a Ha). reflexivity.
Qed.

Lemma digits_unsigned c :
  all_chars isdecimal c = true -> Spec.unsigned c = c /\ Spec.negative c = false.
Proof.
  destruct c as [|a c]; [split; reflexivity |].
  cbn [all_chars]. intros H. apply andb_true_iff in H as [Ha _].
  destruct a as [[] [] [] [] [] [] [] []]; try discriminate Ha; split; reflexivity.
Qed.

Lemma digits_count c : all_chars isdecimal c = true -> count_decimal c = String.length c.
Proof.
  induction c as [|a c IH]; [reflexivity |].
  cbn [all_chars count_decimal String.length]. intros H.
  apply andb_true_iff in H as [Ha Hc]. rewrite Ha, (IH Hc). reflexivity.
Qed.

Lemma digits_no_underscore c : all_chars isdecimal c = true -> remove_char "_" c = c.
Proof.
  induction c as [|a c IH]; [reflexivity |].
  cbn [all_chars remove_char]. intros H.
  apply andb_true_iff in H as [Ha Hc].
  rewrite (digit_not_underscore a Ha), (IH Hc). reflexivity.
Qed.

Lemma digits_grouped c :
  all_chars isdecimal c = true -> forall after_digit,
  Spec.grouped_from after_digit c = (after_digit || negb (String.eqb c ""))%bool.
Proof.
  unfold Spec.grouped_from.
  induction c as [|a c IH]; intros H pd.
  - cbn. destruct pd; reflexivity.
  - cbn [all_chars] in H. apply andb_true_iff in H as [Ha Hc].
    specialize (IH Hc true). cbn [orb] in IH.
    cbn [all_chars Spec.starts_with_digit String.eqb negb]. rewrite Ha.
    cbn [orb andb]. rewrite orb_true_r.
    assert (He : Spec.ends_with_underscore (String a c) = Spec.ends_with_underscore c).
    { cbn [Spec.ends_with_underscore]. destruct c; [| reflexivity].
      rewrite (digit_not_underscore a Ha). reflexivity. }
    assert (Hc' : contains "__" (String a c) = contains "__" c).
    { cbn [contains startswith].
      rewrite Ascii.eqb_sym, (digit_not_underscore a Ha). reflexivity. }
    rewrite He, Hc'. cbn [andb]. exact IH.
Qed.

(** A decimal integer in the plain sense is a literal of [int] as long
    as it has no more than 4300 digits, and stands for the number its
    digits denote. *)
Lemma decimal_integer_literal c :
  Spec.decimal_integer c = true ->
  Spec.int_literal c = (String.length c <=? 4300)%nat
  /\ Spec.int_value c = digits_value c.
Proof.
  unfold Spec.decimal_integer. intros H. apply andb_true_iff in H as [Hne Hall].
  unfold Spec.int_literal, Spec.int_value. cbn zeta.
  rewrite (digits_trimmed c Hall).
  destruct (digits_unsigned c Hall) as [-> ->].
  rewrite (digits_count c Hall), (digits_no_underscore c Hall).
  unfold Spec.grouped_digits. rewrite (digits_grouped c Hall false), Hne.
  split; reflexivity.
Qed.

Lemma int_of_digits d :
  d <> "" -> all_chars isdecimal d = true ->
  int d = if (String.length d <=? 4300)%nat then Some (digits_value d) else None.
Proof.
  intros Hne Hall.
  assert (Hd : Spec.decimal_integer d = true).
  { unfold Spec.decimal_integer. rewrite Hall.
    destruct d; [congruence | reflexivity]. }
  rewrite int_spec. destruct (decimal_integer_literal d Hd) as [-> ->].
  reflexivity.
Qed.

End IntFacts.

(** ** The plugin manager *)

Module PluginsProps.
Import Event Errors Plugins.

Lemma ints_Forall2 parts ns :
  ints parts = Some ns <-> Forall2 (fun c n => PyStr.int c = Some n) parts ns.
Proof.
  revert ns. induction parts as [|x rest IH]; intros ns; simpl.
  - split.
    + intros [= <-]. constructor.
    + intros H. inversion H. reflexivity.
  - split.
    + destruct (PyStr.int x) as [n|] eqn:Ex; [| discriminate].
      destruct (ints rest) as [ms|] eqn:Er; [| discriminate].
      intros [= <-]. constructor; [exact Ex | apply IH; reflexivity].
    + intros H. inversion H as [| ? n ? ms Hx Hr]; subst.
      rewrite Hx. apply IH in Hr. rewrite Hr. reflexivity.
Qed.

Lemma ints_None parts :
  ints parts = None <-> Exists (fun c => PyStr.int c = None) parts.
Proof.
  induction parts as [|x rest IH]; simpl.
  - split; [discriminate | intros H; inversion H].
  - destruct (PyStr.int x) as [n|] eqn:Ex.
    + destruct (ints rest) as [ms|] eqn:Er.
      * split; [discriminate |].
        intros H. inversion H as [? ? Hx | ? ? Hr]; subst.
        -- congruence.
        -- apply IH in Hr. discriminate.
      * split; [| reflexivity]. intros _. right. apply IH. reflexivity.
    + split; [| reflexivity]. intros _. left. exact Ex.
Qed.

(** Python's list comparison is the list-lexicographic order. *)
Lemma list_ge_lex a b : list_ge a b = true <-> Spec.lex_le b a.
Proof.
  revert b. induction a as [|x a IH]; intros [|y b]; simpl.
  - split; [constructor | reflexivity].
  - split; [discriminate | intros H; inversion H].
  - split; [constructor | reflexivity].
  - destruct (Z.eqb_spec x y) as [->|Hne].
    + rewrite IH. split.
      * intros H. constructor 3. exact H.
      * intros H. inversion H; subst; [lia | assumption].
    + rewrite Z.ltb_lt. split.
      * intros H. constructor 2. exact H.
      * intros H. inversion H; subst; [assumption | congruence].
Qed.

(** The components [int] reads, and their values. *)
Lemma ints_literals parts :
  Forall (fun c => Spec.int_literal c = true) parts ->
  ints parts = Some (map Spec.int_value parts).
Proof.
  induction 1 as [|c rest Hc _ IH]; [reflexivity |].
  cbn [ints map]. rewrite IntFacts.int_spec, Hc, IH. reflexivity.
Qed.

Lemma ints_not_literal parts :
  Exists (fun c => Spec.int_literal c = false) parts -> ints parts = None.
Proof.
  induction 1 as [c rest Hc | c rest _ IH]; cbn [ints].
  - rewrite IntFacts.int_spec, Hc. reflexivity.
  - rewrite IH. destruct (PyStr.int c); reflexivity.
Qed.

(** C9, as the code has it: a component counts as an integer when
    [int] reads it, that is when it is made of optional whitespace
    around, one sign at most, and digits that single underscores may
    group, 4300 digits at most.  When every dot-separated component of
    both version strings is such a literal, the check succeeds exactly
    when the list of the required version's integers is
    list-lexicographically below or equal to the engine's list, a shorter
    list being smaller than its extensions (required 1.0 against engine 1
    fails); when some component of either string is no such literal, the
    check fails.  A plain run of digits is such a literal as long as it
    has no more than 4300 digits, and stands for the number it
    writes. *)
Theorem C9_version_check required available :
  (Forall (fun c => Spec.int_literal c = true) (PyStr.split "." required) ->
   Forall (fun c => Spec.int_literal c = true) (PyStr.split "." available) ->
   (_check_version_compatibility required available = true
    <-> Spec.lex_le (map Spec.int_value (PyStr.split "." required))
                    (map Spec.int_value (PyStr.split "." available))))
  /\ (Exists (fun c => Spec.int_literal c = false) (PyStr.split "." required)
      \/ Exists (fun c => Spec.int_literal c = false) (PyStr.split "." available) ->
      _check_version_compatibility required available = false)
  /\ (forall c, Spec.decimal_integer c = true ->
                Spec.int_literal c = (String.length c <=? 4300)%nat
                /\ Spec.int_value c = PyStr.digits_value c)
  /\ _check_version_compatibility "1.0" "1" = false
  /\ ~ Spec.lex_le [1; 0]%Z [1]%Z.
Proof.
  split; [| split; [| split; [| split]]].
  - intros Hr Ha. unfold _check_version_compatibility.
    rewrite (ints_literals _ Hr), (ints_literals _ Ha). apply list_ge_lex.
  - intros [H | H]; apply ints_not_literal in H; unfold _check_version_compatibility.
    + rewrite H. reflexivity.
    + destruct (ints (PyStr.split "." required)); [rewrite H |]; reflexivity.
  - exact IntFacts.decimal_integer_literal.
  - reflexivity.
  - intros H. inversion H; subst; [lia |].
    match goal with Hl : Spec.lex_le [0%Z] [] |- _ => inversion Hl end.
Qed.

(** Engine 1.10 satisfies a plugin that requires 1.2 (components
    compare as integers); a component that is no integer fails the
    check. *)
Lemma C9_witness :
  _check_version_compatibility "1.2" "1.10" = true
  /\ _check_version_compatibility "1.x" "1.0" = false.
Proof.
  split.
  - apply (proj1 (C9_version_check "1.2" "1.10")).
    + repeat constructor.
    + repeat constructor.
    + change (Spec.lex_le [1; 2]%Z [1; 10]%Z). constructor 3. constructor 2. lia.
  - apply (proj1 (proj2 (C9_version_check "1.x" "1.0"))).
    left. right. left. reflexivity.
Defined.

(** C9 as stated fails both ways.  [1_0] is not a decimal integer, and
    neither is [ 1] with its blank, yet required [1_0] against engine [10]
    and required [ 1] against engine [1] pass the check.  A run of 4301
    digits is a decimal integer, yet a version made of it does not
    satisfy itself, although the two integer lists are equal. *)
Lemma C9_int_decides_what_a_component_is :
  Spec.decimal_integer "1_0" = false
  /\ _check_version_compatibility "1_0" "10" = true
  /\ Spec.decimal_integer " 1" = false
  /\ _check_version_compatibility " 1" "1" = true
  /\ Spec.decimal_integer (Samples.ones 4301) = true
  /\ PyStr.split "." (Samples.ones 4301) = [Samples.ones 4301]
  /\ _check_version_compatibility (Samples.ones 4301) (Samples.ones 4301) = false.
Proof.
  repeat split; vm_compute; reflexivity.
Qed.

Lemma process_names_no_cancel registry event names :
  (forall name p, In name names -> registry !! name = Some p ->
                  on_event p event <> Cancelled) ->
  process_names registry event names
  = (Return tt, filter (fun name => is_Some (registry !! name)) names).
Proof.
  induction names as [|name rest IH]; intros Hnc; simpl.
  - reflexivity.
  - assert (Hrest : forall n p, In n rest -> registry !! n = Some p ->
                                on_event p event <> Cancelled).
    { intros n p Hn. apply Hnc. right. exact Hn. }
    specialize (IH Hrest).
    destruct (registry !! name) as [p|] eqn:Ep.
    + rewrite filter_cons_True by (rewrite Ep; eauto).
      pose proof (Hnc name p (or_introl eq_refl) Ep) as Hp.
      rewrite IH. destruct (on_event p event); [reflexivity | reflexivity | congruence].
    + rewrite filter_cons_False by (rewrite Ep; intros [? ?]; discriminate).
      exact IH.
Qed.

Lemma process_names_cancel registry event names :
  (exists name p, In name names /\ registry !! name = Some p
                  /\ on_event p event = Cancelled) ->
  exists before name p,
    process_names registry event names = (Raise CancelledError, before ++ [name])
    /\ registry !! name = Some p /\ on_event p event = Cancelled
    /\ forall n q, In n before -> registry !! n = Some q ->
                    on_event q event <> Cancelled.
Proof.
  induction names as [|first rest IH]; intros (name & p & Hin & Hp & Hc).
  - destruct Hin.
  - simpl. destruct (registry !! first) as [q|] eqn:Eq.
    + destruct (on_event q event) eqn:Eo.
      * destruct Hin as [-> | Hin]; [congruence |].
        destruct (IH (ex_intro _ name (ex_intro _ p (conj Hin (conj Hp Hc)))))
          as (before & n' & p' & Hrun & Hp' & Hc' & Hb).
        exists (first :: before), n', p'. rewrite Hrun.
        repeat split; try assumption.
        intros n q0 [<- | Hn] Hq; [congruence | eapply Hb; eassumption].
      * destruct Hin as [-> | Hin]; [congruence |].
        destruct (IH (ex_intro _ name (ex_intro _ p (conj Hin (conj Hp Hc)))))
          as (before & n' & p' & Hrun & Hp' & Hc' & Hb).
        exists (first :: before), n', p'. rewrite Hrun.
        repeat split; try assumption.
        intros n q0 [<- | Hn] Hq; [congruence | eapply Hb; eassumption].
      * exists [], first, q. repeat split; try assumption.
        intros n q0 [].
    + destruct Hin as [-> | Hin]; [congruence |].
      apply IH. eauto.
Qed.

(** C8: when no event hook is cancelled, [process_event] returns
    normally and has called the hook of every enabled, loaded plugin,
    in order, whichever of them raised; a cancellation ends the call
    with the cancellation, at the plugin where it happened. *)
Theorem C8_process_event_isolates_failures mgr event :
  ((forall name p, In name (enabled_plugins mgr) -> plugins mgr !! name = Some p ->
                   on_event p event <> Cancelled) ->
   process_event mgr event
   = (Return tt,
      filter (fun name => is_Some (plugins mgr !! name)) (enabled_plugins mgr)))
  /\ ((exists name p, In name (enabled_plugins mgr) /\ plugins mgr !! name = Some p
                      /\ on_event p event = Cancelled) ->
      exists before name p,
        process_event mgr event = (Raise CancelledError, before ++ [name])
        /\ plugins mgr !! name = Some p /\ on_event p event = Cancelled
        /\ forall n q, In n before -> plugins mgr !! n = Some q ->
                        on_event q event <> Cancelled).
Proof.
  split.
  - apply process_names_no_cancel.
  - apply process_names_cancel.
Qed.

(** The second of three plugins raises; all three hooks are called
    and the call returns. *)
Lemma C8_witness :
  process_event Samples.manager3 (Samples.plain_event "x")
  = (Return tt, ["a"; "b"; "c"]).
Proof.
  etransitivity.
  - apply (proj1 (C8_process_event_isolates_failures
                    Samples.manager3 (Samples.plain_event "x"))).
    intros name p [<- | [<- | [<- | []]]] Hp;
      vm_compute in Hp; injection Hp as <-; discriminate.
  - vm_compute. reflexivity.
Defined.

(** [load_plugin] for a name that is not loaded yet. *)
Lemma load_plugin_fresh dir name mgr :
  plugins mgr !! name = None ->
  load_plugin dir name mgr
  = match load_attempt dir name mgr with
    | (Raise e, mgr') =>
        if is_Exception e then (Raise PluginLoadError, mgr') else (Raise e, mgr')
    | r => r
    end.
Proof. intros H. unfold load_plugin. rewrite H. reflexivity. Qed.

Lemma no_plugin_class items :
  Forall (fun i => forall inst, i <> PluginClass inst) items ->
  find_plugin_class items = Raise PluginLoadError.
Proof.
  induction 1 as [|i rest Hi _ IH]; simpl; [reflexivity |].
  destruct i as [| | |inst]; try exact IH.
  exfalso. apply (Hi inst). reflexivity.
Qed.

(** C6, as the code has it: for a name that is not loaded, [load]
    raises the plugin-load error when the file is missing, when the
    file has no qualifying class and when the version check fails; when
    the load hook returns false it returns false without raising.  In
    all four cases the manager is left as it was, so the plugin is not
    registered. *)
Theorem C6_load_failures dir name mgr
  (Hfresh : plugins mgr !! name = None) :
  (dir name = None ->
   load_plugin dir name mgr = (Raise PluginLoadError, mgr))
  /\ (forall items,
        dir name = Some (Module items) ->
        Forall (fun i => forall inst, i <> PluginClass inst) items ->
        load_plugin dir name mgr = (Raise PluginLoadError, mgr))
  /\ (forall p required,
        _load_plugin_module dir name = Return p ->
        truth p = true ->
        min_engine_version p = Some required ->
        _check_version_compatibility required (engine_version mgr) = false ->
        load_plugin dir name mgr = (Raise PluginLoadError, mgr))
  /\ (forall p,
        _load_plugin_module dir name = Return p ->
        truth p = true ->
        (forall required, min_engine_version p = Some required ->
           _check_version_compatibility required (engine_version mgr) = true) ->
        context_set mgr = true ->
        on_load p = Returns false ->
        load_plugin dir name mgr = (Return false, mgr))
  /\ plugins mgr !! name = None.
Proof.
  repeat split; try exact Hfresh.
  - intros Hd. rewrite load_plugin_fresh by exact Hfresh.
    unfold load_attempt, _load_plugin_module. rewrite Hd. reflexivity.
  - intros items Hd Hnone. rewrite load_plugin_fresh by exact Hfresh.
    unfold load_attempt, _load_plugin_module. rewrite Hd.
    rewrite no_plugin_class by exact Hnone. reflexivity.
  - intros p required Hp Ht Hv Hc. rewrite load_plugin_fresh by exact Hfresh.
    unfold load_attempt. rewrite Hp, Ht, Hv, Hc. reflexivity.
  - intros p Hp Ht Hv Hctx Hl. rewrite load_plugin_fresh by exact Hfresh.
    unfold load_attempt. rewrite Hp, Ht. cbn [negb].
    destruct (min_engine_version p) as [required|].
    + rewrite (Hv required eq_refl). cbn [negb]. rewrite Hctx, Hl. reflexivity.
    + cbn [negb]. rewrite Hctx, Hl. reflexivity.
Qed.

(** A missing file, and a plugin that asks for engine 2.0 of an
    engine 1.0. *)
Lemma C6_witness :
  load_plugin (Samples.one_plugin Samples.declining) "absent" Samples.manager0
  = (Raise PluginLoadError, Samples.manager0)
  /\ load_plugin (Samples.one_plugin
                    (Samples.plugin "2.0" (Returns true) (Returns tt)))
                 "demo" Samples.manager0
     = (Raise PluginLoadError, Samples.manager0)
  /\ load_plugin (Samples.one_plugin Samples.declining) "demo" Samples.manager0
     = (Return false, Samples.manager0).
Proof.
  split; [| split].
  - apply (C6_load_failures (Samples.one_plugin Samples.declining)
                            "absent" Samples.manager0); reflexivity.
  - eapply (C6_load_failures
              (Samples.one_plugin (Samples.plugin "2.0" (Returns true) (Returns tt)))
              "demo" Samples.manager0); reflexivity.
  - eapply (C6_load_failures (Samples.one_plugin Samples.declining)
                             "demo" Samples.manager0);
      try reflexivity.
    intros required [= <-]. reflexivity.
Defined.

(** C6 as stated fails: with a context in place and a load hook that
    returns false, [load] returns false; it does not raise. *)
Lemma C6_hook_false_does_not_raise :
  on_load Samples.declining = Returns false
  /\ fst (load_plugin (Samples.one_plugin Samples.declining) "demo" Samples.manager0)
     = Return false
  /\ fst (load_plugin (Samples.one_plugin Samples.declining) "demo" Samples.manager0)
     <> Raise PluginLoadError.
Proof.
  split; [reflexivity |]. split; [reflexivity |]. discriminate.
Qed.

End PluginsProps.

(** ** The engine *)

Module EngineProps.
Import Event Errors Engine.

Lemma notify_reached beh cbs a ev log :
  snd (notify beh cbs a ev log)
  = log ++ map (fun cb => (cb, a)) (reached beh cbs ev).
Proof.
  revert log. induction cbs as [|cb rest IH]; intros log; simpl.
  - rewrite app_nil_r. reflexivity.
  - destruct (beh cb ev); simpl.
    + rewrite IH, <- app_assoc. reflexivity.
    + rewrite IH, <- app_assoc. reflexivity.
    + reflexivity.
Qed.

Lemma notify_quiet beh cbs a ev log :
  (forall cb x, beh cb x <> CbCancelled) ->
  fst (notify beh cbs a ev log) = Return tt /\ reached beh cbs ev = cbs.
Proof.
  intros Hq. revert log. induction cbs as [|cb rest IH]; intros log; simpl.
  - split; reflexivity.
  - pose proof (Hq cb ev) as Hcb.
    destruct (beh cb ev); try congruence;
      destruct (IH (log ++ [(cb, a)])) as [-> ->]; split; reflexivity.
Qed.

Lemma deque_append_length maxlen q x :
  (length q <= maxlen)%nat -> (length (deque_append maxlen q x) <= maxlen)%nat.
Proof.
  intros H. unfold deque_append.
  destruct (Nat.ltb_spec maxlen (length (q ++ [x]))) as [Hlt | Hge].
  - rewrite length_drop, length_app. simpl. lia.
  - exact Hge.
Qed.

Lemma deque_extend_length maxlen xs q :
  (length q <= maxlen)%nat -> (length (deque_extend maxlen q xs) <= maxlen)%nat.
Proof.
  revert q. induction xs as [|x xs IH]; intros q H; simpl.
  - exact H.
  - apply IH. apply deque_append_length. exact H.
Qed.

(** A bounded deque keeps the newest [maxlen] of what it has seen. *)
Lemma deque_extend_newest maxlen xs q :
  (length q <= maxlen)%nat ->
  deque_extend maxlen q xs = drop (length (q ++ xs) - maxlen) (q ++ xs).
Proof.
  revert q. induction xs as [|x xs IH]; intros q H.
  - simpl. rewrite app_nil_r.
    replace (length q - maxlen)%nat with 0%nat by lia. reflexivity.
  - change (deque_extend maxlen q (x :: xs))
      with (deque_extend maxlen (deque_append maxlen q x) xs).
    rewrite IH by (apply deque_append_length; exact H).
    unfold deque_append.
    replace (q ++ x :: xs) with ((q ++ [x]) ++ xs) by (rewrite <- app_assoc; reflexivity).
    destruct (Nat.ltb_spec maxlen (length (q ++ [x]))) as [Hlt | Hge].
    + rewrite length_app in Hlt. simpl in Hlt.
      assert (Hq : length q = maxlen) by lia.
      rewrite <- (drop_app_le (q ++ [x]) xs 1)
        by (rewrite length_app; simpl; lia).
      rewrite drop_drop. f_equal.
      rewrite length_drop, !length_app. simpl. lia.
    + reflexivity.
Qed.

(** One turn of the loop on an event that is not a continuation. *)
Lemma consume_plain beh ev e :
  running e = true -> paused e = false ->
  (forall cb x, beh cb x <> CbCancelled) ->
  is_cont ev = false ->
  exists e',
    consume beh ev e = (Handled, e')
    /\ buffer e' = deque_append (buffer_size e) (buffer e) (next_addr e)
    /\ objects e' = <[next_addr e := ev]> (objects e)
    /\ next_addr e' = S (next_addr e)
    /\ buffer_size e' = buffer_size e
    /\ running e' = true /\ paused e' = false
    /\ event_callbacks e' = event_callbacks e.
Proof.
  intros Hr Hp Hq Hc. unfold consume. rewrite Hr, Hp. cbn [negb alloc].
  unfold handle_event. cbn [objects set_objects].
  rewrite lookup_insert_eq, Hc.
  unfold notify_at. cbn [objects set_buffer set_objects].
  rewrite lookup_insert_eq.
  cbn [event_callbacks delivered set_buffer set_objects buffer buffer_size].
  destruct (notify beh (event_callbacks e) (next_addr e) ev (delivered e))
    as [r log] eqn:En.
  pose proof (notify_quiet beh (event_callbacks e) (next_addr e) ev (delivered e) Hq)
    as [Hfst _].
  rewrite En in Hfst. cbn in Hfst. subst r.
  eexists. split; [reflexivity |]. cbn. repeat split; assumption.
Qed.

(** The loop over events none of which is a continuation: each gets the
    next address and is appended. *)
Lemma run_stream_plain beh evs e :
  running e = true -> paused e = false ->
  (forall cb x, beh cb x <> CbCancelled) ->
  Forall (fun ev => is_cont ev = false) evs ->
  let e' := run_stream beh evs e in
  buffer e' = deque_extend (buffer_size e) (buffer e) (seq (next_addr e) (length evs))
  /\ next_addr e' = (next_addr e + length evs)%nat
  /\ buffer_size e' = buffer_size e
  /\ (forall i ev, evs !! i = Some ev ->
                   objects e' !! (next_addr e + i)%nat = Some ev).
Proof.
  intros Hr Hp Hq Hall. revert e Hr Hp.
  induction Hall as [|ev rest Hev Hrest IH]; intros e Hr Hp; cbn zeta.
  - simpl. repeat split; try lia. intros i ev H. discriminate.
  - destruct (consume_plain beh ev e Hr Hp Hq Hev)
      as (e1 & Hc & Hb & Ho & Hn & Hs & Hr1 & Hp1 & _).
    cbn [run_stream]. rewrite Hc.
    destruct (IH e1 Hr1 Hp1) as (IHb & IHn & IHs & IHo).
    rewrite IHb, IHn, IHs, Hb, Hn, Hs. cbn [length seq deque_extend fold_left].
    repeat split; try lia.
    intros [|i] x Hx.
    + cbn in Hx. injection Hx as <-.
      replace (next_addr e + 0)%nat with (next_addr e) by lia.
      clear IHb IHn IHs IH Hc.
      (* the object at the first address is never overwritten *)
      assert (Hkeep : forall evs' e2,
                 running e2 = true -> paused e2 = false ->
                 Forall (fun ev => is_cont ev = false) evs' ->
                 forall a v, (a < next_addr e2)%nat -> objects e2 !! a = Some v ->
                             objects (run_stream beh evs' e2) !! a = Some v).
      { induction evs' as [|ev' evs' IH']; intros e2 Hr2 Hp2 Hall2 a v Ha Hv.
        - exact Hv.
        - inversion Hall2 as [|? ? Hev' Hrest']; subst.
          destruct (consume_plain beh ev' e2 Hr2 Hp2 Hq Hev')
            as (e3 & Hc3 & _ & Ho3 & Hn3 & _ & Hr3 & Hp3 & _).
          cbn [run_stream]. rewrite Hc3.
          apply IH'; try assumption; [lia |].
          rewrite Ho3, lookup_insert_ne by lia. exact Hv. }
      apply Hkeep; try assumption; [lia |].
      rewrite Ho. apply lookup_insert_eq.
    + cbn in Hx. specialize (IHo i x Hx).
      rewrite Hn in IHo.
      replace (next_addr e + S i)%nat with (S (next_addr e) + i)%nat by lia.
      exact IHo.
Qed.

Lemma notify_at_frame beh a e :
  let e' := snd (notify_at beh a e) in
  buffer e' = buffer e /\ buffer_size e' = buffer_size e
  /\ objects e' = objects e /\ next_addr e' = next_addr e.
Proof.
  unfold notify_at. destruct (objects e !! a) as [ev|]; cbn zeta.
  - destruct (notify _ _ _ _ _) as [r log]. cbn. repeat split.
  - cbn. repeat split.
Qed.

Lemma handle_event_buffer beh a e :
  let e' := snd (handle_event beh a e) in
  buffer_size e' = buffer_size e
  /\ (buffer e' = buffer e
      \/ buffer e' = deque_append (buffer_size e) (buffer e) a).
Proof.
  unfold handle_event. destruct (objects e !! a) as [event|]; cbn zeta.
  2:{ cbn. split; [reflexivity | left; reflexivity]. }
  destruct (is_cont event); [destruct (last (buffer e)) as [l|];
                             [destruct (objects e !! l) as [last_ev|] |] |].
  - destruct (notify_at_frame beh l
                (set_objects (<[l:=merge last_ev event]> (objects e)) (next_addr e) e))
      as (Hb & Hs & _). cbn zeta in Hb, Hs. rewrite Hb, Hs. cbn.
    split; [reflexivity | left; reflexivity].
  - cbn. split; [reflexivity | left; reflexivity].
  - destruct (notify_at_frame beh a
                (set_buffer (deque_append (buffer_size e) (buffer e) a) e))
      as (Hb & Hs & _). cbn zeta in Hb, Hs. rewrite Hb, Hs. cbn.
    split; [reflexivity | right; reflexivity].
  - destruct (notify_at_frame beh a
                (set_buffer (deque_append (buffer_size e) (buffer e) a) e))
      as (Hb & Hs & _). cbn zeta in Hb, Hs. rewrite Hb, Hs. cbn.
    split; [reflexivity | right; reflexivity].
Qed.

Lemma consume_bounded beh ev e :
  (length (buffer e) <= buffer_size e)%nat ->
  let e' := snd (consume beh ev e) in
  buffer_size e' = buffer_size e /\ (length (buffer e') <= buffer_size e')%nat.
Proof.
  intros H. unfold consume.
  destruct (running e); cbn [negb]; [| cbn; split; [reflexivity | exact H]].
  destruct (paused e); [cbn; split; [reflexivity | exact H] |].
  cbn [alloc].
  set (e1 := set_objects _ _ e).
  destruct (handle_event_buffer beh (next_addr e) e1) as (Hs & Hb).
  cbn zeta in Hs, Hb.
  destruct (handle_event beh (next_addr e) e1) as [[u|x] e2]; cbn in Hs, Hb |- *;
    (split; [exact Hs |]); rewrite Hs;
    (destruct Hb as [-> | ->]; [exact H | apply deque_append_length; exact H]).
Qed.

(** Every operation keeps the buffer within its capacity. *)
Lemma apply_bounded beh o e :
  (length (buffer e) <= buffer_size e)%nat ->
  buffer_size (apply beh o e) = buffer_size e
  /\ (length (buffer (apply beh o e)) <= buffer_size (apply beh o e))%nat.
Proof.
  intros H. destruct o; cbn [apply].
  - cbn. split; [reflexivity | exact H].
  - unfold load_snapshot. destruct (has_source e); cbn [negb].
    + assert (Ha : forall evs e0,
                 buffer (snd (alloc_all evs e0)) = buffer e0
                 /\ buffer_size (snd (alloc_all evs e0)) = buffer_size e0).
      { induction evs as [|x evs IHe]; intros e0; [split; reflexivity |].
        cbn [alloc_all alloc].
        destruct (alloc_all evs _) as [als e2] eqn:E.
        specialize (IHe (set_objects (<[next_addr e0:=x]> (objects e0))
                                     (S (next_addr e0)) e0)).
        rewrite E in IHe. cbn in IHe |- *. exact IHe. }
      specialize (Ha events e). destruct (alloc_all events e) as [als e1].
      cbn in Ha |- *. destruct Ha as [Hb Hs]. rewrite Hs, Hb.
      split; [reflexivity |]. apply deque_extend_length. exact H.
    + cbn. split; [reflexivity | exact H].
  - unfold start_streaming. destruct (running e); [cbn; split; [reflexivity | exact H] |].
    destruct (has_source e); cbn; (split; [reflexivity | exact H]).
  - cbn. split; [reflexivity | exact H].
  - apply consume_bounded. exact H.
  - cbn. split; [reflexivity | exact H].
  - cbn. split; [reflexivity | exact H].
  - cbn. split; [reflexivity | exact H].
  - cbn. split; [reflexivity | exact H].
  - cbn. split; [reflexivity | lia].
  - cbn. split; [reflexivity | lia].
Qed.

Lemma apply_all_bounded beh ops e :
  (length (buffer e) <= buffer_size e)%nat ->
  buffer_size (apply_all beh ops e) = buffer_size e
  /\ (length (buffer (apply_all beh ops e)) <= buffer_size e)%nat.
Proof.
  revert e. induction ops as [|o ops IH]; intros e H.
  - split; [reflexivity | exact H].
  - cbn [apply_all fold_left].
    destruct (apply_bounded beh o e H) as [Hs Hb].
    destruct (IH (apply beh o e) Hb) as [IHs IHb].
    unfold apply_all in IHs, IHb. rewrite IHs, Hs. rewrite Hs in IHb.
    split; [reflexivity | exact IHb].
Qed.

(** C4: for every capacity N >= 1, N+1 events that are not
    continuations, appended by the loop to a buffer of capacity N, leave
    exactly N entries, the N newest: the first one appended (at the
    address the engine hands out first) is gone.  And no sequence of
    operations makes the buffer longer than its capacity, from this
    state or from a freshly built engine. *)
Theorem C4_buffer_is_bounded beh N e evs
  (HN : (1 <= N)%nat)
  (Hcap : buffer_size e = N)
  (Hlen : (length (buffer e) <= N)%nat)
  (Hrun : running e = true)
  (Hnp : paused e = false)
  (Hquiet : forall cb x, beh cb x <> CbCancelled)
  (Hplain : Forall (fun ev => is_cont ev = false) evs)
  (Hcount : length evs = S N) :
  let e' := run_stream beh evs e in
  length (buffer e') = N
  /\ buffer e' = seq (S (next_addr e)) N
  /\ ~ In (next_addr e) (buffer e')
  /\ (forall i ev, evs !! S i = Some ev ->
                   objects e' !! (S (next_addr e) + i)%nat = Some ev)
  /\ (forall ops, (length (buffer (apply_all beh ops e)) <= N)%nat)
  /\ (forall e0 ops, init (Z.of_nat N) = Return e0 ->
                     (length (buffer (apply_all beh ops e0)) <= N)%nat).
Proof.
  cbn zeta.
  destruct (run_stream_plain beh evs e Hrun Hnp Hquiet Hplain) as (Hb & _ & _ & Ho).
  cbn zeta in Hb, Ho.
  assert (Hbuf : buffer (run_stream beh evs e) = seq (S (next_addr e)) N).
  { rewrite Hb, Hcap, Hcount.
    rewrite deque_extend_newest by exact Hlen.
    rewrite length_app, length_seq.
    rewrite drop_app_ge by lia.
    replace (length (buffer e) + S N - N - length (buffer e))%nat with 1%nat by lia.
    reflexivity. }
  split; [rewrite Hbuf; apply length_seq |].
  split; [exact Hbuf |].
  split; [rewrite Hbuf; rewrite in_seq; lia |].
  split.
  { intros i ev Hi. specialize (Ho (S i) ev Hi).
    replace (S (next_addr e) + i)%nat with (next_addr e + S i)%nat by lia. exact Ho. }
  split.
  - intros ops. rewrite <- Hcap. apply apply_all_bounded. lia.
  - intros e0 ops Hinit. unfold init in Hinit.
    destruct (Z.of_nat N <? 0)%Z; [discriminate |].
    injection Hinit as <-.
    pose proof (apply_all_bounded beh ops
                  {| buffer_size := Z.to_nat (Z.of_nat N); buffer := [];
                     objects := ∅; next_addr := 0; has_source := false;
                     running := false; paused := false;
                     event_callbacks := []; delivered := [] |}) as Hall.
    cbn [buffer buffer_size length] in Hall.
    rewrite Nat2Z.id in Hall |- *. apply Hall. lia.
Qed.

(** Capacity 2 and three events: the second and the third remain. *)
Lemma C4_witness :
  buffer (run_stream Samples.quiet
            [Samples.plain_event "a"; Samples.plain_event "b"; Samples.plain_event "c"]
            (Samples.engine_running 2))
  = [1; 2]%nat.
Proof.
  apply (C4_buffer_is_bounded Samples.quiet 2 (Samples.engine_running 2)
           [Samples.plain_event "a"; Samples.plain_event "b"; Samples.plain_event "c"]).
  - lia.
  - reflexivity.
  - simpl; lia.
  - reflexivity.
  - reflexivity.
  - intros cb x; discriminate.
  - repeat constructor.
  - reflexivity.
Defined.

(** C3: when the running, unpaused loop takes in an event whose
    continuation annotation is truthy while the buffer is not empty, the
    buffer keeps its entries (no new slot), its last entry becomes the
    merge of it and the new event: message and raw joined by a newline,
    annotations the union of both (the new event's value where both have
    the key); and every subscriber call made for this event passes that
    merged last entry, never the continuation event itself. *)
Theorem C3_continuation_is_merged beh e ev l last_ev
  (Hrun : running e = true)
  (Hnp : paused e = false)
  (Hcont : is_cont ev = true)
  (Hlast : last (buffer e) = Some l)
  (Hobj : objects e !! l = Some last_ev)
  (Hold : (l < next_addr e)%nat) :
  let e' := snd (consume beh ev e) in
  exists merged,
    buffer e' = buffer e
    /\ length (buffer e') = length (buffer e)
    /\ last (buffer e') = Some l
    /\ objects e' !! l = Some merged
    /\ message merged = message last_ev +:+ String PyStr.newline "" +:+ message ev
    /\ raw merged = raw last_ev +:+ String PyStr.newline "" +:+ raw ev
    /\ (forall k, annotations merged !! k
                  = match annotations ev !! k with
                    | Some v => Some v
                    | None => annotations last_ev !! k
                    end)
    /\ event_id merged = event_id last_ev
    /\ delivered e'
       = delivered e ++ map (fun cb => (cb, l)) (reached beh (event_callbacks e) merged)
    /\ l <> next_addr e
    /\ ((forall cb x, beh cb x <> CbCancelled) ->
        fst (consume beh ev e) = Handled
        /\ delivered e' = delivered e ++ map (fun cb => (cb, l)) (event_callbacks e)).
Proof.
  cbn zeta. exists (merge last_ev ev).
  assert (Hne : next_addr e <> l) by lia.
  unfold consume. rewrite Hrun, Hnp. cbn [negb alloc].
  unfold handle_event. cbn [objects buffer set_objects next_addr].
  rewrite lookup_insert_eq, Hcont, Hlast.
  rewrite lookup_insert_ne by exact Hne. rewrite Hobj.
  unfold notify_at. cbn [objects set_objects].
  rewrite lookup_insert_eq.
  cbn [event_callbacks delivered set_objects].
  pose proof (notify_reached beh (event_callbacks e) l (merge last_ev ev) (delivered e))
    as Hlog.
  destruct (notify beh (event_callbacks e) l (merge last_ev ev) (delivered e))
    as [r log] eqn:En.
  cbn [snd] in Hlog. subst log.
  assert (Hfields :
    forall t : turn,
      let e2 := set_delivered
                  (delivered e ++ map (fun cb => (cb, l))
                     (reached beh (event_callbacks e) (merge last_ev ev)))
                  (set_objects (<[l:=merge last_ev ev]>
                                  (<[next_addr e:=ev]> (objects e)))
                               (S (next_addr e)) e) in
      buffer e2 = buffer e /\ objects e2 !! l = Some (merge last_ev ev)
      /\ delivered e2 = delivered e ++ map (fun cb => (cb, l))
                           (reached beh (event_callbacks e) (merge last_ev ev))).
  { intros _. cbn. rewrite lookup_insert_eq. repeat split. }
  destruct (Hfields Handled) as (Hb & Ho & Hd). cbn zeta in Hb, Ho, Hd.
  assert (Hann : forall k, annotations (merge last_ev ev) !! k
                           = match annotations ev !! k with
                             | Some v => Some v
                             | None => annotations last_ev !! k
                             end).
  { intros k. cbn [merge annotations]. rewrite lookup_union.
    destruct (annotations ev !! k), (annotations last_ev !! k); reflexivity. }
  assert (Hrest :
    (forall cb x, beh cb x <> CbCancelled) ->
    r = Return tt /\ reached beh (event_callbacks e) (merge last_ev ev) = event_callbacks e).
  { intros Hq.
    destruct (notify_quiet beh (event_callbacks e) l (merge last_ev ev) (delivered e) Hq)
      as [Hf Hr]. rewrite En in Hf. cbn in Hf. split; assumption. }
  destruct r as [u|x]; cbn [fst snd];
    (split; [exact Hb |]);
    (split; [exact (f_equal length Hb) |]);
    (split; [exact (eq_trans (f_equal last Hb) Hlast) |]);
    (split; [exact Ho |]);
    (split; [reflexivity |]);
    (split; [reflexivity |]);
    (split; [exact Hann |]);
    (split; [reflexivity |]);
    (split; [exact Hd |]);
    (split; [lia |]);
    intros Hq; destruct (Hrest Hq) as [Hr1 Hr2]; try discriminate;
    (split; [reflexivity | cbn [delivered set_delivered]; rewrite Hr2; reflexivity]).
Qed.

(** The event [tail], flagged as a continuation, arrives after [head]:
    one entry, whose message is both lines, and both subscribers are
    called with it. *)
Lemma C3_witness :
  exists merged,
    buffer (snd (consume Samples.quiet (Samples.cont_event "tail") Samples.engine_one))
    = [0]%nat
    /\ objects (snd (consume Samples.quiet (Samples.cont_event "tail") Samples.engine_one))
         !! 0%nat = Some merged
    /\ message merged = "head" +:+ Samples.nl +:+ "tail"
    /\ delivered (snd (consume Samples.quiet (Samples.cont_event "tail") Samples.engine_one))
       = [(7, 0); (9, 0); (7, 0); (9, 0)]%nat.
Proof.
  destruct (C3_continuation_is_merged Samples.quiet Samples.engine_one
              (Samples.cont_event "tail") 0%nat (Samples.plain_event "head"))
    as (merged & Hb & _ & _ & Ho & Hm & _ & _ & _ & _ & _ & Hq).
  - reflexivity.
  - reflexivity.
  - vm_compute; reflexivity.
  - reflexivity.
  - vm_compute; reflexivity.
  - simpl; lia.
  - exists merged. split; [exact Hb |]. split; [exact Ho |]. split; [exact Hm |].
    apply Hq. intros cb x; discriminate.
Defined.

End EngineProps.

(** ** Strings *)

Module StrFacts.
Import PyStr.

Lemma append_cons c s r : String c s +:+ r = String c (s +:+ r).
Proof. reflexivity. Qed.

Lemma append_nil_l r : "" +:+ r = r.
Proof. reflexivity. Qed.

Ltac app_simpl := rewrite ?append_cons, ?append_nil_l; simpl.

Lemma append_nil_r s : s +:+ "" = s.
Proof. induction s as [|c s IH]; app_simpl; [reflexivity | f_equal; exact IH]. Qed.

Lemma append_assoc a b c : (a +:+ b) +:+ c = a +:+ (b +:+ c).
Proof. induction a as [|x a IH]; app_simpl; [reflexivity | f_equal; exact IH]. Qed.

Lemma length_append a b :
  String.length (a +:+ b) = (String.length a + String.length b)%nat.
Proof. induction a as [|x a IH]; app_simpl; [reflexivity | f_equal; exact IH]. Qed.

Lemma all_chars_append p a b :
  all_chars p (a +:+ b) = all_chars p a && all_chars p b.
Proof.
  induction a as [|x a IH]; app_simpl; [reflexivity |].
  rewrite IH, andb_assoc. reflexivity.
Qed.

Lemma all_chars_impl (p q : ascii -> bool) s :
  (forall c, p c = true -> q c = true) ->
  all_chars p s = true -> all_chars q s = true.
Proof.
  intros Hpq. induction s as [|c s IH]; simpl; [reflexivity |].
  intros H. apply andb_true_iff in H as [Hc Hs].
  rewrite (Hpq c Hc), (IH Hs). reflexivity.
Qed.

Lemma has_char_append c a b :
  has_char c (a +:+ b) = has_char c a || has_char c b.
Proof.
  induction a as [|x a IH]; app_simpl; [reflexivity |].
  rewrite IH, orb_assoc. reflexivity.
Qed.

(** A string without [c] consists of characters different from [c]. *)
Lemma has_char_false c s :
  has_char c s = false <-> all_chars (fun d => negb (Ascii.eqb d c)) s = true.
Proof.
  induction s as [|x s IH]; simpl; [tauto |].
  rewrite orb_false_iff, andb_true_iff, negb_true_iff, IH. tauto.
Qed.

Lemma take_append s r : take (String.length s) (s +:+ r) = s.
Proof. induction s as [|c s IH]; app_simpl; [destruct r; reflexivity | f_equal; exact IH]. Qed.

Lemma drop_append s r : drop (String.length s) (s +:+ r) = r.
Proof. induction s as [|c s IH]; app_simpl; [reflexivity | exact IH]. Qed.

(** Stripping on the right stops at a character outside the class. *)
Lemma rstrip_by_append p a c b :
  p c = false ->
  rstrip_by p (a +:+ String c b) = a +:+ String c (rstrip_by p b).
Proof.
  intros Hc. induction a as [|x a IH]; app_simpl.
  - destruct (rstrip_by p b); [rewrite Hc |]; reflexivity.
  - rewrite IH. destruct a; reflexivity.
Qed.

Lemma rstrip_by_idem p s : rstrip_by p (rstrip_by p s) = rstrip_by p s.
Proof.
  induction s as [|c s IH]; simpl; [reflexivity |].
  destruct (rstrip_by p s) as [|d r] eqn:E.
  - destruct (p c) eqn:Ec; simpl; [reflexivity | rewrite Ec; reflexivity].
  - change (rstrip_by p (String c (String d r)))
      with (match rstrip_by p (String d r) with
            | "" => if p c then "" else String c ""
            | String y r0 => String c (String y r0)
            end).
    rewrite IH. reflexivity.
Qed.

Lemma rstrip_by_all p (q : ascii -> bool) s :
  all_chars q s = true -> all_chars q (rstrip_by p s) = true.
Proof.
  induction s as [|c s IH]; simpl; [reflexivity |].
  intros H. apply andb_true_iff in H as [Hc Hs]. specialize (IH Hs).
  destruct (rstrip_by p s) as [|d r].
  - destruct (p c); simpl; [reflexivity | rewrite Hc; reflexivity].
  - simpl in IH |- *. rewrite Hc, IH. reflexivity.
Qed.

Lemma rstrip_by_none p s :
  all_chars (fun c => negb (p c)) s = true -> rstrip_by p s = s.
Proof.
  induction s as [|c s IH]; simpl; [reflexivity |].
  intros H. apply andb_true_iff in H as [Hc Hs]. rewrite (IH Hs).
  apply negb_true_iff in Hc. rewrite Hc. destruct s; reflexivity.
Qed.

Lemma lstrip_by_none p s :
  all_chars (fun c => negb (p c)) s = true -> lstrip_by p s = s.
Proof.
  destruct s as [|c s]; simpl; [reflexivity |].
  intros H. apply andb_true_iff in H as [Hc _].
  apply negb_true_iff in Hc. rewrite Hc. reflexivity.
Qed.

(** [strip] leaves a string without whitespace as it is. *)
Lemma strip_none s : all_chars Spec.no_space s = true -> strip s = s.
Proof.
  intros H. unfold strip.
  rewrite rstrip_by_none by exact H. apply lstrip_by_none. exact H.
Qed.

(** A leading whitespace character does not survive [strip]. *)
Lemma strip_leading c s : isspace c = true -> strip (String c s) = strip s.
Proof.
  intros Hc. unfold strip. simpl.
  destruct (rstrip_by isspace s) as [|d r].
  - rewrite Hc. reflexivity.
  - simpl. rewrite Hc. reflexivity.
Qed.

Lemma strip_rstrip s : strip (rstrip_by isspace s) = strip s.
Proof. unfold strip. rewrite rstrip_by_idem. reflexivity. Qed.

(** The first occurrence of [c] in a string whose head part has none. *)
Lemma find_append c s r :
  has_char c s = false ->
  find c (s +:+ String c r) = Z.of_nat (String.length s).
Proof.
  induction s as [|x s IH]; app_simpl.
  - intros _. rewrite Ascii.eqb_refl. reflexivity.
  - intros H. apply orb_false_iff in H as [Hx Hs]. rewrite Hx, (IH Hs).
    destruct (Z.ltb_spec (Z.of_nat (String.length s)) 0); lia.
Qed.

(** A string splits into its longest run of a class and the rest, which
    does not start with a character of the class. *)
Lemma run_split p s : s = Spec.run p s +:+ lstrip_by p s.
Proof.
  induction s as [|c s IH]; simpl; [reflexivity |].
  destruct (p c); app_simpl; [rewrite <- IH |]; reflexivity.
Qed.

Lemma run_all p s : all_chars p (Spec.run p s) = true.
Proof.
  induction s as [|c s IH]; simpl; [reflexivity |].
  destruct (p c) eqn:E; simpl; [rewrite E, IH |]; reflexivity.
Qed.

Lemma lstrip_by_head p s c r : lstrip_by p s = String c r -> p c = false.
Proof.
  induction s as [|x s IH]; simpl; [discriminate |].
  destruct (p x) eqn:E; [exact IH |].
  intros [= <- _]. exact E.
Qed.

End StrFacts.

(** ** The matcher on runs of a character class *)

Module ReFacts.
Import PyStr Re StrFacts.

Lemma consumed_append run rest : consumed (run +:+ rest) rest = run.
Proof.
  unfold consumed. rewrite length_append.
  replace (String.length run + String.length rest - String.length rest)%nat
    with (String.length run) by lia.
  apply take_append.
Qed.

Lemma consumed_nil s : consumed s "" = s.
Proof.
  pose proof (consumed_append s "") as H.
  rewrite append_nil_r in H. exact H.
Qed.

Lemma run_empty_head p a r : Spec.run p (String a r) = "" -> p a = false.
Proof. simpl. destruct (p a); [discriminate | reflexivity]. Qed.

Lemma rep_loop_S step lo hi k fuel n s c :
  rep_loop step lo hi k (S fuel) n s c
  = let stop := if Nat.leb lo n then k s c else None in
    if below n hi then
      match step s c
              (fun s' c' =>
                 if Nat.ltb (String.length s') (String.length s)
                 then rep_loop step lo hi k fuel (S n) s' c' else None)
      with
      | Some res => Some res
      | None => stop
      end
    else stop.
Proof. reflexivity. Qed.

Lemma rep_loop_O step lo hi k n s c :
  rep_loop step lo hi k O n s c = if Nat.leb lo n then k s c else None.
Proof. reflexivity. Qed.

Lemma m_chr_cons p a s c k :
  m (Chr p) (String a s) c k = if p a then k s c else None.
Proof. reflexivity. Qed.

Lemma m_chr_nil p c k : m (Chr p) "" c k = None.
Proof. reflexivity. Qed.

Lemma m_seq r1 r2 s c k :
  m (Seq r1 r2) s c k = m r1 s c (fun s' c' => m r2 s' c' k).
Proof. reflexivity. Qed.

Lemma m_grp n r s c k :
  m (Grp n r) s c k = m r s c (fun s' c' => k s' ((n, consumed s s') :: c')).
Proof. reflexivity. Qed.

Lemma m_rep r lo hi s c k :
  m (Rep r lo hi) s c k = rep_loop (m r) lo hi k (S (String.length s)) O s c.
Proof. reflexivity. Qed.

(** A greedy repetition of a class takes the whole run when what
    follows the run can be matched. *)
Lemma rep_chr_success p lo k run rest c res :
  all_chars p run = true ->
  Spec.run p rest = "" ->
  k rest c = Some res ->
  forall fuel n,
    (lo <= n + String.length run)%nat ->
    (String.length (run +:+ rest) < fuel)%nat ->
    rep_loop (m (Chr p)) lo None k fuel n (run +:+ rest) c = Some res.
Proof.
  intros Hall Hrest Hk. induction run as [|a run IH]; intros fuel n Hlo Hfuel.
  - rewrite append_nil_l in *. simpl in Hlo.
    assert (Hstop : (if Nat.leb lo n then k rest c else None) = Some res).
    { destruct (Nat.leb_spec lo n); [exact Hk | lia]. }
    destruct fuel as [|fuel]; [lia |]. rewrite rep_loop_S. cbn [below].
    destruct rest as [|b rest].
    + rewrite m_chr_nil. exact Hstop.
    + rewrite m_chr_cons, (run_empty_head _ _ _ Hrest). exact Hstop.
  - rewrite append_cons in *. simpl in Hall, Hlo, Hfuel.
    apply andb_true_iff in Hall as [Ha Hall].
    destruct fuel as [|fuel]; [lia |]. rewrite rep_loop_S. cbn [below].
    rewrite m_chr_cons, Ha.
    assert (Hlt : Nat.ltb (String.length (run +:+ rest))
                          (String.length (String a (run +:+ rest))) = true).
    { apply Nat.ltb_lt. simpl. lia. }
    rewrite Hlt. rewrite (IH Hall fuel (S n)) by lia. reflexivity.
Qed.

(** It fails when what follows can be matched neither after the run nor
    inside it. *)
Lemma rep_chr_failure p lo k run rest c :
  all_chars p run = true ->
  Spec.run p rest = "" ->
  (forall s', Spec.run p s' <> "" -> k s' c = None) ->
  forall fuel n,
    (String.length run + n < lo)%nat \/ k rest c = None ->
    rep_loop (m (Chr p)) lo None k fuel n (run +:+ rest) c = None.
Proof.
  intros Hall Hrest Hin. induction run as [|a run IH]; intros fuel n Hend.
  - rewrite append_nil_l.
    assert (Hstop : (if Nat.leb lo n then k rest c else None) = None).
    { destruct (Nat.leb_spec lo n); [| reflexivity].
      destruct Hend as [Hlt | Hk]; [simpl in Hlt; lia | exact Hk]. }
    destruct fuel as [|fuel]; [rewrite rep_loop_O; exact Hstop |].
    rewrite rep_loop_S. cbn [below].
    destruct rest as [|b rest].
    + rewrite m_chr_nil. exact Hstop.
    + rewrite m_chr_cons, (run_empty_head _ _ _ Hrest). exact Hstop.
  - rewrite append_cons. simpl in Hall.
    apply andb_true_iff in Hall as [Ha Hall].
    assert (Hstop : (if Nat.leb lo n then k (String a (run +:+ rest)) c else None) = None).
    { rewrite Hin; [destruct (Nat.leb lo n); reflexivity |].
      simpl. rewrite Ha. discriminate. }
    destruct fuel as [|fuel]; [rewrite rep_loop_O; exact Hstop |].
    rewrite rep_loop_S. cbn [below]. rewrite m_chr_cons, Ha.
    assert (Hlt : Nat.ltb (String.length (run +:+ rest))
                          (String.length (String a (run +:+ rest))) = true).
    { apply Nat.ltb_lt. simpl. lia. }
    rewrite Hlt.
    rewrite (IH Hall fuel (S n)); [exact Hstop |].
    destruct Hend as [Hlt' | Hk]; [left; simpl in Hlt'; lia | right; exact Hk].
Qed.

Lemma m_eol_nil c k : m Eol "" c k = k "" c.
Proof. reflexivity. Qed.

Lemma digit_or_dot_not_space a :
  is_digit_or_dot a = true -> space a = false.
Proof.
  unfold is_digit_or_dot, space, isspace, isdecimal, ord.
  destruct a as [[] [] [] [] [] [] [] []]; vm_compute; intros H; congruence.
Qed.

(** The timestamped pattern on [[t] R]: a timestamp of digits and dots,
    one blank, and a remainder without newline that does not start with
    whitespace. *)
Lemma dmesg_match t R :
  t <> "" ->
  all_chars is_digit_or_dot t = true ->
  Spec.run space R = "" ->
  all_chars dot R = true ->
  re_match Parser.DMESG_PATTERN (String "[" (t +:+ String "]" (String " " R)))
  = Some [(2, R); (1, t)]%nat.
Proof.
  intros Ht Hall HR Hdot.
  unfold re_match, Parser.DMESG_PATTERN. cbn [seqs].
  rewrite m_seq. unfold chr at 1. rewrite m_chr_cons. cbn [Ascii.eqb Bool.eqb].
  (* \s* takes nothing *)
  rewrite m_seq. unfold star at 1. rewrite m_rep.
  apply (rep_chr_success space 0 _ "" (t +:+ String "]" (String " " R))).
  { reflexivity. }
  { destruct t as [|a t']; [congruence |]. rewrite append_cons. simpl.
    simpl in Hall. apply andb_true_iff in Hall as [Ha _].
    rewrite (digit_or_dot_not_space a Ha). reflexivity. }
  2:{ simpl. lia. }
  2:{ rewrite append_nil_l. lia. }
  (* the timestamp *)
  rewrite m_seq, m_grp. unfold plus at 1. rewrite m_rep.
  apply (rep_chr_success _ 1 _ t (String "]" (String " " R))).
  { exact Hall. }
  { reflexivity. }
  2:{ destruct t; [congruence | simpl; lia]. }
  2:{ lia. }
  rewrite consumed_append.
  rewrite m_seq. unfold chr at 1. rewrite m_chr_cons. cbn [Ascii.eqb Bool.eqb].
  (* \s+ takes the blank *)
  rewrite m_seq. unfold plus at 1. rewrite m_rep.
  apply (rep_chr_success space 1 _ " " R).
  { reflexivity. }
  { exact HR. }
  2:{ simpl. lia. }
  2:{ rewrite append_cons, append_nil_l. lia. }
  (* the remainder *)
  rewrite m_seq, m_grp. unfold star at 1. rewrite m_rep.
  replace R with (R +:+ "") at 1 2 by apply append_nil_r.
  apply (rep_chr_success dot 0 _ R "").
  { exact Hdot. }
  { reflexivity. }
  2:{ lia. }
  2:{ lia. }
  rewrite m_eol_nil. unfold finish. rewrite consumed_nil. reflexivity.
Qed.

(** Without a leading [<digit>] the inline priority pattern does not
    match. *)
Lemma priority_no_match sub tail :
  Spec.priority_prefixed sub = false ->
  re_match Parser.PRIORITY_PATTERN (sub +:+ String ":" tail) = None.
Proof.
  intros Hp. unfold re_match, Parser.PRIORITY_PATTERN. cbn [seqs].
  rewrite m_seq. unfold chr at 1.
  destruct sub as [|a sub]; [reflexivity |].
  rewrite append_cons, m_chr_cons.
  destruct (Ascii.eqb "<" a) eqn:Ea; [| reflexivity].
  apply Ascii.eqb_eq in Ea. subst a.
  rewrite m_seq, m_grp.
  destruct sub as [|b sub]; [reflexivity |].
  rewrite append_cons, m_chr_cons.
  destruct (digit b) eqn:Eb; [| reflexivity].
  rewrite m_seq. unfold chr at 1.
  destruct sub as [|c sub]; [reflexivity |].
  rewrite append_cons, m_chr_cons.
  destruct (Ascii.eqb ">" c) eqn:Ec; [| reflexivity].
  apply Ascii.eqb_eq in Ec. subst c.
  simpl in Hp. unfold digit in Eb. congruence.
Qed.

Lemma name_char_not_open a : Spec.name_char a = true -> Ascii.eqb "[" a = false.
Proof.
  unfold Spec.name_char. cbn [has_char].
  destruct (Ascii.eqb "[" a); cbn [orb negb]; [discriminate | reflexivity].
Qed.

Lemma digit_not_close a : digit a = true -> Ascii.eqb "]" a = false.
Proof.
  unfold digit, isdecimal, ord.
  destruct a as [[] [] [] [] [] [] [] []]; vm_compute; intros H; congruence.
Qed.

Lemma run_nonempty p s : Spec.run p s <> "" -> exists a r, s = String a r /\ p a = true.
Proof.
  destruct s as [|a r]; simpl; [congruence |].
  destruct (p a) eqn:E; [eauto | congruence].
Qed.

Lemma run_of_rest p r tail c :
  p c = false ->
  Spec.run p (lstrip_by p r +:+ String c tail) = "".
Proof.
  intros Hc. destruct (lstrip_by p r) as [|a r'] eqn:E.
  - rewrite append_nil_l. simpl. rewrite Hc. reflexivity.
  - rewrite append_cons. simpl. rewrite (lstrip_by_head _ _ _ _ E). reflexivity.
Qed.

(** A subsystem without colon that is not of the form [name[pid]] is
    not taken for a process. *)
Lemma process_no_match sub tail :
  has_char ":" sub = false ->
  Spec.process_form sub = false ->
  re_match Parser.PROCESS_PATTERN (sub +:+ String ":" tail) = None.
Proof.
  intros Hcolon Hform.
  pose proof (run_split Spec.name_char sub) as Hs1.
  pose proof (run_all Spec.name_char sub) as Hn.
  pose proof (run_of_rest Spec.name_char sub tail ":" eq_refl) as Hr1.
  unfold Spec.process_form in Hform.
  remember (Spec.run Spec.name_char sub) as name eqn:En.
  remember (lstrip_by Spec.name_char sub) as r1 eqn:E1.
  rewrite Hs1 in Hcolon |- *. clear Hs1.
  rewrite has_char_append in Hcolon. apply orb_false_iff in Hcolon as [_ Hc1].
  rewrite append_assoc.
  unfold re_match, Parser.PROCESS_PATTERN. cbn [seqs].
  rewrite m_seq, m_grp. unfold plus at 1. rewrite m_rep.
  apply (rep_chr_failure (none_of "[]:") 1 _ name (r1 +:+ String ":" tail)).
  { exact Hn. }
  { exact Hr1. }
  { intros s' Hs'. apply run_nonempty in Hs' as (a & r & -> & Ha).
    rewrite m_seq. unfold chr at 1. rewrite m_chr_cons.
    rewrite (name_char_not_open a Ha). reflexivity. }
  (* after the name *)
  destruct r1 as [|x r2]; [right; reflexivity |].
  rewrite append_cons.
  destruct (Ascii.eqb "[" x) eqn:Ex.
  2:{ right. rewrite m_seq. unfold chr at 1. rewrite m_chr_cons, Ex. reflexivity. }
  apply Ascii.eqb_eq in Ex. subst x.
  destruct name as [|n0 name']; [left; simpl; lia |].
  right. rewrite m_seq. unfold chr at 1. rewrite m_chr_cons. cbn [Ascii.eqb Bool.eqb].
  cbn [String.eqb negb andb] in Hform.
  simpl in Hc1.
  pose proof (run_split digit r2) as Hs2.
  pose proof (run_all digit r2) as Hd.
  pose proof (run_of_rest digit r2 tail ":" eq_refl) as Hr3.
  change isdecimal with digit in Hform.
  remember (Spec.run digit r2) as d eqn:Ed.
  remember (lstrip_by digit r2) as r3 eqn:E3.
  rewrite Hs2 in Hc1 |- *. clear Hs2.
  rewrite has_char_append in Hc1. apply orb_false_iff in Hc1 as [_ Hc3].
  rewrite append_assoc.
  rewrite m_seq, m_grp. unfold plus at 1. rewrite m_rep.
  apply (rep_chr_failure digit 1 _ d (r3 +:+ String ":" tail)).
  { exact Hd. }
  { exact Hr3. }
  { intros s' Hs'. apply run_nonempty in Hs' as (a & r & -> & Ha).
    rewrite m_seq. unfold chr at 1. rewrite m_chr_cons.
    rewrite (digit_not_close a Ha). reflexivity. }
  (* after the digits *)
  destruct d as [|d0 d']; [left; simpl; lia |].
  right. cbn [String.eqb negb andb] in Hform.
  rewrite m_seq. unfold chr at 1.
  destruct r3 as [|y r4]; [reflexivity |].
  rewrite append_cons, m_chr_cons.
  destruct (Ascii.eqb "]" y) eqn:Ey; [| reflexivity].
  apply Ascii.eqb_eq in Ey. subst y.
  rewrite m_seq. unfold chr at 1.
  destruct r4 as [|z r5].
  - (* name[digits] exactly *) discriminate Hform.
  - rewrite append_cons, m_chr_cons.
    simpl in Hc3. apply orb_false_iff in Hc3 as [Hz _].
    rewrite Ascii.eqb_sym, Hz. reflexivity.
Qed.

End ReFacts.

(** ** Rounding to binary64 *)

Module FloatFacts.
Import Float64.

Lemma Qred_inject_Z z : Qred (inject_Z z) = inject_Z z.
Proof.
  unfold Qred, inject_Z.
  pose proof (Z.ggcd_correct_divisors z 1) as H.
  pose proof (Z.ggcd_gcd z 1) as Hg.
  destruct (Z.ggcd z 1) as [g [aa bb]]. cbn [fst snd] in *.
  rewrite Z.gcd_1_r in Hg. subst g. destruct H as [H1 H2].
  rewrite Z.mul_1_l in H1, H2. subst aa bb. reflexivity.
Qed.

Lemma round_half_even_unit z : round_half_even z 1 = z.
Proof.
  unfold round_half_even. rewrite Z.mod_1_r, Z.div_1_r. reflexivity.
Qed.

(** An integer of at most 53 bits is a float: rounding leaves it as it
    is. *)
Lemma round_exact_int z :
  (0 <= z <= 2 ^ 53)%Z -> round (inject_Z z) = Finite (inject_Z z).
Proof.
  intros Hz. unfold round, inject_Z. cbn [Qnum Qden].
  destruct z as [|n|n]; [reflexivity | | lia].
  unfold round_pos, ilog2. rewrite Z.sub_0_r. change (Z.log2 1) with 0%Z.
  pose proof (Z.log2_nonneg (Z.pos n)) as Hlog.
  destruct (Z.log2_spec (Z.pos n) ltac:(lia)) as [Hlo Hhi].
  assert (Hle : (Z.log2 (Z.pos n) <= 53)%Z).
  { apply Z.lt_succ_r. apply Z.log2_lt_pow2; [lia |].
    change (2 ^ Z.succ 53)%Z with (2 * 2 ^ 53)%Z. lia. }

  destruct (Z.leb_spec 0 (Z.log2 (Z.pos n))) as [_ | ?]; [| lia].
  rewrite Z.mul_1_l.
  destruct (Z.leb_spec (2 ^ Z.log2 (Z.pos n)) (Z.pos n)) as [_ | ?]; [| lia].
  set (e := Z.log2 (Z.pos n)) in *.
  rewrite Z.max_l by lia.
  destruct (Z.leb_spec 0 (e - 52)) as [Hk | Hk].
  - (* e = 52 or e = 53 *)
    assert (He : e = 52%Z \/ e = 53%Z) by lia.
    destruct He as [He | He]; rewrite He in *.
    + change (52 - 52)%Z with 0%Z. change (1 * 2 ^ 0)%Z with 1%Z.
      rewrite round_half_even_unit.
      assert (Hl : Z.log2 (Z.pos n) = 52%Z) by exact He.
      rewrite Hl. change (1024 <=? 52 + 0)%Z with false. cbv iota.
      unfold pow2. change (0 <=? 0)%Z with true. cbv iota.
      change (inject_Z (2 ^ 0)) with 1%Q.
      f_equal. etransitivity; [| apply (Qred_inject_Z (Z.pos n))].
      apply Qred_complete. ring.
    + assert (Hn : Z.pos n = (2 ^ 53)%Z).
      { change (Z.succ 53) with 54%Z in Hhi. lia. }
      rewrite Hn. vm_compute. reflexivity.
  - rewrite round_half_even_unit.
    assert (Hpos : (0 < 2 ^ (- (e - 52)))%Z) by (apply Z.pow_pos_nonneg; lia).
    assert (Hlog2 : Z.log2 (Z.pos n * 2 ^ (- (e - 52))) = 52%Z).
    { rewrite Z.log2_mul_pow2 by lia. fold e. lia. }
    rewrite Hlog2.
    destruct (Z.leb_spec 1024 (52 + (e - 52))) as [? | _]; [lia |].
    f_equal. etransitivity; [| apply (Qred_inject_Z (Z.pos n))].
    apply Qred_complete.
    unfold pow2. destruct (Z.leb_spec 0 (e - 52)) as [? | _]; [lia |].
    unfold inject_Z, Qeq, Qmult. cbn [Qnum Qden].
    rewrite Pos.mul_1_l, Z2Pos.id by exact Hpos. ring.
Qed.

Local Open Scope Q_scope.

Lemma two_pos k : 0 < 2 ^ k.
Proof. apply Qpower_0_lt. reflexivity. Qed.

Lemma two_add a b : 2 ^ (a + b) == 2 ^ a * 2 ^ b.
Proof. apply Qpower_plus. intros H. discriminate H. Qed.

Lemma two_Z k : (0 <= k)%Z -> 2 ^ k == inject_Z (2 ^ k).
Proof. intros H. symmetry. apply (Zpower_Qpower 2 k H). Qed.

Lemma two_succ k : 2 ^ (k + 1) == 2 * 2 ^ k.
Proof. rewrite two_add. change (2 ^ 1) with 2. ring. Qed.

Lemma two_mono a b : (a <= b)%Z -> 2 ^ a <= 2 ^ b.
Proof. intros H. apply Qpower_le_compat_l; [exact H | discriminate]. Qed.

Lemma two_opp k : 2 ^ (- k) * 2 ^ k == 1.
Proof. rewrite <- two_add. replace (- k + k)%Z with 0%Z by lia. reflexivity. Qed.

Lemma pow2_two k : pow2 k == 2 ^ k.
Proof.
  unfold pow2. destruct (Z.leb_spec 0 k) as [H | H].
  - symmetry. apply two_Z. exact H.
  - replace k with (- (- k))%Z at 2 by lia. rewrite Qpower_opp.
    rewrite (two_Z (- k)) by lia.
    assert (Hp : (0 < 2 ^ (- k))%Z) by (apply Z.pow_pos_nonneg; lia).
    destruct (2 ^ (- k))%Z as [|p|p]; try lia. reflexivity.
Qed.

Lemma Qabs_cases u : (0 <= u /\ Qabs u == u) \/ (u <= 0 /\ Qabs u == - u).
Proof.
  destruct (Qlt_le_dec u 0) as [H | H].
  - right. split; [lra | apply Qabs_neg; lra].
  - left. split; [exact H | apply Qabs_pos; exact H].
Qed.

Lemma Qabs_scale u v p : 0 < p -> Qabs (u * p - v * p) == Qabs (u - v) * p.
Proof.
  intros Hp. setoid_replace (u * p - v * p) with ((u - v) * p) using relation Qeq by ring.
  rewrite Qabs_Qmult, (Qabs_pos p) by lra. reflexivity.
Qed.

(** [ilog2 n d] is the binary exponent of [n / d]. *)
Lemma ilog2_spec n d :
  (0 < n)%Z -> (0 < d)%Z ->
  2 ^ ilog2 n d * inject_Z d <= inject_Z n
  /\ inject_Z n < 2 ^ (ilog2 n d + 1) * inject_Z d.
Proof.
  intros Hn Hd.
  destruct (Z.log2_spec n Hn) as [Hn1 Hn2].
  destruct (Z.log2_spec d Hd) as [Hd1 Hd2].
  pose proof (Z.log2_nonneg n) as Ha. pose proof (Z.log2_nonneg d) as Hb.
  unfold ilog2.
  set (a := Z.log2 n) in *. set (b := Z.log2 d) in *.
  rewrite Z.pow_succ_r in Hn2, Hd2 by lia.
  rewrite Zle_Qle in Hn1, Hd1. rewrite Zlt_Qlt in Hn2, Hd2.
  rewrite inject_Z_mult in Hn2, Hd2.
  rewrite <- two_Z in Hn1, Hn2, Hd1, Hd2 by lia.
  change (inject_Z 2) with 2 in Hn2, Hd2.
  set (e0 := (a - b)%Z).
  assert (HE : 2 ^ a == 2 ^ e0 * 2 ^ b).
  { rewrite <- two_add. unfold e0. replace (a - b + b)%Z with a by lia. reflexivity. }
  pose proof (two_pos e0) as HE0. pose proof (two_pos b) as HB0.
  assert (Hd0 : 0 < inject_Z d).
  { change 0 with (inject_Z 0). rewrite <- Zlt_Qlt. exact Hd. }
  assert (Hup : inject_Z n < 2 * 2 ^ e0 * inject_Z d) by nra.
  assert (Hlo : 2 ^ e0 * inject_Z d < 2 * inject_Z n) by nra.
  pose proof (two_succ e0) as Hs.
  pose proof (two_succ (e0 - 1)) as Hp.
  replace (e0 - 1 + 1)%Z with e0 in Hp by lia.
  assert (Htest : (if (0 <=? e0)%Z then (d * 2 ^ e0 <=? n)%Z
                   else (d <=? n * 2 ^ (- e0))%Z) = true
                  <-> 2 ^ e0 * inject_Z d <= inject_Z n).
  { destruct (Z.leb_spec 0 e0) as [H0 | H0].
    - rewrite Z.leb_le, Zle_Qle, inject_Z_mult, <- two_Z by lia.
      split; intros H; lra.
    - rewrite Z.leb_le, Zle_Qle, inject_Z_mult, <- two_Z by lia.
      pose proof (two_opp e0) as Ho. pose proof (two_pos (- e0)) as Hpo.
      split; intros H; nra. }
  destruct (Z.leb_spec 0 e0) as [H0 | H0].
  - destruct (d * 2 ^ e0 <=? n)%Z.
    + pose proof (proj1 Htest eq_refl). rewrite Hs. split; lra.
    + assert (~ 2 ^ e0 * inject_Z d <= inject_Z n) by (rewrite <- Htest; discriminate).
      replace (e0 - 1 + 1)%Z with e0 by lia. split; nra.
  - destruct (d <=? n * 2 ^ (- e0))%Z.
    + pose proof (proj1 Htest eq_refl). rewrite Hs. split; lra.
    + assert (~ 2 ^ e0 * inject_Z d <= inject_Z n) by (rewrite <- Htest; discriminate).
      replace (e0 - 1 + 1)%Z with e0 by lia. split; nra.
Qed.

(** [round_half_even n d] is the integer nearest to [n / d], an even one
    when [n / d] is halfway between two integers. *)
Lemma round_half_even_spec n d :
  (0 <= n)%Z -> (0 < d)%Z ->
  (0 <= round_half_even n d)%Z
  /\ (- d <= 2 * (round_half_even n d * d - n) <= d)%Z
  /\ (Z.abs (2 * (round_half_even n d * d - n)) = d ->
      Z.even (round_half_even n d) = true).
Proof.
  intros Hn Hd. unfold round_half_even.
  pose proof (Z.div_mod n d ltac:(lia)) as Hdm.
  pose proof (Z.mod_pos_bound n d Hd) as Hr.
  pose proof (Z.div_pos n d Hn Hd) as Ha.
  set (a := (n / d)%Z) in *. set (r := (n mod d)%Z) in *.
  destruct (Z.compare_spec (2 * r) d) as [He | Hl | Hg].
  - destruct (Z.even a) eqn:Ev.
    + split; [lia |]. split; [nia |]. intros _. exact Ev.
    + split; [lia |]. split; [nia |]. intros _.
      rewrite Z.even_add, Ev. reflexivity.
  - split; [lia |]. split; [nia |]. intros H. exfalso. nia.
  - split; [lia |]. split; [nia |]. intros H. exfalso. nia.
Qed.

(** The integer nearest to [y], among the integers and among the
    numbers of the next finer binade. *)
Section Unit.
Variables (y : Q) (m : Z).
Hypothesis Hlo : - (1 # 2) <= inject_Z m - y.
Hypothesis Hhi : inject_Z m - y <= 1 # 2.
Hypothesis Heven : Qabs (inject_Z m - y) == 1 # 2 -> Z.even m = true.

Lemma other_integer i :
  i <> m -> inject_Z i <= inject_Z m - 1 \/ inject_Z m + 1 <= inject_Z i.
Proof.
  intros Hne. destruct (Z_lt_le_dec i m) as [H | H].
  - left. assert (H1 : (i <= m - 1)%Z) by lia.
    rewrite Zle_Qle in H1. unfold Z.sub in H1.
    rewrite inject_Z_plus in H1. exact H1.
  - right. assert (H1 : (m + 1 <= i)%Z) by lia.
    rewrite Zle_Qle, inject_Z_plus in H1. exact H1.
Qed.

Lemma nearest_integer i : Qabs (inject_Z m - y) <= Qabs (inject_Z i - y).
Proof.
  destruct (Z.eq_dec i m) as [-> | Hne]; [apply Qle_refl |].
  pose proof (other_integer i Hne) as Hi.
  change (inject_Z 1) with 1 in Hi. change (inject_Z (-1)) with (-1) in Hi.
  destruct (Qabs_cases (inject_Z m - y)) as [[? E1] | [? E1]];
    destruct (Qabs_cases (inject_Z i - y)) as [[? E2] | [? E2]]; lra.
Qed.

Lemma tie_integer i :
  i <> m -> Qabs (inject_Z i - y) == Qabs (inject_Z m - y) ->
  exists n : Z, inject_Z m == inject_Z (2 * n) * (inject_Z i - inject_Z m).
Proof.
  intros Hne Heq.
  pose proof (other_integer i Hne) as Hi.
  change (inject_Z 1) with 1 in Hi. change (inject_Z (-1)) with (-1) in Hi.
  assert (Hhalf : Qabs (inject_Z m - y) == 1 # 2).
  { destruct (Qabs_cases (inject_Z m - y)) as [[? E1] | [? E1]];
      destruct (Qabs_cases (inject_Z i - y)) as [[? E2] | [? E2]]; lra. }
  assert (Hd : inject_Z i - inject_Z m == 1 \/ inject_Z i - inject_Z m == - (1)).
  { destruct (Qabs_cases (inject_Z m - y)) as [[? E1] | [? E1]];
      destruct (Qabs_cases (inject_Z i - y)) as [[? E2] | [? E2]];
      destruct Hi; first [left; lra | right; lra]. }
  pose proof (Heven Hhalf) as Ev. apply Z.even_spec in Ev as [h Hh].
  destruct Hd as [Hd | Hd].
  - exists h. rewrite Hd, <- Hh. ring.
  - exists (- h)%Z. rewrite Hd.
    replace (2 * - h)%Z with (- m)%Z by lia. rewrite inject_Z_opp. ring.
Qed.

Lemma nearest_finer w :
  w <= 4503599627370496 - (1 # 2) -> 4503599627370496 <= y ->
  Qabs (inject_Z m - y) <= Qabs (w - y).
Proof.
  intros Hw Hy.
  destruct (Qabs_cases (inject_Z m - y)) as [[? E1] | [? E1]];
    destruct (Qabs_cases (w - y)) as [[? E2] | [? E2]]; lra.
Qed.

Lemma tie_finer w :
  w <= 4503599627370496 - (1 # 2) -> 4503599627370496 <= y ->
  Qabs (w - y) == Qabs (inject_Z m - y) -> False.
Proof.
  intros Hw Hy Heq.
  assert (H2 : inject_Z (2 * m) == inject_Z 9007199254740993
               \/ inject_Z (2 * m) == inject_Z 9007199254740991).
  { rewrite inject_Z_mult. change (inject_Z 2) with 2.
    change (inject_Z 9007199254740993) with 9007199254740993.
    change (inject_Z 9007199254740991) with 9007199254740991.
    destruct (Qabs_cases (inject_Z m - y)) as [[? E1] | [? E1]];
      destruct (Qabs_cases (w - y)) as [[? E2] | [? E2]];
      first [left; lra | right; lra]. }
  destruct H2 as [H2 | H2];
    pose proof (proj1 (inject_Z_injective _ _) H2) as H3; lia.
Qed.

End Unit.

Lemma threshold_eq :
  Spec.overflow_threshold == 18014398509481983 * 2 ^ 970.
Proof.
  unfold Spec.overflow_threshold. rewrite inject_Z_mult, <- two_Z by lia.
  reflexivity.
Qed.

(** A significand [m] nearest to [y], with [y] in the range of 53-bit
    significands unless the exponent is the least one, times [2 ^ k]. *)
Lemma scaled_correct x r y m k :
  x == y * 2 ^ k ->
  r == inject_Z m * 2 ^ k ->
  0 <= y -> y < 9007199254740992 ->
  (-1074 <= k)%Z ->
  ((-1074 < k)%Z -> 4503599627370496 <= y) ->
  - (1 # 2) <= inject_Z m - y ->
  inject_Z m - y <= 1 # 2 ->
  (Qabs (inject_Z m - y) == 1 # 2 -> Z.even m = true) ->
  Spec.rounds_to x
    (if (1024 <=? Z.log2 m + k)%Z then Infinite false else Finite r).
Proof.
  intros Hx Hr Hy0 Hy1 Hk Hnorm Hlo Hhi Heven.
  pose proof (two_pos k) as HP. set (P := 2 ^ k) in *.
  (* the significand *)
  assert (Hm0 : (0 <= m)%Z).
  { assert (H : inject_Z (-1) < inject_Z m) by (change (inject_Z (-1)) with (-1); lra).
    rewrite <- Zlt_Qlt in H. lia. }
  assert (Hm1 : (m <= 2 ^ 53)%Z).
  { assert (H : inject_Z m < inject_Z (2 ^ 53 + 1)).
    { change (inject_Z (2 ^ 53 + 1)) with 9007199254740993. lra. }
    rewrite <- Zlt_Qlt in H. lia. }
  assert (Hm2 : (-1074 < k)%Z -> (2 ^ 52 <= m)%Z).
  { intros Hk1. specialize (Hnorm Hk1).
    assert (H : inject_Z (2 ^ 52 - 1) < inject_Z m).
    { change (inject_Z (2 ^ 52 - 1)) with 4503599627370495. lra. }
    rewrite <- Zlt_Qlt in H. lia. }
  assert (Hlog1 : (Z.log2 m <= 53)%Z).
  { rewrite <- (Z.log2_pow2 53) by lia. apply Z.log2_le_mono. exact Hm1. }
  assert (Hlog2 : (-1074 < k)%Z -> (52 <= Z.log2 m)%Z).
  { intros Hk1. specialize (Hm2 Hk1). apply Z.log2_le_pow2; lia. }
  pose proof threshold_eq as HT.
  pose proof (two_pos 970) as HT0.
  destruct (Z.leb_spec 1024 (Z.log2 m + k)) as [Hov | Hfin].
  - (* overflow *)
    cbn [Spec.rounds_to]. rewrite HT, Hx. fold P.
    assert (Hk1 : (971 <= k)%Z) by lia.
    specialize (Hnorm ltac:(lia)).
    destruct (Z.eq_dec k 971%Z) as [Hk2 | Hk2].
    + assert (Hm3 : (2 ^ 53 <= m)%Z).
      { apply Z.log2_le_pow2; [specialize (Hm2 ltac:(lia)); lia | lia]. }
      rewrite Zle_Qle in Hm3. change (inject_Z (2 ^ 53)) with 9007199254740992 in Hm3.
      assert (HPe : P == 2 * 2 ^ 970).
      { unfold P. rewrite Hk2. change 971%Z with (970 + 1)%Z. apply two_succ. }
      rewrite HPe. nra.
    + assert (HPe : 4 * 2 ^ 970 <= P).
      { unfold P. apply Qle_trans with (2 ^ 972); [| apply two_mono; lia].
        change 972%Z with (970 + 1 + 1)%Z. rewrite !two_succ. lra. }
      nra.
  - (* a finite result *)
    cbn [Spec.rounds_to].
    assert (Hk1 : (k <= 971)%Z).
    { destruct (Z_le_gt_dec k (-1074)%Z) as [? | Hk1]; [lia |].
      specialize (Hlog2 ltac:(lia)). lia. }
    split; [| split; [| split]].
    + (* below the threshold *)
      assert (Hx0 : 0 <= x) by (rewrite Hx; nra).
      rewrite (Qabs_pos x Hx0), HT, Hx. fold P.
      destruct (Z.eq_dec k 971%Z) as [Hk2 | Hk2].
      * assert (HPe : P == 2 * 2 ^ 970).
        { unfold P. rewrite Hk2. change 971%Z with (970 + 1)%Z. apply two_succ. }
        specialize (Hlog2 ltac:(lia)). specialize (Hm2 ltac:(lia)).
        assert (Hm3 : (m < 2 ^ 53)%Z) by (apply Z.log2_lt_pow2; lia).
        assert (Hm4 : inject_Z m <= inject_Z (2 ^ 53 - 1)).
        { rewrite <- Zle_Qle. lia. }
        change (inject_Z (2 ^ 53 - 1)) with 9007199254740991 in Hm4.
        destruct (Qlt_le_dec y (9007199254740992 - (1 # 2))) as [Hy2 | Hy2].
        -- rewrite HPe. nra.
        -- exfalso.
           assert (Hm5 : inject_Z m == inject_Z (2 ^ 53 - 1)).
           { change (inject_Z (2 ^ 53 - 1)) with 9007199254740991. lra. }
           pose proof (proj1 (inject_Z_injective _ _) Hm5) as Hm6.
           assert (Hhalf : Qabs (inject_Z m - y) == 1 # 2).
           { destruct (Qabs_cases (inject_Z m - y)) as [[? E1] | [? E1]]; lra. }
           specialize (Heven Hhalf). rewrite Hm6 in Heven. discriminate Heven.
      * assert (HPe : P <= 2 ^ 970) by (unfold P; apply two_mono; lia).
        nra.
    + (* a binary64 number *)
      destruct (Z.eq_dec m (2 ^ 53)%Z) as [Hm3 | Hm3].
      * exists (2 ^ 52)%Z, (k + 1)%Z.
        assert (Hl : Z.log2 m = 53%Z) by (rewrite Hm3; apply Z.log2_pow2; lia).
        split; [lia |]. split; [lia |].
        rewrite Hr, Hm3, two_succ. fold P.
        change (inject_Z (2 ^ 53)) with 9007199254740992.
        change (inject_Z (2 ^ 52)) with 4503599627370496. ring.
      * exists m, k. split; [lia |]. split; [lia |]. exact Hr.
    + (* nearest *)
      intros y' (M & k' & HM & Hk' & Hy').
      assert (Hw : y' == inject_Z M * 2 ^ (k' - k) * P).
      { rewrite Hy'. unfold P. rewrite <- Qmult_assoc, <- two_add.
        replace (k' - k + k)%Z with k' by lia. reflexivity. }
      rewrite Hr, Hw, Hx. fold P. rewrite !Qabs_scale by exact HP.
      apply Qmult_le_compat_r; [| lra].
      destruct (Z_le_gt_dec k k') as [Hkk | Hkk].
      * rewrite two_Z by lia. rewrite <- inject_Z_mult.
        apply nearest_integer; assumption.
      * apply nearest_finer; try assumption; [| apply Hnorm; lia].
        assert (Ht : 2 ^ (k' - k) <= 1 # 2).
        { change (1 # 2) with (2 ^ (-1)). apply two_mono. lia. }
        pose proof (two_pos (k' - k)) as Ht0.
        assert (HMq : inject_Z M <= inject_Z (2 ^ 53 - 1)) by (rewrite <- Zle_Qle; lia).
        change (inject_Z (2 ^ 53 - 1)) with 9007199254740991 in HMq.
        destruct (Qlt_le_dec (inject_Z M) 0); nra.
    + (* ties *)
      intros y' (M & k' & HM & Hk' & Hy') Hne Htie.
      assert (Hw : y' == inject_Z M * 2 ^ (k' - k) * P).
      { rewrite Hy'. unfold P. rewrite <- Qmult_assoc, <- two_add.
        replace (k' - k + k)%Z with k' by lia. reflexivity. }
      rewrite Hr, Hw, Hx in Htie. fold P in Htie.
      rewrite !Qabs_scale in Htie by exact HP.
      apply Qmult_inj_r in Htie; [| lra].
      destruct (Z_le_gt_dec k k') as [Hkk | Hkk].
      * rewrite two_Z, <- inject_Z_mult in Htie, Hw by lia.
        set (i := (M * 2 ^ (k' - k))%Z) in *.
        assert (Him : i <> m).
        { intros ->. apply Hne. rewrite Hw, Hr. reflexivity. }
        destruct (tie_integer y m Hlo Hhi Heven i Him Htie) as [n Hn].
        exists n. rewrite Hr, Hw. fold P. rewrite Hn at 1. ring.
      * exfalso. apply (tie_finer y m Hlo Hhi (inject_Z M * 2 ^ (k' - k))).
        -- assert (Ht : 2 ^ (k' - k) <= 1 # 2).
           { change (1 # 2) with (2 ^ (-1)). apply two_mono. lia. }
           pose proof (two_pos (k' - k)) as Ht0.
           assert (HMq : inject_Z M <= inject_Z (2 ^ 53 - 1)) by (rewrite <- Zle_Qle; lia).
           change (inject_Z (2 ^ 53 - 1)) with 9007199254740991 in HMq.
           destruct (Qlt_le_dec (inject_Z M) 0); nra.
        -- apply Hnorm. lia.
        -- exact Htie.
Qed.

Lemma significand_correct n d y :
  (0 <= n)%Z -> (0 < d)%Z -> inject_Z n == y * inject_Z d ->
  - (1 # 2) <= inject_Z (round_half_even n d) - y
  /\ inject_Z (round_half_even n d) - y <= 1 # 2
  /\ (Qabs (inject_Z (round_half_even n d) - y) == 1 # 2 ->
      Z.even (round_half_even n d) = true).
Proof.
  intros Hn Hd Hy.
  destruct (round_half_even_spec n d Hn Hd) as (_ & [H1 H2] & Hev).
  set (m := round_half_even n d) in *.
  assert (Hd0 : 0 < inject_Z d).
  { change 0 with (inject_Z 0). rewrite <- Zlt_Qlt. exact Hd. }
  rewrite Zle_Qle in H1, H2. unfold Z.sub in H1, H2.
  repeat (rewrite inject_Z_mult in H1 || rewrite inject_Z_plus in H1
          || rewrite inject_Z_opp in H1).
  repeat (rewrite inject_Z_mult in H2 || rewrite inject_Z_plus in H2
          || rewrite inject_Z_opp in H2).
  change (inject_Z 2) with 2 in H1, H2.
  split; [nra |]. split; [nra |].
  intros Hhalf. apply Hev.
  assert (Hq : inject_Z (2 * (m * d - n)) == inject_Z d
               \/ inject_Z (2 * (m * d - n)) == inject_Z (- d)).
  { unfold Z.sub.
    repeat (rewrite inject_Z_mult || rewrite inject_Z_plus || rewrite inject_Z_opp).
    change (inject_Z 2) with 2.
    destruct (Qabs_cases (inject_Z m - y)) as [[? E] | [? E]];
      [left | right]; nra. }
  destruct Hq as [Hq | Hq];
    pose proof (proj1 (inject_Z_injective _ _) Hq) as Hz; lia.
Qed.

(** [round_pos n d] is the float that stands for [n / d]. *)
Lemma round_pos_correct n d x :
  (0 < n)%Z -> (0 < d)%Z -> x * inject_Z d == inject_Z n ->
  Spec.rounds_to x (round_pos n d).
Proof.
  intros Hn Hd Hx. unfold round_pos.
  destruct (ilog2_spec n d Hn Hd) as [He1 He2].
  set (e := ilog2 n d) in *.
  set (k := Z.max (e - 52) (-1074)).
  assert (Hd0 : 0 < inject_Z d).
  { change 0 with (inject_Z 0). rewrite <- Zlt_Qlt. exact Hd. }
  assert (Hn0 : 0 < inject_Z n).
  { change 0 with (inject_Z 0). rewrite <- Zlt_Qlt. exact Hn. }
  pose proof (two_pos k) as HP.
  assert (HxP : x == x / 2 ^ k * 2 ^ k) by (field; lra).
  set (y := x / 2 ^ k) in *.
  assert (Hx1 : 2 ^ e <= x) by nra.
  assert (Hx2 : x < 2 ^ (e + 1)) by nra.
  assert (Hx0 : 0 < x) by (pose proof (two_pos e); lra).
  assert (Hy0 : 0 <= y).
  { destruct (Qlt_le_dec y 0) as [Hneg | Hpos]; [| exact Hpos].
    exfalso. clear - Hneg HP HxP Hx0. nra. }
  assert (Hy1 : y < 9007199254740992).
  { assert (H : 2 ^ (e + 1) <= 2 ^ (k + 53)) by (apply two_mono; lia).
    rewrite (two_add k 53) in H. change (2 ^ 53) with 9007199254740992 in H.
    destruct (Qlt_le_dec y 9007199254740992) as [Hlt | Hge]; [exact Hlt |].
    exfalso. clear - Hge HP HxP Hx2 H. nra. }
  assert (Hk : (-1074 <= k)%Z) by lia.
  assert (Hnorm : (-1074 < k)%Z -> 4503599627370496 <= y).
  { intros Hk1. assert (H : 2 ^ e == 2 ^ (k + 52)) by (f_equiv; lia).
    rewrite (two_add k 52) in H. change (2 ^ 52) with 4503599627370496 in H.
    destruct (Qlt_le_dec y 4503599627370496) as [Hlt | Hge]; [| exact Hge].
    exfalso. clear - Hlt HP HxP Hx1 H. nra. }
  assert (Hr : forall m, Qred (inject_Z m * pow2 k) == inject_Z m * 2 ^ k).
  { intros m. rewrite Qred_correct, pow2_two. reflexivity. }
  destruct (Z.leb_spec 0 k) as [Hk0 | Hk0].
  - assert (HD : (0 < d * 2 ^ k)%Z).
    { apply Z.mul_pos_pos; [exact Hd | apply Z.pow_pos_nonneg; lia]. }
    assert (Hy : inject_Z n == y * inject_Z (d * 2 ^ k)).
    { rewrite inject_Z_mult, <- two_Z by lia. rewrite <- Hx, HxP at 1. ring. }
    destruct (significand_correct n (d * 2 ^ k) y ltac:(lia) HD Hy)
      as (Hlo & Hhi & Hev).
    apply (scaled_correct x _ y _ k HxP (Hr _) Hy0 Hy1 Hk Hnorm Hlo Hhi Hev).
  - assert (HN : (0 <= n * 2 ^ (- k))%Z).
    { apply Z.mul_nonneg_nonneg; [lia | apply Z.pow_nonneg; lia]. }
    assert (Hy : inject_Z (n * 2 ^ (- k)) == y * inject_Z d).
    { rewrite inject_Z_mult, <- two_Z by lia.
      pose proof (two_opp k) as Ho. rewrite <- Hx.
      setoid_replace (x * inject_Z d * 2 ^ (- k))
        with (y * inject_Z d * (2 ^ (- k) * 2 ^ k)) using relation Qeq
        by (rewrite HxP at 1; ring).
      rewrite Ho. ring. }
    destruct (significand_correct (n * 2 ^ (- k)) d y HN Hd Hy)
      as (Hlo & Hhi & Hev).
    apply (scaled_correct x _ y _ k HxP (Hr _) Hy0 Hy1 Hk Hnorm Hlo Hhi Hev).
Qed.

Lemma binary64_opp y : Spec.binary64 y -> Spec.binary64 (- y).
Proof.
  intros (m & k & Hm & Hk & Hy). exists (- m)%Z, k.
  split; [lia |]. split; [exact Hk |]. rewrite Hy, inject_Z_opp. ring.
Qed.

Lemma rounds_to_opp x f : Spec.rounds_to x f -> Spec.rounds_to (- x) (opp f).
Proof.
  destruct f as [r | s |]; cbn [Spec.rounds_to opp].
  - intros (Hlt & Hb & Hn & Ht). split; [rewrite Qabs_opp; exact Hlt |].
    split; [apply binary64_opp; exact Hb |]. split.
    + intros y Hy. specialize (Hn (- y) (binary64_opp y Hy)).
      setoid_replace (- r - - x) with (- (r - x)) using relation Qeq by ring.
      setoid_replace (y - - x) with (- (- y - x)) using relation Qeq by ring.
      rewrite !Qabs_opp. exact Hn.
    + intros y Hy Hne Htie.
      destruct (Ht (- y) (binary64_opp y Hy)) as [n Hn'].
      * intros H. apply Hne. rewrite <- H. ring.
      * setoid_replace (- y - x) with (- (y - - x)) using relation Qeq by ring.
        setoid_replace (r - x) with (- (- r - - x)) using relation Qeq by ring.
        rewrite !Qabs_opp. exact Htie.
      * exists n. rewrite Hn' at 1. ring.
  - destruct s; cbn [negb]; intros H; lra.
  - intros H. exact H.
Qed.

(** [round] is rounding to nearest, ties to even, with overflow to
    infinity. *)
Theorem round_correct q : Spec.rounds_to q (round q).
Proof.
  destruct q as [qn qd]. unfold round. cbn [Qnum Qden].
  destruct qn as [|n|n].
  - assert (Hq : 0 # qd == 0) by reflexivity.
    cbn [Spec.rounds_to]. split.
    + rewrite Hq. reflexivity.
    + split; [| split].
      * exists 0%Z, 0%Z. split; [reflexivity |]. split; [lia | reflexivity].
      * intros y _. rewrite Hq. setoid_replace (0 - 0) with 0 using relation Qeq by ring.
        apply Qabs_nonneg.
      * intros y _ Hne Htie. exfalso. apply Hne.
        rewrite Hq in Htie. setoid_replace (0 - 0) with 0 using relation Qeq in Htie by ring.
        change (Qabs 0) with 0 in Htie.
        destruct (Qabs_cases (y - 0)) as [[? E] | [? E]]; lra.
  - apply round_pos_correct; [lia | lia |].
    unfold Qeq, Qmult, inject_Z. cbn [Qnum Qden]. lia.
  - change (Z.neg n # qd) with (- (Z.pos n # qd)).
    apply rounds_to_opp. apply round_pos_correct; [lia | lia |].
    unfold Qeq, Qmult, inject_Z. cbn [Qnum Qden]. lia.
Qed.

End FloatFacts.

(** ** Lines of the form [[t] subsystem: msg] *)

Module LineProps.
Import Event Parser PyStr StrFacts ReFacts.

Lemma no_space_dot a : Spec.no_space a = true -> Re.dot a = true.
Proof.
  unfold Spec.no_space, Re.dot, isspace, newline, ord.
  destruct a as [[] [] [] [] [] [] [] []]; vm_compute; intros H; congruence.
Qed.

Lemma no_space_not_blank a : Spec.no_space a = true -> Ascii.eqb a " " = false.
Proof.
  unfold Spec.no_space, isspace, ord.
  destruct a as [[] [] [] [] [] [] [] []]; vm_compute; intros H; congruence.
Qed.

Lemma digit_or_dot_no_space a : is_digit_or_dot a = true -> Spec.no_space a = true.
Proof.
  intros H. unfold Spec.no_space.
  change (isspace a) with (Re.space a).
  rewrite (digit_or_dot_not_space a H). reflexivity.
Qed.

Lemma drop_append_cons s c r : drop (S (String.length s)) (s +:+ String c r) = r.
Proof. induction s as [|x s IH]; [reflexivity | rewrite append_cons; exact IH]. Qed.

(** The colon rule on [sub:tail]. *)
Lemma split_subsystem_colon sub tail :
  sub <> "" ->
  (String.length sub < 30)%nat ->
  strip sub = sub ->
  has_char " " sub = false ->
  has_char ":" sub = false ->
  split_subsystem (sub +:+ String ":" tail) = (Some sub, strip tail).
Proof.
  intros Hne Hlen Hws Hb Hcolon. unfold split_subsystem.
  rewrite find_append by exact Hcolon.
  assert (Hpos : (0 < String.length sub)%nat) by (destruct sub; [congruence | simpl; lia]).
  assert (Hrange : ((0 <? Z.of_nat (String.length sub))
                    && (Z.of_nat (String.length sub) <? 50))%Z = true).
  { apply andb_true_iff. split; apply Z.ltb_lt; lia. }
  rewrite Hrange. rewrite Nat2Z.id, take_append, Hws.
  assert (Hl : (String.length sub <? 30)%nat = true) by (apply Nat.ltb_lt; exact Hlen).
  assert (He : String.eqb sub "" = false) by (destruct sub; [congruence | reflexivity]).
  rewrite Hl, Hb, He. cbn [negb andb].
  replace (Z.to_nat (Z.of_nat (String.length sub) + 1)) with (S (String.length sub)) by lia.
  rewrite drop_append_cons. reflexivity.
Qed.

Lemma count_char_append c a b :
  count_char c (a +:+ b) = (count_char c a + count_char c b)%nat.
Proof.
  induction a as [|x a IH]; [reflexivity |].
  rewrite append_cons. simpl. rewrite IH. lia.
Qed.

Lemma remove_char_append c a b :
  remove_char c (a +:+ b) = remove_char c a +:+ remove_char c b.
Proof.
  induction a as [|x a IH]; [reflexivity |].
  rewrite append_cons. simpl. destruct (Ascii.eqb x c); [exact IH |].
  rewrite append_cons, IH. reflexivity.
Qed.

Lemma count_char_zero c s :
  count_char c s = 0%nat -> has_char c s = false /\ remove_char c s = s.
Proof.
  induction s as [|x s IH]; simpl; [split; reflexivity |].
  destruct (Ascii.eqb x c); [discriminate |].
  intros H. destruct (IH H) as [-> ->]. split; reflexivity.
Qed.

Lemma has_char_count c s : has_char c s = false -> count_char c s = 0%nat.
Proof.
  induction s as [|x s IH]; simpl; [reflexivity |].
  destruct (Ascii.eqb x c); [discriminate |]. exact IH.
Qed.

Lemma find_absent c s : has_char c s = false -> find c s = (-1)%Z.
Proof.
  induction s as [|x s IH]; simpl; [reflexivity |].
  destruct (Ascii.eqb x c); [discriminate |].
  intros H. rewrite (IH H). reflexivity.
Qed.

Lemma decimal_number_parts t :
  Spec.decimal_number t = true ->
  t <> "" /\ all_chars is_digit_or_dot t = true /\ all_chars Spec.no_space t = true.
Proof.
  unfold Spec.decimal_number. intros H.
  apply andb_true_iff in H as [H Hne]. apply andb_true_iff in H as [Hall _].
  split; [| split].
  - intros ->. discriminate Hne.
  - exact Hall.
  - eapply all_chars_impl; [| exact Hall]. exact digit_or_dot_no_space.
Qed.

(** What [float] makes of a decimal number. *)
Lemma float_decimal_number t :
  Spec.decimal_number t = true ->
  float t
  = Some (Float64.round
            (Qred (digits_value (remove_char "." t)
                   # Z.to_pos (10 ^ Z.of_nat
                                      (if (find "." t <? 0)%Z then 0%nat
                                       else String.length
                                              (drop (Z.to_nat (find "." t) + 1) t)))))).
Proof.
  intros H. destruct (decimal_number_parts t H) as (_ & _ & Hws).
  unfold float. rewrite (strip_none t Hws).
  unfold Spec.decimal_number in H. rewrite H. reflexivity.
Qed.

(** With a dot, it is the float nearest to the number
    [int_part.frac_part] denotes. *)
Lemma float_with_dot ip fp :
  Spec.decimal_number (ip +:+ "." +:+ fp) = true ->
  float (ip +:+ "." +:+ fp) = Some (Float64.round (Spec.decimal_value ip fp)).
Proof.
  intros H. rewrite float_decimal_number by exact H.
  unfold Spec.decimal_number in H.
  apply andb_true_iff in H as [H _]. apply andb_true_iff in H as [_ Hcount].
  apply Nat.leb_le in Hcount.
  rewrite append_cons, append_nil_l in *.
  rewrite count_char_append in Hcount. simpl in Hcount.
  destruct (count_char_zero "." ip) as [Hip Hrip]; [lia |].
  destruct (count_char_zero "." fp) as [Hfp Hrfp]; [lia |].
  rewrite remove_char_append. simpl. rewrite Hrip, Hrfp.
  rewrite find_append by exact Hip.
  destruct (Z.ltb_spec (Z.of_nat (String.length ip)) 0) as [Hlt | _]; [lia |].
  rewrite Nat2Z.id, Nat.add_1_r, drop_append_cons. reflexivity.
Qed.

(** Without a dot, it is the float nearest to the integer the digits
    denote. *)
Lemma float_without_dot t :
  Spec.decimal_number t = true ->
  has_char "." t = false ->
  float t = Some (Float64.round (Spec.decimal_value t "")).
Proof.
  intros H Hdot. rewrite float_decimal_number by exact H.
  rewrite (find_absent _ _ Hdot).
  destruct (count_char_zero "." t (has_char_count _ _ Hdot)) as [_ ->].
  unfold Spec.decimal_value. rewrite append_nil_r. reflexivity.
Qed.

Lemma parse_timestamp_decimal t :
  Spec.decimal_number t = true -> _parse_timestamp (Some t) = float t.
Proof.
  intros H. destruct (decimal_number_parts t H) as (Hne & _ & Hws).
  unfold _parse_timestamp. destruct t as [|a t']; [congruence |].
  rewrite (strip_none _ Hws). reflexivity.
Qed.

Lemma digits_from_nonneg s :
  all_chars isdecimal s = true ->
  forall acc, (0 <= acc)%Z -> (0 <= digits_value_from acc s)%Z.
Proof.
  induction s as [|c s IH]; intros Hall acc Hacc; [exact Hacc |].
  cbn [all_chars] in Hall. apply andb_true_iff in Hall as [Hc Hall].
  cbn [digits_value_from]. apply (IH Hall).
  unfold isdecimal in Hc. apply andb_true_iff in Hc as [Hlo _].
  apply N.leb_le in Hlo. unfold digit_value. lia.
Qed.

Lemma digits_nonneg s : all_chars isdecimal s = true -> (0 <= digits_value s)%Z.
Proof. intros H. apply (digits_from_nonneg s H). lia. Qed.

(** The stripped text of a line [[t] sub: msg]. *)
Lemma strip_line t sub msg :
  strip ("[" +:+ t +:+ "] " +:+ sub +:+ ": " +:+ msg)
  = String "[" (t +:+ String "]" (String " "
      (sub +:+ String ":" (rstrip_by isspace (String " " msg))))).
Proof.
  unfold strip.
  replace ("[" +:+ t +:+ "] " +:+ sub +:+ ": " +:+ msg)
    with (String "[" (t +:+ String "]" (String " " sub)) +:+ String ":" (String " " msg)).
  2:{ repeat (rewrite append_cons || rewrite append_nil_l || rewrite append_assoc).
      reflexivity. }
  rewrite rstrip_by_append by reflexivity.
  repeat (rewrite append_cons || rewrite append_nil_l || rewrite append_assoc).
  reflexivity.
Qed.

(** C5, as the code has it: for a line [[t] subsystem: msg] where [t]
    is a decimal number, the subsystem is not empty, shorter than 30,
    has no blank, no newline and no colon in it and no whitespace at
    either end, does not start with a priority prefix [<digit>] and is not
    of the form [name[pid]], and [msg] has no newline, the parser returns
    an event whose monotonic timestamp is the float that stands for the
    number [t] writes (the binary64 number nearest to it, ties to the even
    significand, infinity from about 1.8e308 on; the number itself for an
    integer of at most 53 bits), whose subsystem is the text before the
    colon and whose message is [msg] without surrounding whitespace. *)
Theorem C5_timestamped_subsystem_line h source t sub msg
  (Ht : Spec.decimal_number t = true)
  (Hne : sub <> "")
  (Hlen : (String.length sub < 30)%nat)
  (Hblank : has_char " " sub = false)
  (Hline : has_char newline sub = false)
  (Hends : strip sub = sub)
  (Hcolon : has_char ":" sub = false)
  (Hprio : Spec.priority_prefixed sub = false)
  (Hproc : Spec.process_form sub = false)
  (Hnl : has_char newline msg = false) :
  exists ev,
    parse_dmesg_line h ("[" +:+ t +:+ "] " +:+ sub +:+ ": " +:+ msg) source = Some ev
    /\ (forall ip fp, t = ip +:+ "." +:+ fp ->
          exists f, timestamp_monotonic ev = Some f
                    /\ Spec.rounds_to (Spec.decimal_value ip fp) f)
    /\ (has_char "." t = false ->
        (exists f, timestamp_monotonic ev = Some f
                   /\ Spec.rounds_to (Spec.decimal_value t "") f)
        /\ ((digits_value t <= 2 ^ 53)%Z ->
            timestamp_monotonic ev
            = Some (Float64.Finite (inject_Z (digits_value t)))))
    /\ subsystem ev = Some sub
    /\ message ev = strip msg
    /\ pid ev = None.
Proof.
  destruct (decimal_number_parts t Ht) as (Htne & Hdd & _).
  set (tail := rstrip_by isspace (String " " msg)).
  set (R := sub +:+ String ":" tail).
  assert (Htail : strip tail = strip msg).
  { unfold tail. rewrite strip_rstrip. apply strip_leading. reflexivity. }
  assert (HR : exists a r, R = String a r /\ isspace a = false).
  { unfold R. destruct sub as [|a sub']; [congruence |].
    exists a, (sub' +:+ String ":" tail). split; [reflexivity |].
    unfold strip in Hends. exact (lstrip_by_head _ _ _ _ Hends). }
  assert (HstripR : strip R = R).
  { unfold strip, R. rewrite rstrip_by_append by reflexivity.
    unfold tail. rewrite rstrip_by_idem. fold tail. fold R.
    destruct HR as (a & r & -> & Ha). simpl. rewrite Ha. reflexivity. }
  assert (Hmatch : Re.re_match DMESG_PATTERN
                     (String "[" (t +:+ String "]" (String " " R)))
                   = Some [(2, R); (1, t)]%nat).
  { apply dmesg_match; try assumption.
    - destruct HR as (a & r & -> & Ha). simpl.
      change (Re.space a) with (isspace a). rewrite Ha. reflexivity.
    - unfold R. rewrite all_chars_append. apply andb_true_iff. split.
      + apply has_char_false in Hline. exact Hline.
      + cbn [all_chars]. apply andb_true_iff. split; [reflexivity |].
        unfold tail. apply rstrip_by_all.
        cbn [all_chars]. apply andb_true_iff. split; [reflexivity |].
        apply has_char_false in Hnl. exact Hnl. }
  assert (Hparse :
    parse_dmesg_line h ("[" +:+ t +:+ "] " +:+ sub +:+ ": " +:+ msg) source
    = Some {| timestamp_monotonic := float t;
              timestamp_realtime :=
                Some match float t, BOOT_TIME h with
                     | Some t0, Some b =>
                         realtime h (Float64.add (Float64.round b) t0)
                     | _, _ => now h
                     end;
              severity :=
                (let severity := _infer_severity (strip msg) in
                 if String.eqb severity "" then "INFO" else _normalize_severity severity);
              subsystem := Some sub;
              message := strip msg;
              raw := rstrip_newline ("[" +:+ t +:+ "] " +:+ sub +:+ ": " +:+ msg);
              source := source;
              event_id := uuid4 h;
              cpu := _extract_cpu (strip msg);
              pid := None;
              annotations :=
                (if _is_continuation_line (strip msg)
                 then {[ "continuation" := PyBool true ]} else ∅);
              plugin_metadata := ∅ |}).
  { unfold parse_dmesg_line. rewrite strip_line. fold tail. fold R.
    rewrite append_cons, append_nil_l. cbn [String.eqb].
    rewrite Hmatch. cbn [Re.group Nat.eqb].
    rewrite (parse_timestamp_decimal t Ht).
    assert (Hor : or_default (Some R) "" = R).
    { destruct HR as (a & r & -> & _). reflexivity. }
    rewrite Hor, HstripR.
    unfold R at 1 2. rewrite (priority_no_match sub tail Hprio).
    rewrite (process_no_match sub tail Hcolon Hproc).
    rewrite (split_subsystem_colon sub tail Hne Hlen Hends Hblank Hcolon).
    rewrite Htail.
    assert (Hsub : or_default (Some sub) "KERNEL" = sub).
    { destruct sub; [congruence | reflexivity]. }
    rewrite Hsub. reflexivity. }
  eexists. split; [exact Hparse |]. cbn [timestamp_monotonic subsystem message pid].
  split.
  { intros ip fp ->. eexists. split; [apply float_with_dot; exact Ht |].
    apply FloatFacts.round_correct. }
  split.
  { intros Hdot. rewrite (float_without_dot t Ht Hdot).
    split; [eexists; split; [reflexivity | apply FloatFacts.round_correct] |].
    intros Hsmall. f_equal.
    unfold Spec.decimal_value. rewrite append_nil_r.
    change (Z.to_pos (10 ^ Z.of_nat (String.length ""))) with 1%positive.
    change (digits_value t # 1) with (inject_Z (digits_value t)).
    rewrite FloatFacts.Qred_inject_Z. apply FloatFacts.round_exact_int.
    split; [| exact Hsmall].
    apply digits_nonneg.
    unfold Spec.decimal_number in Ht.
    apply andb_true_iff in Ht as [Ht' _]. apply andb_true_iff in Ht' as [Hall _].
    clear - Hall Hdot. induction t as [|c t IH]; [reflexivity |].
    cbn [all_chars has_char] in *.
    apply andb_true_iff in Hall as [Hc Hall]. apply orb_false_elim in Hdot as [Hcd Hdot].
    rewrite (IH Hall Hdot), andb_true_r.
    unfold is_digit_or_dot in Hc. rewrite Hcd, orb_false_r in Hc. exact Hc. }
  repeat split.
Qed.

(** A line as [dmesg] prints it, and one whose subsystem has a tab in
    it. *)
Lemma C5_witness :
  (exists ev,
      parse_dmesg_line Samples.host0 "[123.456] usb: new device" "dmesg" = Some ev
      /\ (exists f, timestamp_monotonic ev = Some f
                    /\ Spec.rounds_to (Spec.decimal_value "123" "456") f)
      /\ subsystem ev = Some "usb"
      /\ message ev = "new device")
  /\ (exists ev,
        parse_dmesg_line Samples.host0
          ("[" +:+ "7" +:+ "] " +:+ String "a" (String tab "b") +:+ ": " +:+ "x")
          "dmesg" = Some ev
        /\ timestamp_monotonic ev = Some (Float64.Finite 7)
        /\ subsystem ev = Some (String "a" (String tab "b"))).
Proof.
  split.
  - destruct (C5_timestamped_subsystem_line
                Samples.host0 "dmesg" "123.456" "usb" "new device")
      as (ev & Hp & Hts & _ & Hs & Hm & _).
    + reflexivity.
    + discriminate.
    + simpl; lia.
    + reflexivity.
    + reflexivity.
    + reflexivity.
    + reflexivity.
    + reflexivity.
    + reflexivity.
    + reflexivity.
    + exists ev. split; [exact Hp |]. split; [apply Hts; reflexivity |].
      split; [exact Hs | exact Hm].
  - destruct (C5_timestamped_subsystem_line
                Samples.host0 "dmesg" "7" (String "a" (String tab "b")) "x")
      as (ev & Hp & _ & Hint & Hs & _).
    + reflexivity.
    + discriminate.
    + simpl; lia.
    + reflexivity.
    + reflexivity.
    + reflexivity.
    + reflexivity.
    + reflexivity.
    + reflexivity.
    + reflexivity.
    + exists ev. split; [exact Hp |]. split; [| exact Hs].
      destruct (Hint eq_refl) as [_ Hexact]. apply Hexact. vm_compute. discriminate.
Defined.

(** C5 as stated fails: [zsh[123]] has no spaces and fewer than 30
    characters, yet the line [[1.0] zsh[123]: msg] is read as a message of
    process [zsh] with pid 123, so the subsystem is not the text before
    the colon. *)
Lemma C5_process_name_is_not_the_text_before_the_colon :
  Spec.decimal_number "1.0" = true
  /\ has_char " " "zsh[123]" = false
  /\ (String.length "zsh[123]" < 30)%nat
  /\ exists ev,
      parse_dmesg_line Samples.host0
        ("[" +:+ "1.0" +:+ "] " +:+ "zsh[123]" +:+ ": " +:+ "msg") "dmesg" = Some ev
      /\ subsystem ev = Some "zsh"
      /\ subsystem ev <> Some "zsh[123]"
      /\ pid ev = Some 123%Z.
Proof.
  split; [reflexivity |]. split; [reflexivity |]. split; [simpl; lia |].
  eexists. split; [vm_compute; reflexivity |].
  split; [reflexivity |]. split; [discriminate | reflexivity].
Qed.

End LineProps.

(** ** Where [raw] is the line handed to the parser *)

Module RawProps.
Import Event Parser PyStr StrFacts.

Lemma lstrip_by_idem p s : lstrip_by p (lstrip_by p s) = lstrip_by p s.
Proof.
  induction s as [|c s IH]; simpl; [reflexivity |].
  destruct (p c) eqn:E; [exact IH |]. simpl. rewrite E. reflexivity.
Qed.

(** What it means for a string to be stripped on the right. *)
Lemma rstrip_by_fixed p c u :
  rstrip_by p (String c u) = String c u ->
  (u = "" /\ p c = false) \/ (u <> "" /\ rstrip_by p u = u).
Proof.
  simpl. destruct (rstrip_by p u) as [|d r] eqn:E.
  - destruct (p c) eqn:Ec; [discriminate |].
    intros [= <-]. left. split; reflexivity.
  - intros [= <-]. right. split; [discriminate | reflexivity].
Qed.

Lemma rstrip_lstrip p u :
  rstrip_by p u = u -> rstrip_by p (lstrip_by p u) = lstrip_by p u.
Proof.
  induction u as [|c u IH]; [reflexivity |].
  intros H. cbn [lstrip_by]. destruct (p c) eqn:Ec; [| exact H].
  destruct (rstrip_by_fixed p c u H) as [[_ Hc] | [_ Hu]]; [congruence |].
  apply IH. exact Hu.
Qed.

Lemma rstrip_strip s : rstrip_by isspace (strip s) = strip s.
Proof. unfold strip. apply rstrip_lstrip. apply rstrip_by_idem. Qed.

Lemma strip_idem s : strip (strip s) = strip s.
Proof.
  unfold strip at 1. rewrite rstrip_strip. unfold strip. apply lstrip_by_idem.
Qed.

(** Stripped for a class, stripped for every smaller class. *)
Lemma rstrip_by_weaken (p q : ascii -> bool) u :
  (forall c, q c = true -> p c = true) ->
  rstrip_by p u = u -> rstrip_by q u = u.
Proof.
  intros Hqp. induction u as [|c u IH]; [reflexivity |].
  intros H. destruct (rstrip_by_fixed p c u H) as [[-> Hc] | [Hne Hu]].
  - simpl. destruct (q c) eqn:Eq; [| reflexivity].
    rewrite (Hqp c Eq) in Hc. discriminate.
  - simpl. rewrite (IH Hu). destruct u; [congruence | reflexivity].
Qed.

Lemma rstrip_newline_strip s : rstrip_newline (strip s) = strip s.
Proof.
  unfold rstrip_newline. apply (rstrip_by_weaken isspace).
  - intros c Hc. apply Ascii.eqb_eq in Hc. subst c. reflexivity.
  - apply rstrip_strip.
Qed.

(** On the timestamped path [raw] is the line without its trailing
    newlines. *)
Lemma timestamped_raw h line source c ev :
  Re.re_match DMESG_PATTERN (strip line) = Some c ->
  parse_dmesg_line h line source = Some ev ->
  raw ev = rstrip_newline line.
Proof.
  intros Hm. unfold parse_dmesg_line.
  destruct (String.eqb line ""); [discriminate |].
  destruct (String.eqb (strip line) ""); [discriminate |].
  rewrite Hm.
  destruct (Re.re_match PRIORITY_PATTERN _) as [pc|];
    destruct (Re.re_match PROCESS_PATTERN _) as [pm|];
    try destruct (split_subsystem _) as [sub msg];
    intros [= <-]; reflexivity.
Qed.

(** On the fallback path it is the stripped line. *)
Lemma fallback_raw h line source ev :
  Re.re_match DMESG_PATTERN (strip line) = None ->
  parse_dmesg_line h line source = Some ev ->
  raw ev = strip line.
Proof.
  intros Hm Hp.
  pose proof (ParserProps.fallback_path _ _ _ _ Hm Hp) as H.
  unfold _parse_kernel_prefix in H.
  destruct (Re.re_match KERNEL_PREFIX _); [| discriminate].
  injection H as <-. reflexivity.
Qed.

(** A line of the live stream reaches the parser stripped, and then
    [raw] is that line on both paths. *)
Lemma streamed_raw h line source ev :
  parse_dmesg_line h (Sources.decoded line) source = Some ev ->
  raw ev = Sources.decoded line.
Proof.
  unfold Sources.decoded. intros Hp.
  destruct (Re.re_match DMESG_PATTERN (strip (strip line))) as [c|] eqn:Hm.
  - rewrite (timestamped_raw _ _ _ _ _ Hm Hp). apply rstrip_newline_strip.
  - rewrite (fallback_raw _ _ _ _ Hm Hp). apply strip_idem.
Qed.

(** A snapshot line has no newline in it; on the timestamped path its
    [raw] is the line. *)
Lemma snapshot_timestamped_raw h line source c ev :
  has_char newline line = false ->
  Re.re_match DMESG_PATTERN (strip line) = Some c ->
  parse_dmesg_line h line source = Some ev ->
  raw ev = line.
Proof.
  intros Hnl Hm Hp. rewrite (timestamped_raw _ _ _ _ _ Hm Hp).
  unfold rstrip_newline. apply rstrip_by_none.
  apply has_char_false in Hnl.
  eapply all_chars_impl; [| exact Hnl].
  intros c0 Hc. cbv beta in Hc |- *. rewrite Ascii.eqb_sym. exact Hc.
Qed.

Lemma split_pieces sep s : Forall (fun piece => has_char sep piece = false) (split sep s).
Proof.
  induction s as [|c s IH]; simpl.
  - repeat constructor.
  - destruct (Ascii.eqb c sep) eqn:E.
    + constructor; [reflexivity | exact IH].
    + destruct (split sep s) as [|p ps].
      * repeat constructor. simpl. rewrite E. reflexivity.
      * inversion IH as [|? ? Hp Hps]; subst.
        constructor; [simpl; rewrite E, Hp; reflexivity | exact Hps].
Qed.

End RawProps.

(** ** Reachable engine states are well formed *)

Module EngineInvariant.
Import Event Errors Engine.

Lemma deque_append_subset maxlen q x a :
  In a (deque_append maxlen q x) -> In a q \/ a = x.
Proof.
  unfold deque_append. intros H.
  assert (Hin : In a (q ++ [x])).
  { destruct (Nat.ltb _ _); [| exact H].
    apply list_elem_of_In. apply list_elem_of_In in H.
    eapply subseteq_drop. exact H. }
  apply in_app_or in Hin as [Hq | [<- | []]]; [left; exact Hq | right; reflexivity].
Qed.

Lemma well_formed_alloc ev e :
  well_formed e -> well_formed (snd (alloc ev e)).
Proof.
  unfold well_formed, alloc. cbn. intros H.
  eapply Forall_impl; [exact H |]. cbn. intros a [Ha Hs]. split; [lia |].
  rewrite lookup_insert_ne by lia. exact Hs.
Qed.

Lemma well_formed_handle beh (a : addr) e :
  well_formed e -> (a < next_addr e)%nat -> is_Some (objects e !! a) ->
  well_formed (snd (handle_event beh a e)).
Proof.
  intros Hwf Ha [event Ea]. unfold handle_event. rewrite Ea.
  assert (Hframe : forall b e1,
             well_formed e1 -> well_formed (snd (notify_at beh b e1))).
  { intros b e1 H1. destruct (EngineProps.notify_at_frame beh b e1) as (Hb & _ & Ho & Hn).
    cbn zeta in Hb, Ho, Hn. unfold well_formed. rewrite Hb, Ho, Hn. exact H1. }
  assert (Happend : well_formed (set_buffer (deque_append (buffer_size e) (buffer e) a) e)).
  { unfold well_formed. cbn. apply Forall_forall. intros x Hx.
    apply list_elem_of_In, deque_append_subset in Hx as [Hx | ->].
    - unfold well_formed in Hwf. rewrite Forall_forall in Hwf. apply Hwf.
      apply list_elem_of_In. exact Hx.
    - split; [exact Ha | exists event; exact Ea]. }
  destruct (is_cont event); [| apply Hframe; exact Happend].
  destruct (last (buffer e)) as [l|]; [| apply Hframe; exact Happend].
  destruct (objects e !! l) as [last_ev|] eqn:El; [| exact Hwf].
  apply Hframe. unfold well_formed. cbn.
  eapply Forall_impl; [exact Hwf |]. cbn. intros x [Hx Hs]. split; [exact Hx |].
  destruct (decide (l = x)) as [-> | Hne].
  - rewrite lookup_insert_eq. eauto.
  - rewrite lookup_insert_ne by exact Hne. exact Hs.
Qed.

Lemma well_formed_consume beh ev e :
  well_formed e -> well_formed (snd (consume beh ev e)).
Proof.
  intros Hwf. unfold consume.
  destruct (running e); [| exact Hwf]. destruct (paused e); [exact Hwf |].
  cbn [negb].
  pose proof (well_formed_alloc ev e Hwf) as H1.
  pose proof (well_formed_handle beh (next_addr e) (snd (alloc ev e)) H1) as H2.
  cbn [alloc snd fst] in H1, H2 |- *.
  destruct (handle_event beh (next_addr e) _) as [[u|x] e2] eqn:E;
    cbn [snd] in H2 |- *; apply H2; cbn; try lia;
    rewrite lookup_insert_eq; eauto.
Qed.

Lemma deque_extend_subset maxlen xs q a :
  In a (deque_extend maxlen q xs) -> In a q \/ In a xs.
Proof.
  revert q. induction xs as [|x xs IH]; intros q H; [left; exact H |].
  apply IH in H as [H | H]; [| right; right; exact H].
  apply deque_append_subset in H as [H | ->]; [left; exact H | right; left; reflexivity].
Qed.

Lemma alloc_all_spec evs e :
  buffer (snd (alloc_all evs e)) = buffer e
  /\ buffer_size (snd (alloc_all evs e)) = buffer_size e
  /\ (next_addr e <= next_addr (snd (alloc_all evs e)))%nat
  /\ (forall a : addr, (a < next_addr e)%nat -> is_Some (objects e !! a) ->
                       is_Some (objects (snd (alloc_all evs e)) !! a))
  /\ Forall (fun a : addr => (a < next_addr (snd (alloc_all evs e)))%nat
                             /\ is_Some (objects (snd (alloc_all evs e)) !! a))
            (fst (alloc_all evs e)).
Proof.
  revert e. induction evs as [|ev evs IH]; intros e.
  - cbn. repeat split; [lia | tauto | constructor].
  - cbn [alloc_all alloc].
    specialize (IH (set_objects (<[next_addr e:=ev]> (objects e)) (S (next_addr e)) e)).
    destruct (alloc_all evs _) as [als e2]. cbn [fst snd] in IH |- *.
    cbn [buffer buffer_size next_addr objects set_objects] in IH.
    destruct IH as (Hb & Hs & Hn & Hkeep & Hals).
    split; [exact Hb |]. split; [exact Hs |]. split; [lia |]. split.
    + intros a Ha Hsome. apply Hkeep; [lia |].
      rewrite lookup_insert_ne by lia. exact Hsome.
    + constructor; [| exact Hals]. split; [lia |].
      apply Hkeep; [lia |]. rewrite lookup_insert_eq. eauto.
Qed.

Lemma well_formed_load_snapshot events e :
  well_formed e -> well_formed (snd (load_snapshot events e)).
Proof.
  intros Hwf. unfold load_snapshot. destruct (has_source e); [| exact Hwf].
  cbn [negb].
  destruct (alloc_all_spec events e) as (Hb & Hs & Hn & Hkeep & Hals).
  destruct (alloc_all events e) as [als e1]. cbn [fst snd] in *.
  unfold well_formed. cbn. apply Forall_forall. intros a Ha.
  apply list_elem_of_In, deque_extend_subset in Ha as [Ha | Ha].
  - rewrite Hb in Ha. unfold well_formed in Hwf. rewrite Forall_forall in Hwf.
    destruct (Hwf a (proj2 (list_elem_of_In _ _) Ha)) as [Hlt Hsome].
    split; [lia | apply Hkeep; assumption].
  - rewrite Forall_forall in Hals. apply Hals. apply list_elem_of_In. exact Ha.
Qed.

(** Every operation keeps the engine well formed. *)
Lemma well_formed_apply beh o e : well_formed e -> well_formed (apply beh o e).
Proof.
  intros Hwf. destruct o; cbn [apply].
  - exact Hwf.
  - apply well_formed_load_snapshot. exact Hwf.
  - unfold start_streaming. destruct (running e); [exact Hwf |].
    destruct (has_source e); exact Hwf.
  - exact Hwf.
  - apply well_formed_consume. exact Hwf.
  - exact Hwf.
  - exact Hwf.
  - exact Hwf.
  - exact Hwf.
  - constructor.
  - constructor.
Qed.

(** So does every sequence of operations on a freshly built engine:
    each buffered reference is then an object of the store, older than
    the next event to arrive. *)
Lemma well_formed_reachable beh n e0 ops :
  init n = Return e0 -> well_formed (apply_all beh ops e0).
Proof.
  intros Hinit.
  assert (H0 : well_formed e0).
  { unfold init in Hinit. destruct (n <? 0)%Z; [discriminate |].
    injection Hinit as <-. constructor. }
  clear Hinit. revert e0 H0. induction ops as [|o ops IH]; intros e0 H0.
  - exact H0.
  - cbn [apply_all fold_left]. apply IH. apply well_formed_apply. exact H0.
Qed.

End EngineInvariant.

(** ** What a successful match tells *)

Module ReInv.
Import PyStr Re ReGroups StrFacts ReFacts.

Lemma m_chr_inv p s c k res :
  m (Chr p) s c k = Some res ->
  exists a s', s = String a s' /\ p a = true /\ k s' c = Some res.
Proof.
  destruct s as [|a s']; [discriminate |].
  rewrite m_chr_cons. destruct (p a) eqn:E; [| discriminate].
  intros H. exists a, s'. repeat split; assumption.
Qed.

Lemma m_eol_inv s c k res :
  m Eol s c k = Some res ->
  (s = "" \/ s = String newline "") /\ k s c = Some res.
Proof.
  destruct s as [|a [|b s']]; cbn [m].
  - intros H. split; [left; reflexivity | exact H].
  - destruct (Ascii.eqb a newline) eqn:E; [| discriminate].
    apply Ascii.eqb_eq in E. subst a. intros H. split; [right; reflexivity | exact H].
  - discriminate.
Qed.

(** A repetition of a class consumed a run of the class. *)
Lemma rep_chr_inv p lo hi k res :
  forall fuel n s c,
    rep_loop (m (Chr p)) lo hi k fuel n s c = Some res ->
    exists run rest,
      s = run +:+ rest /\ all_chars p run = true
      /\ (lo <= n + String.length run)%nat
      /\ k rest c = Some res.
Proof.
  induction fuel as [|fuel IH]; intros n s c H.
  - rewrite rep_loop_O in H. destruct (Nat.leb_spec lo n); [| discriminate].
    exists "", s. repeat split; [simpl; lia | exact H].
  - rewrite rep_loop_S in H. cbv zeta in H.
    assert (Hstop : (if Nat.leb lo n then k s c else None) = Some res ->
                    exists run rest, s = run +:+ rest /\ all_chars p run = true
                                     /\ (lo <= n + String.length run)%nat
                                     /\ k rest c = Some res).
    { intros Hs. destruct (Nat.leb_spec lo n); [| discriminate].
      exists "", s. repeat split; [simpl; lia | exact Hs]. }
    destruct (below n hi); [| exact (Hstop H)].
    destruct (m (Chr p) s c _) as [r1|] eqn:E; [| exact (Hstop H)].
    injection H as ->.
    apply m_chr_inv in E as (a & s' & -> & Ha & E).
    destruct (Nat.ltb _ _); [| discriminate].
    apply IH in E as (run & rest & -> & Hall & Hlo & Hk).
    exists (String a run), rest. rewrite append_cons. simpl. rewrite Ha, Hall.
    repeat split; [lia | exact Hk].
Qed.

(** A captured repetition of a class captured that run. *)
Lemma grp_rep_chr_inv g p lo hi s c k res :
  m (Grp g (Rep (Chr p) lo hi)) s c k = Some res ->
  exists run rest,
    s = run +:+ rest /\ all_chars p run = true
    /\ (lo <= String.length run)%nat
    /\ k rest ((g, run) :: c) = Some res.
Proof.
  rewrite m_grp, m_rep. intros H.
  apply rep_chr_inv in H as (run & rest & -> & Hall & Hlo & Hk).
  rewrite consumed_append in Hk. exists run, rest. repeat split; try assumption.
Qed.

Lemma only_app ns new1 new2 : only ns new1 -> only ns new2 -> only ns (new1 ++ new2).
Proof. unfold only. intros H1 H2. apply Forall_app. split; assumption. Qed.

Lemma only_weaken ns ns' new :
  (forall n, In n ns -> In n ns') -> only ns new -> only ns' new.
Proof.
  unfold only. intros Hsub H. eapply Forall_impl; [exact H |].
  intros kv Hkv. apply Hsub. exact Hkv.
Qed.

(** The loop of a repetition reaches its continuation when its body
    does, adding captures of the body's groups only. *)
Lemma rep_loop_reaches step ns lo hi k :
  (forall s c k0 res,
      step s c k0 = Some res ->
      exists s' new, k0 s' (new ++ c) = Some res /\ only ns new) ->
  forall fuel n s c res,
    rep_loop step lo hi k fuel n s c = Some res ->
    exists s' new, k s' (new ++ c) = Some res /\ only ns new.
Proof.
  intros Hstep. induction fuel as [|fuel IH]; intros n s c res H.
  - rewrite rep_loop_O in H. destruct (Nat.leb lo n); [| discriminate].
    exists s, []. split; [exact H | constructor].
  - rewrite rep_loop_S in H. cbv zeta in H.
    assert (Hstop : (if Nat.leb lo n then k s c else None) = Some res ->
                    exists s' new, k s' (new ++ c) = Some res /\ only ns new).
    { intros Hs. destruct (Nat.leb lo n); [| discriminate].
      exists s, []. split; [exact Hs | constructor]. }
    destruct (below n hi); [| exact (Hstop H)].
    destruct (step s c _) as [r1|] eqn:E; [| exact (Hstop H)].
    injection H as ->.
    apply Hstep in E as (s1 & new1 & E & Hn1).
    destruct (Nat.ltb _ _); [| discriminate].
    apply IH in E as (s2 & new2 & E & Hn2).
    exists s2, (new2 ++ new1). rewrite <- app_assoc.
    split; [exact E | apply only_app; assumption].
Qed.

(** A successful match reached its continuation, with new captures for
    groups of the pattern only. *)
Lemma m_reaches r :
  forall s c k res,
    m r s c k = Some res ->
    exists s' new, k s' (new ++ c) = Some res /\ only (groups r) new.
Proof.
  induction r as [p | r1 IH1 r2 IH2 | r1 IH1 lo hi | g r1 IH1 |]; intros s c k res H.
  - apply m_chr_inv in H as (a & s' & _ & _ & H).
    exists s', []. split; [exact H | constructor].
  - rewrite m_seq in H. apply IH1 in H as (s1 & new1 & H & Hn1).
    apply IH2 in H as (s2 & new2 & H & Hn2).
    exists s2, (new2 ++ new1). rewrite <- app_assoc. split; [exact H |].
    cbn [groups]. apply only_app.
    + eapply only_weaken; [| exact Hn2]. intros n Hn. apply in_or_app. right. exact Hn.
    + eapply only_weaken; [| exact Hn1]. intros n Hn. apply in_or_app. left. exact Hn.
  - rewrite m_rep in H. cbn [groups].
    eapply rep_loop_reaches; [| exact H]. intros s0 c0 k0 res0. apply IH1.
  - rewrite m_grp in H. apply IH1 in H as (s1 & new1 & H & Hn1).
    exists s1, ((g, consumed s s1) :: new1). split; [exact H |].
    cbn [groups]. constructor; [left; reflexivity |].
    eapply only_weaken; [| exact Hn1]. intros n Hn. right. exact Hn.
  - apply m_eol_inv in H as [_ H]. exists s, []. split; [exact H | constructor].
Qed.

(** Captures of other groups do not hide a group. *)
Lemma group_skip ns new c g :
  only ns new -> ~ In g ns -> group g (new ++ c) = group g c.
Proof.
  unfold only. intros Hn Hg. induction Hn as [|[n0 s0] new Hk _ IH]; [reflexivity |].
  cbn [app group]. cbn [fst] in Hk.
  destruct (Nat.eqb_spec n0 g) as [-> | _]; [contradiction | exact IH].
Qed.

(** The loop of a repetition continues on a suffix of its subject. *)
Lemma rep_loop_suffix step lo hi k :
  (forall s c k0 res,
      step s c k0 = Some res ->
      exists pre s' c', s = pre +:+ s' /\ k0 s' c' = Some res) ->
  forall fuel n s c res,
    rep_loop step lo hi k fuel n s c = Some res ->
    exists pre s' c', s = pre +:+ s' /\ k s' c' = Some res.
Proof.
  intros Hstep. induction fuel as [|fuel IH]; intros n s c res H.
  - rewrite rep_loop_O in H. destruct (Nat.leb lo n); [| discriminate].
    exists "", s, c. split; [reflexivity | exact H].
  - rewrite rep_loop_S in H. cbv zeta in H.
    assert (Hstop : (if Nat.leb lo n then k s c else None) = Some res ->
                    exists pre s' c', s = pre +:+ s' /\ k s' c' = Some res).
    { intros Hs. destruct (Nat.leb lo n); [| discriminate].
      exists "", s, c. split; [reflexivity | exact Hs]. }
    destruct (below n hi); [| exact (Hstop H)].
    destruct (step s c _) as [r1|] eqn:E; [| exact (Hstop H)].
    injection H as ->.
    apply Hstep in E as (pre1 & s1 & c1 & -> & E).
    destruct (Nat.ltb _ _); [| discriminate].
    apply IH in E as (pre2 & s2 & c2 & -> & E).
    exists (pre1 +:+ pre2), s2, c2. rewrite append_assoc. split; [reflexivity | exact E].
Qed.

(** A successful match continued on a suffix of its subject. *)
Lemma m_suffix r :
  forall s c k res,
    m r s c k = Some res ->
    exists pre s' c', s = pre +:+ s' /\ k s' c' = Some res.
Proof.
  induction r as [p | r1 IH1 r2 IH2 | r1 IH1 lo hi | g r1 IH1 |]; intros s c k res H.
  - apply m_chr_inv in H as (a & s' & -> & _ & H).
    exists (String a ""), s', c. split; [reflexivity | exact H].
  - rewrite m_seq in H. apply IH1 in H as (pre1 & s1 & c1 & -> & H).
    apply IH2 in H as (pre2 & s2 & c2 & -> & H).
    exists (pre1 +:+ pre2), s2, c2. rewrite append_assoc. split; [reflexivity | exact H].
  - rewrite m_rep in H. eapply rep_loop_suffix; [| exact H].
    intros s0 c0 k0 res0. apply IH1.
  - rewrite m_grp in H. apply IH1 in H as (pre1 & s1 & c1 & -> & H).
    exists pre1, s1, ((g, consumed (pre1 +:+ s1) s1) :: c1). split; [reflexivity | exact H].
  - apply m_eol_inv in H as [_ H]. exists "", s, c. split; [reflexivity | exact H].
Qed.

(** With nothing required, a loop does not fail where its continuation
    succeeds. *)
Lemma rep_loop_not_fail step hi k fuel n s c :
  k s c <> None -> rep_loop step 0 hi k fuel n s c <> None.
Proof.
  intros Hk. destruct fuel as [|fuel].
  - rewrite rep_loop_O. exact Hk.
  - rewrite rep_loop_S. cbv zeta. cbn [Nat.leb].
    destruct (below n hi); [| exact Hk].
    destruct (step s c _); [discriminate | exact Hk].
Qed.

(** A starred class in front of a continuation that, where it succeeds,
    succeeds one character later too: the star takes the whole run of the
    class. *)
Lemma star_chr_greedy p k res :
  (forall a s c, k (String a s) c <> None -> k s c <> None) ->
  forall fuel n s c,
    (String.length s < fuel)%nat ->
    rep_loop (m (Chr p)) 0 None k fuel n s c = Some res ->
    exists run rest,
      s = run +:+ rest /\ all_chars p run = true
      /\ Spec.run p rest = "" /\ k rest c = Some res.
Proof.
  intros Hclosed. induction fuel as [|fuel IH]; intros n s c Hfuel H; [lia |].
  rewrite rep_loop_S in H. cbv zeta in H. cbn [below Nat.leb] in H.
  destruct s as [|a s'].
  - rewrite m_chr_nil in H. exists "", "". repeat split. exact H.
  - rewrite m_chr_cons in H. destruct (p a) eqn:Ea.
    + assert (Hlt : Nat.ltb (String.length s') (String.length (String a s')) = true)
        by (apply Nat.ltb_lt; simpl; lia).
      rewrite Hlt in H.
      destruct (rep_loop (m (Chr p)) 0 None k fuel (S n) s' c) as [r1|] eqn:E.
      * injection H as ->. simpl in Hfuel.
        apply IH in E as (run & rest & -> & Hall & Hrest & Hk); [| lia].
        exists (String a run), rest. rewrite append_cons. simpl. rewrite Ea, Hall.
        repeat split; assumption.
      * exfalso. apply (rep_loop_not_fail (m (Chr p)) None k fuel (S n) s' c); [| exact E].
        apply (Hclosed a). rewrite H. discriminate.
    + exists "", (String a s'). rewrite append_nil_l. simpl. rewrite Ea.
      repeat split. exact H.
Qed.

End ReInv.

(** ** More on the parser *)

Module ParserMore.
Import Event Parser PyStr Re StrFacts ReFacts.

Lemma dmesg_needs_bracket a s :
  Ascii.eqb "[" a = false -> re_match DMESG_PATTERN (String a s) = None.
Proof.
  intros H. unfold re_match, DMESG_PATTERN. cbn [seqs].
  rewrite m_seq. unfold chr at 1. rewrite m_chr_cons, H. reflexivity.
Qed.

Lemma kernel_prefix_needs_angle a s :
  Ascii.eqb "<" a = false -> re_match KERNEL_PREFIX (String a s) = None.
Proof.
  intros H. unfold re_match, KERNEL_PREFIX. cbn [seqs].
  rewrite m_seq. unfold chr at 1. rewrite m_chr_cons, H. reflexivity.
Qed.

(** X1: a line whose text, once stripped, starts with neither [[] nor
    [<] is dropped: the parser returns nothing for it.  The lines of
    journalctl's short output, which start with a month name, are of
    that kind. *)
Theorem X1_other_lines_are_dropped h line source a s
  (Htext : strip line = String a s)
  (Hbracket : a <> "["%char)
  (Hangle : a <> "<"%char) :
  parse_dmesg_line h line source = None.
Proof.
  unfold parse_dmesg_line.
  destruct (String.eqb line ""); [reflexivity |].
  rewrite Htext. cbn [String.eqb].
  rewrite dmesg_needs_bracket.
  - unfold _parse_kernel_prefix. rewrite kernel_prefix_needs_angle; [reflexivity |].
    apply Ascii.eqb_neq. congruence.
  - apply Ascii.eqb_neq. congruence.
Qed.

(** A line as [journalctl -k -o short] prints it. *)
Lemma X1_witness :
  parse_dmesg_line Samples.host0
    "Nov 03 12:00:01 host kernel: usb 1-1: new USB device" "journal" = None.
Proof.
  apply (X1_other_lines_are_dropped Samples.host0
           "Nov 03 12:00:01 host kernel: usb 1-1: new USB device" "journal"
           "N" "ov 03 12:00:01 host kernel: usb 1-1: new USB device").
  - vm_compute; reflexivity.
  - discriminate.
  - discriminate.
Defined.

Lemma or_default_nonempty o d : d <> "" -> or_default o d <> "".
Proof. intros Hd. destruct o as [[|c s]|]; simpl; congruence. Qed.

(** X2: every event the parser returns has a subsystem, and it is not
    the empty string: where the line names none it is KERNEL. *)
Theorem X2_subsystem_is_never_empty h line source ev
  (Haccepted : parse_dmesg_line h line source = Some ev) :
  exists s, subsystem ev = Some s /\ s <> "".
Proof.
  unfold parse_dmesg_line in Haccepted.
  destruct (String.eqb line ""); [discriminate |].
  destruct (String.eqb (strip line) ""); [discriminate |].
  destruct (re_match DMESG_PATTERN (strip line)) as [c|].
  - destruct (re_match PRIORITY_PATTERN _) as [pc|];
      destruct (re_match PROCESS_PATTERN _) as [pm|];
      try destruct (split_subsystem _) as [sub msg];
      injection Haccepted as <-; cbn [subsystem];
      (eexists; split; [reflexivity | apply or_default_nonempty; discriminate]).
  - unfold _parse_kernel_prefix in Haccepted.
    destruct (re_match KERNEL_PREFIX _); [| discriminate].
    injection Haccepted as <-. cbn [subsystem].
    eexists; split; [reflexivity | apply or_default_nonempty; discriminate].
Qed.

(** A line without any subsystem. *)
Lemma X2_witness :
  exists ev s,
    parse_dmesg_line Samples.host0 "[5.0] no subsystem here at all" "dmesg" = Some ev
    /\ subsystem ev = Some s /\ s <> "".
Proof.
  destruct (parse_dmesg_line Samples.host0 "[5.0] no subsystem here at all" "dmesg")
    as [ev|] eqn:E; [| vm_compute in E; discriminate E].
  destruct (X2_subsystem_is_never_empty Samples.host0
              "[5.0] no subsystem here at all" "dmesg" ev E) as (s & Hs & Hne).
  exists ev, s. split; [reflexivity | split; assumption].
Defined.

(** X3: keyword inference never answers CRIT: its result is one of
    EMERG, ALERT, ERR, WARN, NOTICE, DEBUG and INFO, so an event is CRIT
    only through an explicit priority digit. *)
Theorem X3_inference_never_yields_crit message :
  In (_infer_severity message)
     ["EMERG"; "ALERT"; "ERR"; "WARN"; "NOTICE"; "DEBUG"; "INFO"]
  /\ _infer_severity message <> "CRIT".
Proof.
  unfold _infer_severity.
  repeat (match goal with
          | |- context [if ?b then _ else _] => destruct b
          end; [split; [simpl; tauto | discriminate] |]).
  split; [simpl; tauto | discriminate].
Qed.

Lemma digit_value_nonneg c : isdecimal c = true -> (0 <= digit_value c)%Z.
Proof.
  unfold isdecimal, digit_value. intros H.
  apply andb_true_iff in H as [H _]. apply N.leb_le in H. lia.
Qed.

Lemma digits_value_from_nonneg s :
  all_chars isdecimal s = true ->
  forall acc, (0 <= acc)%Z -> (0 <= digits_value_from acc s)%Z.
Proof.
  induction s as [|c s IH]; intros Hall acc Hacc; [exact Hacc |].
  simpl in Hall. apply andb_true_iff in Hall as [Hc Hs].
  cbn [digits_value_from]. apply IH; [exact Hs |].
  pose proof (digit_value_nonneg c Hc). lia.
Qed.

Lemma digits_value_nonneg s :
  all_chars isdecimal s = true -> (0 <= digits_value s)%Z.
Proof. intros H. apply digits_value_from_nonneg; [exact H | lia]. Qed.

(** What [int] makes of a run of digits is not negative. *)
Lemma int_digits_nonneg d z :
  all_chars isdecimal d = true -> int d = Some z -> (0 <= z)%Z.
Proof.
  intros Hall. destruct d as [|a d]; [intros H; discriminate H |].
  rewrite (IntFacts.int_of_digits (String a d)) by (congruence || exact Hall).
  destruct (_ <=? _)%nat; [| intros H; discriminate H].
  intros [= <-]. apply digits_value_nonneg. exact Hall.
Qed.

(** A chain of patterns reaches its last one, with captures of the
    groups of the patterns before. *)
Lemma seqs_reaches rs last :
  forall s c k res,
    m (seqs rs last) s c k = Some res ->
    exists s' new,
      m last s' (new ++ c) k = Some res
      /\ ReGroups.only (concat (map ReGroups.groups rs)) new.
Proof.
  induction rs as [|r rs IH]; intros s c k res H.
  - exists s, []. split; [exact H | constructor].
  - cbn [seqs] in H. rewrite m_seq in H.
    apply ReInv.m_reaches in H as (s1 & new1 & H & Hn1).
    apply IH in H as (s2 & new2 & H & Hn2).
    exists s2, (new2 ++ new1). rewrite <- app_assoc. split; [exact H |].
    cbn [map concat]. apply ReInv.only_app.
    + eapply ReInv.only_weaken; [| exact Hn2]. intros n Hn. apply in_or_app. right. exact Hn.
    + eapply ReInv.only_weaken; [| exact Hn1]. intros n Hn. apply in_or_app. left. exact Hn.
Qed.

(** The pid group of the process pattern holds digits. *)
Lemma process_pid_digits rest pm :
  re_match PROCESS_PATTERN rest = Some pm ->
  exists digits, group 2 pm = Some digits /\ all_chars isdecimal digits = true.
Proof.
  unfold re_match.
  change PROCESS_PATTERN
    with (seqs [Grp 1 (plus (Chr (none_of "[]:"))); chr "["]
               (Seq (Grp 2 (plus (Chr digit)))
                    (seqs [chr "]"; chr ":"; star (Chr space); Grp 3 (star (Chr dot))] Eol))).
  intros H. apply seqs_reaches in H as (s1 & new1 & H & _).
  rewrite m_seq in H. unfold plus in H.
  apply ReInv.grp_rep_chr_inv in H as (digits & s2 & _ & Hall & _ & H).
  apply ReInv.m_reaches in H as (s3 & new3 & H & Hn3).
  unfold finish in H. injection H as <-.
  exists digits. split; [| exact Hall].
  rewrite (ReInv.group_skip _ _ _ 2 Hn3).
  - cbn [group Nat.eqb]. reflexivity.
  - cbn. intros [H | H]; [discriminate | exact H].
Qed.

Lemma re_search_match r s c :
  re_search r s = Some c -> exists s0, re_match r s0 = Some c.
Proof.
  induction s as [|a s IH]; cbn [re_search].
  - destruct (re_match r "") eqn:E; [| discriminate].
    intros [= <-]. exists "". exact E.
  - destruct (re_match r (String a s)) eqn:E.
    + intros [= <-]. exists (String a s). exact E.
    + exact IH.
Qed.

(** A pattern that ends in a captured run of digits captures digits. *)
Lemma trailing_digits rs s c :
  ~ In 1%nat (concat (map ReGroups.groups rs)) ->
  re_match (seqs rs (Grp 1 (plus (Chr digit)))) s = Some c ->
  exists digits, group 1 c = Some digits /\ all_chars isdecimal digits = true.
Proof.
  intros Hg. unfold re_match. intros H.
  apply seqs_reaches in H as (s1 & new1 & H & _).
  unfold plus in H.
  apply ReInv.grp_rep_chr_inv in H as (digits & s2 & _ & Hall & _ & H).
  unfold finish in H. injection H as <-.
  exists digits. split; [| exact Hall]. cbn [group Nat.eqb]. reflexivity.
Qed.

Lemma first_cpu_nonneg patterns message z :
  Forall (fun r => forall s c, re_match r s = Some c ->
                     exists digits, group 1 c = Some digits
                                    /\ all_chars isdecimal digits = true) patterns ->
  first_cpu patterns message = Some z -> (0 <= z)%Z.
Proof.
  induction 1 as [|r rs Hr _ IH]; cbn [first_cpu]; [discriminate |].
  destruct (re_search r message) as [c|] eqn:E; [| exact IH].
  apply re_search_match in E as (s0 & E).
  destruct (Hr s0 c E) as (digits & Hg & Hall). rewrite Hg.
  destruct (int digits) as [cpu|] eqn:Ei; [| exact IH].
  intros [= <-]. exact (int_digits_nonneg digits cpu Hall Ei).
Qed.

Lemma extract_cpu_nonneg message z : _extract_cpu message = Some z -> (0 <= z)%Z.
Proof.
  unfold _extract_cpu. destruct (String.eqb message ""); [discriminate |].
  apply first_cpu_nonneg. unfold CPU_PATTERNS.
  repeat constructor; intros s c; apply trailing_digits; cbn; tauto.
Qed.

(** X4: the pid and the cpu of a parsed event, when present, are
    non-negative integers: both are read from a run of digits. *)
Theorem X4_pid_and_cpu_are_not_negative h line source ev
  (Haccepted : parse_dmesg_line h line source = Some ev) :
  (forall p, pid ev = Some p -> (0 <= p)%Z)
  /\ (forall c, cpu ev = Some c -> (0 <= c)%Z).
Proof.
  unfold parse_dmesg_line in Haccepted.
  destruct (String.eqb line ""); [discriminate |].
  destruct (String.eqb (strip line) ""); [discriminate |].
  destruct (re_match DMESG_PATTERN (strip line)) as [c|].
  - destruct (re_match PRIORITY_PATTERN _) as [pc|];
      destruct (re_match PROCESS_PATTERN _) as [pm|] eqn:Epm;
      try destruct (split_subsystem _) as [sub msg];
      injection Haccepted as <-; cbn [pid cpu];
      (split; [| intros z Hz; exact (extract_cpu_nonneg _ _ Hz)]);
      try (intros p Hp; discriminate Hp);
      destruct (process_pid_digits _ _ Epm) as (digits & Hg & Hall);
      rewrite Hg; intros p Hp; exact (int_digits_nonneg digits p Hall Hp).
  - unfold _parse_kernel_prefix in Haccepted.
    destruct (re_match KERNEL_PREFIX _); [| discriminate].
    injection Haccepted as <-. cbn [pid cpu]. split; intros z Hz; discriminate Hz.
Qed.

(** The segfault line of a shell. *)
Lemma X4_witness :
  exists ev,
    parse_dmesg_line Samples.host0
      "[102484.883686] zsh[2481341]: segfault at 10 likely on CPU 4 (core 14)" "dmesg"
    = Some ev
    /\ (forall p, pid ev = Some p -> (0 <= p)%Z)
    /\ (forall c, cpu ev = Some c -> (0 <= c)%Z).
Proof.
  destruct (parse_dmesg_line Samples.host0
              "[102484.883686] zsh[2481341]: segfault at 10 likely on CPU 4 (core 14)"
              "dmesg") as [ev|] eqn:E; [| vm_compute in E; discriminate E].
  exists ev. split; [reflexivity |].
  exact (X4_pid_and_cpu_are_not_negative _ _ _ ev E).
Defined.

(** The matcher steps on a captured run followed by something the
    class does not start. *)
Lemma grp_rep_chr_success g p lo k run rest c res :
  all_chars p run = true ->
  Spec.run p rest = "" ->
  (lo <= String.length run)%nat ->
  k rest ((g, run) :: c) = Some res ->
  m (Grp g (Rep (Chr p) lo None)) (run +:+ rest) c k = Some res.
Proof.
  intros Hall Hrest Hlo Hk. rewrite m_grp, m_rep.
  apply rep_chr_success; try assumption; try lia.
  rewrite consumed_append. exact Hk.
Qed.

Lemma rep_chr_success' p lo k run rest c res :
  all_chars p run = true ->
  Spec.run p rest = "" ->
  (lo <= String.length run)%nat ->
  k rest c = Some res ->
  m (Rep (Chr p) lo None) (run +:+ rest) c k = Some res.
Proof.
  intros Hall Hrest Hlo Hk. rewrite m_rep.
  apply rep_chr_success; try assumption; lia.
Qed.

Lemma run_lstrip p s : Spec.run p (lstrip_by p s) = "".
Proof.
  destruct (lstrip_by p s) as [|a r] eqn:E; [reflexivity |].
  simpl. rewrite (lstrip_by_head _ _ _ _ E). reflexivity.
Qed.

Lemma lstrip_by_all p (q : ascii -> bool) s :
  all_chars q s = true -> all_chars q (lstrip_by p s) = true.
Proof.
  induction s as [|c s IH]; [reflexivity |].
  intros H. cbn [lstrip_by]. destruct (p c); [| exact H].
  simpl in H. apply andb_true_iff in H as [_ H]. apply IH. exact H.
Qed.

Lemma strip_all (q : ascii -> bool) s :
  all_chars q s = true -> all_chars q (strip s) = true.
Proof. intros H. unfold strip. apply lstrip_by_all, rstrip_by_all. exact H. Qed.

Lemma no_newline_dot s : has_char newline s = false -> all_chars dot s = true.
Proof. intros H. apply has_char_false in H. exact H. Qed.

(** The process pattern on [name[digits]:tail]. *)
Lemma process_match name digits tail :
  name <> "" -> all_chars Spec.name_char name = true ->
  digits <> "" -> all_chars isdecimal digits = true ->
  all_chars dot tail = true ->
  re_match PROCESS_PATTERN
    (name +:+ String "[" (digits +:+ String "]" (String ":" tail)))
  = Some [(3, lstrip_by isspace tail); (2, digits); (1, name)]%nat.
Proof.
  intros Hn Hnall Hd Hdall Hdot.
  unfold re_match, PROCESS_PATTERN. cbn [seqs].
  rewrite m_seq. unfold plus at 1.
  apply grp_rep_chr_success; [exact Hnall | reflexivity | destruct name; [congruence | simpl; lia] |].
  rewrite m_seq. unfold chr at 1. rewrite m_chr_cons. cbn [Ascii.eqb Bool.eqb].
  rewrite m_seq. unfold plus at 1.
  apply grp_rep_chr_success; [exact Hdall | reflexivity | destruct digits; [congruence | simpl; lia] |].
  rewrite m_seq. unfold chr at 1. rewrite m_chr_cons. cbn [Ascii.eqb Bool.eqb].
  rewrite m_seq. unfold chr at 1. rewrite m_chr_cons. cbn [Ascii.eqb Bool.eqb].
  rewrite m_seq. unfold star at 1.
  rewrite (run_split space tail) at 1.
  apply rep_chr_success'; [apply run_all | apply run_lstrip | lia |].
  rewrite m_seq. unfold star at 1.
  rewrite <- (append_nil_r (lstrip_by space tail)) at 1.
  apply grp_rep_chr_success; [apply lstrip_by_all; exact Hdot | reflexivity | lia |].
  rewrite m_eol_nil. reflexivity.
Qed.

Lemma priority_no_match_before sub x tail :
  Spec.priority_prefixed sub = false ->
  Ascii.eqb "<" x = false -> digit x = false -> Ascii.eqb ">" x = false ->
  re_match PRIORITY_PATTERN (sub +:+ String x tail) = None.
Proof.
  intros Hp Hx0 Hx1 Hx2. unfold re_match, PRIORITY_PATTERN. cbn [seqs].
  rewrite m_seq. unfold chr at 1.
  destruct sub as [|a sub].
  { rewrite append_nil_l, m_chr_cons, Hx0. reflexivity. }
  rewrite append_cons, m_chr_cons.
  destruct (Ascii.eqb "<" a) eqn:Ea; [| reflexivity].
  apply Ascii.eqb_eq in Ea. subst a.
  rewrite m_seq, m_grp.
  destruct sub as [|b sub].
  { rewrite append_nil_l, m_chr_cons, Hx1. reflexivity. }
  rewrite append_cons, m_chr_cons.
  destruct (digit b) eqn:Eb; [| reflexivity].
  rewrite m_seq. unfold chr at 1.
  destruct sub as [|c sub].
  { rewrite append_nil_l, m_chr_cons, Hx2. reflexivity. }
  rewrite append_cons, m_chr_cons.
  destruct (Ascii.eqb ">" c) eqn:Ec; [| reflexivity].
  apply Ascii.eqb_eq in Ec. subst c.
  simpl in Hp. unfold digit in Eb. congruence.
Qed.

Lemma digit_dot a : isdecimal a = true -> dot a = true.
Proof.
  unfold isdecimal, dot, newline, ord.
  destruct a as [[] [] [] [] [] [] [] []]; vm_compute; intros H; congruence.
Qed.

Lemma strip_process_line t name digits msg :
  strip ("[" +:+ t +:+ "] " +:+ name +:+ "[" +:+ digits +:+ "]: " +:+ msg)
  = String "[" (t +:+ String "]" (String " "
      (name +:+ String "[" (digits +:+ String "]"
         (String ":" (rstrip_by isspace (String " " msg))))))).
Proof.
  unfold strip.
  replace ("[" +:+ t +:+ "] " +:+ name +:+ "[" +:+ digits +:+ "]: " +:+ msg)
    with (String "[" (t +:+ String "]" (String " "
            (name +:+ String "[" (digits +:+ String "]" ""))))
          +:+ String ":" (String " " msg)).
  2:{ repeat (rewrite append_cons || rewrite append_nil_l || rewrite append_assoc).
      reflexivity. }
  rewrite rstrip_by_append by reflexivity.
  repeat (rewrite append_cons || rewrite append_nil_l || rewrite append_assoc).
  reflexivity.
Qed.

(** X5: a line [[t] name[digits]: msg], where [t] is a decimal number,
    the name is not empty, has no whitespace, bracket or colon and does
    not start with a priority prefix, the digits are a non-empty run of
    digits and [msg] has no newline, is read as the message of a
    process: the subsystem is the name and the message [msg] stripped.
    The pid is the number the digits denote when there are no more than
    4300 of them; beyond that [int] refuses them and the event has no
    pid. *)
Theorem X5_process_line h source t name digits msg
  (Ht : Spec.decimal_number t = true)
  (Hne : name <> "")
  (Hname : all_chars Spec.name_char name = true)
  (Hws : all_chars Spec.no_space name = true)
  (Hprio : Spec.priority_prefixed name = false)
  (Hdne : digits <> "")
  (Hdigits : all_chars isdecimal digits = true)
  (Hnl : has_char newline msg = false) :
  exists ev,
    parse_dmesg_line h
      ("[" +:+ t +:+ "] " +:+ name +:+ "[" +:+ digits +:+ "]: " +:+ msg) source
    = Some ev
    /\ timestamp_monotonic ev = float t
    /\ subsystem ev = Some name
    /\ pid ev = (if (String.length digits <=? 4300)%nat
                then Some (digits_value digits) else None)
    /\ message ev = strip msg.
Proof.
  destruct (LineProps.decimal_number_parts t Ht) as (Htne & Hdd & _).
  set (tail := rstrip_by isspace (String " " msg)).
  set (R := name +:+ String "[" (digits +:+ String "]" (String ":" tail))).
  assert (Htail : lstrip_by isspace tail = strip msg).
  { unfold tail. change (lstrip_by isspace (rstrip_by isspace (String " " msg)))
      with (strip (String " " msg)). apply strip_leading. reflexivity. }
  assert (Htaildot : all_chars dot tail = true).
  { unfold tail. apply rstrip_by_all. cbn [all_chars].
    apply andb_true_iff. split; [reflexivity | apply no_newline_dot; exact Hnl]. }
  assert (HR : exists a r, R = String a r /\ isspace a = false).
  { unfold R. destruct name as [|a name']; [congruence |].
    eexists a, _. split; [reflexivity |].
    simpl in Hws. apply andb_true_iff in Hws as [Ha _].
    apply negb_true_iff in Ha. exact Ha. }
  assert (HstripR : strip R = R).
  { unfold strip, R.
    replace (name +:+ String "[" (digits +:+ String "]" (String ":" tail)))
      with ((name +:+ String "[" (digits +:+ String "]" "")) +:+ String ":" tail).
    2:{ repeat (rewrite append_cons || rewrite append_nil_l || rewrite append_assoc).
        reflexivity. }
    rewrite rstrip_by_append by reflexivity.
    unfold tail. rewrite rstrip_by_idem. fold tail.
    repeat (rewrite append_cons || rewrite append_nil_l || rewrite append_assoc).
    fold R. destruct HR as (a & r & -> & Ha). simpl. rewrite Ha. reflexivity. }
  assert (HRdot : all_chars dot R = true).
  { unfold R. rewrite all_chars_append. apply andb_true_iff. split.
    - eapply all_chars_impl; [| exact Hws]. exact LineProps.no_space_dot.
    - cbn [all_chars]. apply andb_true_iff. split; [reflexivity |].
      rewrite all_chars_append. apply andb_true_iff. split.
      + eapply all_chars_impl; [| exact Hdigits]. exact digit_dot.
      + cbn [all_chars]. rewrite Htaildot. reflexivity. }
  assert (Hmatch : re_match DMESG_PATTERN (String "[" (t +:+ String "]" (String " " R)))
                   = Some [(2, R); (1, t)]%nat).
  { apply dmesg_match; try assumption.
    destruct HR as (a & r & -> & Ha). simpl.
    change (space a) with (isspace a). rewrite Ha. reflexivity. }
  assert (Hparse :
    parse_dmesg_line h
      ("[" +:+ t +:+ "] " +:+ name +:+ "[" +:+ digits +:+ "]: " +:+ msg) source
    = Some {| timestamp_monotonic := float t;
              timestamp_realtime :=
                Some match float t, BOOT_TIME h with
                     | Some t0, Some b =>
                         realtime h (Float64.add (Float64.round b) t0)
                     | _, _ => now h
                     end;
              severity :=
                (let severity := _infer_severity (strip msg) in
                 if String.eqb severity "" then "INFO" else _normalize_severity severity);
              subsystem := Some name;
              message := strip msg;
              raw := rstrip_newline
                       ("[" +:+ t +:+ "] " +:+ name +:+ "[" +:+ digits +:+ "]: " +:+ msg);
              source := source;
              event_id := uuid4 h;
              cpu := _extract_cpu (strip msg);
              pid := (if (String.length digits <=? 4300)%nat
                      then Some (digits_value digits) else None);
              annotations :=
                (if _is_continuation_line (strip msg)
                 then {[ "continuation" := PyBool true ]} else ∅);
              plugin_metadata := ∅ |}).
  { unfold parse_dmesg_line. rewrite strip_process_line. fold tail. fold R.
    rewrite append_cons, append_nil_l. cbn [String.eqb].
    rewrite Hmatch. cbn [group Nat.eqb].
    rewrite (LineProps.parse_timestamp_decimal t Ht).
    assert (Hor : or_default (Some R) "" = R).
    { destruct HR as (a & r & -> & _). reflexivity. }
    rewrite Hor, HstripR.
    unfold R at 1 2.
    rewrite (priority_no_match_before name "[" _ Hprio eq_refl eq_refl eq_refl).
    rewrite (process_match name digits tail Hne Hname Hdne Hdigits Htaildot).
    cbn [group Nat.eqb]. rewrite Htail.
    rewrite (IntFacts.int_of_digits digits Hdne Hdigits).
    assert (Hn : or_default (Some name) "KERNEL" = name).
    { destruct name; [congruence | reflexivity]. }
    assert (Hm : or_default (Some (strip msg)) "" = strip msg).
    { destruct (strip msg); reflexivity. }
    rewrite Hn, Hm. reflexivity. }
  eexists. split; [exact Hparse |]. repeat split.
Qed.

(** The segfault of a shell. *)
Lemma X5_witness :
  exists ev,
    parse_dmesg_line Samples.host0
      "[102484.883686] zsh[2481341]: segfault at 10 ip 0000555a3852af74" "dmesg"
    = Some ev
    /\ subsystem ev = Some "zsh"
    /\ pid ev = Some 2481341%Z
    /\ message ev = "segfault at 10 ip 0000555a3852af74".
Proof.
  destruct (X5_process_line Samples.host0 "dmesg" "102484.883686" "zsh" "2481341"
              "segfault at 10 ip 0000555a3852af74")
    as (ev & Hp & _ & Hs & Hpid & Hm).
  - reflexivity.
  - discriminate.
  - reflexivity.
  - reflexivity.
  - reflexivity.
  - discriminate.
  - reflexivity.
  - reflexivity.
  - exists ev. split; [exact Hp |]. split; [exact Hs |]. split; [exact Hpid | exact Hm].
Defined.

Lemma consumed_one a s : consumed (String a s) s = String a "".
Proof. exact (consumed_append (String a "") s). Qed.

(** The inline priority pattern on [<d>rest]. *)
Lemma priority_match d rest :
  digit d = true -> all_chars dot rest = true ->
  re_match PRIORITY_PATTERN (String "<" (String d (String ">" rest)))
  = Some [(2, rest); (1, String d "")]%nat.
Proof.
  intros Hd Hdot. unfold re_match, PRIORITY_PATTERN. cbn [seqs].
  rewrite m_seq. unfold chr at 1. rewrite m_chr_cons. cbn [Ascii.eqb Bool.eqb].
  rewrite m_seq, m_grp, m_chr_cons, Hd, consumed_one.
  rewrite m_seq. unfold chr at 1. rewrite m_chr_cons. cbn [Ascii.eqb Bool.eqb].
  rewrite m_seq. unfold star at 1.
  rewrite <- (append_nil_r rest) at 1.
  apply grp_rep_chr_success; [exact Hdot | reflexivity | lia |].
  rewrite m_eol_nil. reflexivity.
Qed.

Lemma settled_severity (prefix : option string) message :
  (forall s, prefix = Some s -> In s Spec.severity_enumeration) ->
  (let severity :=
     match prefix with
     | Some "" | None => _infer_severity message
     | Some s => s
     end in
   if String.eqb severity "" then "INFO" else _normalize_severity severity)
  = match prefix with
    | Some s => s
    | None => _infer_severity message
    end.
Proof.
  intros Hp. cbv zeta.
  assert (Hstd : forall s, In s Spec.severity_enumeration ->
                           (if String.eqb s "" then "INFO" else _normalize_severity s) = s).
  { intros s Hs. rewrite (ParserProps.normalize_standard s Hs).
    simpl in Hs.
    repeat (destruct Hs as [<- | Hs]; [reflexivity |]). destruct Hs. }
  destruct prefix as [[|c s]|].
  - specialize (Hp "" eq_refl). simpl in Hp.
    repeat (destruct Hp as [Hp | Hp]; [discriminate Hp |]). destruct Hp.
  - apply Hstd. apply Hp. reflexivity.
  - apply Hstd. apply ParserProps.infer_severity_standard.
Qed.

Lemma strip_priority_line t d sub msg :
  strip ("[" +:+ t +:+ "] <" +:+ String d (">" +:+ sub +:+ ": " +:+ msg))
  = String "[" (t +:+ String "]" (String " " (String "<" (String d (String ">"
      (sub +:+ String ":" (rstrip_by isspace (String " " msg)))))))).
Proof.
  unfold strip.
  replace ("[" +:+ t +:+ "] <" +:+ String d (">" +:+ sub +:+ ": " +:+ msg))
    with (String "[" (t +:+ String "]" (String " " (String "<" (String d (String ">" sub)))))
          +:+ String ":" (String " " msg)).
  2:{ repeat (rewrite append_cons || rewrite append_nil_l || rewrite append_assoc).
      reflexivity. }
  rewrite rstrip_by_append by reflexivity.
  repeat (rewrite append_cons || rewrite append_nil_l || rewrite append_assoc).
  reflexivity.
Qed.

(** X6: on a timestamped line [[t] <d>subsystem: msg] the inline
    priority digit decides the severity, whatever keywords the message
    holds: for a digit from 0 to 7 it is that level; for 8 and 9 it is
    what the keywords of the message give.  The digit and its brackets
    belong neither to the subsystem nor to the message. *)
Theorem X6_inline_priority_line h source t d sub msg
  (Ht : Spec.decimal_number t = true)
  (Hd : isdecimal d = true)
  (Hne : sub <> "")
  (Hlen : (String.length sub < 30)%nat)
  (Hws : all_chars Spec.no_space sub = true)
  (Hcolon : has_char ":" sub = false)
  (Hproc : Spec.process_form sub = false)
  (Hnl : has_char newline msg = false) :
  exists ev,
    parse_dmesg_line h
      ("[" +:+ t +:+ "] <" +:+ String d (">" +:+ sub +:+ ": " +:+ msg)) source
    = Some ev
    /\ severity ev = match SEVERITY_LEVELS (digit_value d) with
                     | Some level => level
                     | None => _infer_severity (strip msg)
                     end
    /\ subsystem ev = Some sub
    /\ message ev = strip msg.
Proof.
  destruct (LineProps.decimal_number_parts t Ht) as (Htne & Hdd & _).
  set (tail := rstrip_by isspace (String " " msg)).
  set (R := sub +:+ String ":" tail).
  set (R0 := String "<" (String d (String ">" R))).
  assert (Htail : strip tail = strip msg).
  { unfold tail. rewrite strip_rstrip. apply strip_leading. reflexivity. }
  assert (Htaildot : all_chars dot tail = true).
  { unfold tail. apply rstrip_by_all. cbn [all_chars].
    apply andb_true_iff. split; [reflexivity | apply no_newline_dot; exact Hnl]. }
  assert (HRdot : all_chars dot R = true).
  { unfold R. rewrite all_chars_append. apply andb_true_iff. split.
    - eapply all_chars_impl; [| exact Hws]. exact LineProps.no_space_dot.
    - cbn [all_chars]. rewrite Htaildot. reflexivity. }
  assert (HR : exists a r, R = String a r /\ isspace a = false).
  { unfold R. destruct sub as [|a sub']; [congruence |].
    eexists a, _. split; [reflexivity |].
    simpl in Hws. apply andb_true_iff in Hws as [Ha _].
    apply negb_true_iff in Ha. exact Ha. }
  assert (HrstripR : rstrip_by isspace R = R).
  { unfold R. rewrite rstrip_by_append by reflexivity.
    unfold tail. rewrite rstrip_by_idem. reflexivity. }
  assert (HstripR : strip R = R).
  { unfold strip. rewrite HrstripR.
    destruct HR as (a & r & -> & Ha). simpl. rewrite Ha. reflexivity. }
  assert (HstripR0 : strip R0 = R0).
  { unfold strip, R0.
    change (String "<" (String d (String ">" R)))
      with (String "<" (String d "") +:+ String ">" R).
    rewrite rstrip_by_append by reflexivity. rewrite HrstripR. reflexivity. }
  assert (Hmatch : re_match DMESG_PATTERN (String "[" (t +:+ String "]" (String " " R0)))
                   = Some [(2, R0); (1, t)]%nat).
  { apply dmesg_match; try assumption; [reflexivity |].
    unfold R0. cbn [all_chars]. rewrite (digit_dot d Hd), HRdot. reflexivity. }
  assert (Hsev : forall s, SEVERITY_LEVELS (digits_value (String d "")) = Some s ->
                           In s Spec.severity_enumeration).
  { intros s. apply ParserProps.SEVERITY_LEVELS_standard. }
  assert (Hparse :
    parse_dmesg_line h
      ("[" +:+ t +:+ "] <" +:+ String d (">" +:+ sub +:+ ": " +:+ msg)) source
    = Some {| timestamp_monotonic := float t;
              timestamp_realtime :=
                Some match float t, BOOT_TIME h with
                     | Some t0, Some b =>
                         realtime h (Float64.add (Float64.round b) t0)
                     | _, _ => now h
                     end;
              severity :=
                (let severity :=
                   match SEVERITY_LEVELS (digits_value (String d "")) with
                   | Some "" | None => _infer_severity (strip msg)
                   | Some s => s
                   end in
                 if String.eqb severity "" then "INFO" else _normalize_severity severity);
              subsystem := Some sub;
              message := strip msg;
              raw := rstrip_newline
                       ("[" +:+ t +:+ "] <" +:+ String d (">" +:+ sub +:+ ": " +:+ msg));
              source := source;
              event_id := uuid4 h;
              cpu := _extract_cpu (strip msg);
              pid := None;
              annotations :=
                (if _is_continuation_line (strip msg)
                 then {[ "continuation" := PyBool true ]} else ∅);
              plugin_metadata := ∅ |}).
  { unfold parse_dmesg_line. rewrite strip_priority_line. fold tail. fold R. fold R0.
    rewrite append_cons, append_nil_l. cbn [String.eqb].
    rewrite Hmatch. cbn [group Nat.eqb].
    rewrite (LineProps.parse_timestamp_decimal t Ht).
    change (or_default (Some R0) "") with R0. rewrite HstripR0.
    unfold R0 at 1. rewrite (priority_match d R Hd HRdot). cbn [group Nat.eqb].
    assert (Hor : or_default (Some R) "" = R).
    { destruct HR as (a & r & -> & _). reflexivity. }
    rewrite Hor, HstripR. unfold R at 1 2.
    rewrite (process_no_match sub tail Hcolon Hproc).
    assert (Hb : has_char " " sub = false).
    { apply has_char_false. eapply all_chars_impl; [| exact Hws].
      intros c Hc. rewrite (LineProps.no_space_not_blank c Hc). reflexivity. }
    rewrite (LineProps.split_subsystem_colon sub tail Hne Hlen (strip_none sub Hws)
               Hb Hcolon).
    rewrite Htail.
    assert (Hsub : or_default (Some sub) "KERNEL" = sub).
    { destruct sub; [congruence | reflexivity]. }
    rewrite Hsub. reflexivity. }
  eexists. split; [exact Hparse |]. cbn [severity subsystem message].
  split; [| split; reflexivity].
  etransitivity; [exact (settled_severity _ (strip msg) Hsev) |].
  unfold digits_value. cbn [digits_value_from].
  replace (10 * 0 + digit_value d)%Z with (digit_value d) by lia. reflexivity.
Qed.

(** An error level on a message that shouts panic, and a digit that
    names no level. *)
Lemma X6_witness :
  (exists ev,
      parse_dmesg_line Samples.host0 "[7.5] <3>usb: kernel panic ahead" "dmesg" = Some ev
      /\ severity ev = "ERR" /\ subsystem ev = Some "usb"
      /\ message ev = "kernel panic ahead")
  /\ (exists ev,
        parse_dmesg_line Samples.host0 "[7.5] <9>usb: kernel panic ahead" "dmesg" = Some ev
        /\ severity ev = "EMERG").
Proof.
  split.
  - destruct (X6_inline_priority_line Samples.host0 "dmesg" "7.5" "3" "usb"
                "kernel panic ahead")
      as (ev & Hp & Hs & Hsub & Hm);
      [reflexivity | reflexivity | discriminate | simpl; lia
       | reflexivity | reflexivity | reflexivity | reflexivity |].
    exists ev. split; [exact Hp |]. split; [exact Hs |]. split; [exact Hsub | exact Hm].
  - destruct (X6_inline_priority_line Samples.host0 "dmesg" "7.5" "9" "usb"
                "kernel panic ahead")
      as (ev & Hp & Hs & _);
      [reflexivity | reflexivity | discriminate | simpl; lia
       | reflexivity | reflexivity | reflexivity | reflexivity |].
    exists ev. split; [exact Hp | exact Hs].
Defined.

Lemma rstrip_suffix p a b :
  rstrip_by p (a +:+ b) = a +:+ b -> rstrip_by p b = b.
Proof.
  induction a as [|x a IH]; [rewrite append_nil_l; trivial |].
  rewrite append_cons. intros H.
  destruct (RawProps.rstrip_by_fixed p x (a +:+ b) H) as [[He _] | [_ Hr]].
  - destruct a; [| discriminate He]. rewrite append_nil_l in He. subst b. reflexivity.
  - apply IH. exact Hr.
Qed.

Lemma seqs_suffix rs last :
  forall s c k res,
    m (seqs rs last) s c k = Some res ->
    exists pre s' c', s = pre +:+ s' /\ m last s' c' k = Some res.
Proof.
  induction rs as [|r rs IH]; intros s c k res H.
  - exists "", s, c. split; [reflexivity | exact H].
  - cbn [seqs] in H. rewrite m_seq in H.
    apply ReInv.m_suffix in H as (pre1 & s1 & c1 & -> & H).
    apply IH in H as (pre2 & s2 & c2 & -> & H).
    exists (pre1 +:+ pre2), s2, c2. rewrite append_assoc. split; [reflexivity | exact H].
Qed.

(** What is left for the message group and the end of the line
    succeeds one character later where it succeeds. *)
Lemma message_tail_closed a s c :
  m (Seq (Grp 3 (star (Chr dot))) Eol) (String a s) c finish <> None ->
  m (Seq (Grp 3 (star (Chr dot))) Eol) s c finish <> None.
Proof.
  destruct (m _ (String a s) c finish) as [res|] eqn:E; [intros _ | congruence].
  rewrite m_seq in E. unfold star in E.
  apply ReInv.grp_rep_chr_inv in E as (run & rest & Hs & Hall & _ & E).
  apply ReInv.m_eol_inv in E as [Hrest _].
  assert (Hend : Spec.run dot rest = "" /\
                 m Eol rest ((3%nat, s) :: c) finish <> None).
  { destruct Hrest as [-> | ->]; split; try reflexivity; discriminate. }
  destruct run as [|b run].
  - rewrite append_nil_l in Hs. subst rest.
    destruct Hrest as [Hr | Hr]; [discriminate Hr |].
    injection Hr as -> ->. discriminate.
  - rewrite append_cons in Hs. injection Hs as -> ->.
    simpl in Hall. apply andb_true_iff in Hall as [_ Hall].
    rewrite m_seq. unfold star.
    destruct Hrest as [-> | ->].
    + erewrite grp_rep_chr_success; [discriminate | exact Hall | reflexivity | lia |].
      rewrite m_eol_nil. reflexivity.
    + erewrite grp_rep_chr_success; [discriminate | exact Hall | reflexivity | lia |].
      reflexivity.
Qed.

(** The message the process pattern captures from a stripped text is
    stripped. *)
Lemma process_message_stripped rest pm :
  rstrip_by isspace rest = rest ->
  re_match PROCESS_PATTERN rest = Some pm ->
  exists msg, group 3 pm = Some msg /\ strip msg = msg.
Proof.
  intros Hstripped. unfold re_match.
  change PROCESS_PATTERN
    with (seqs [Grp 1 (plus (Chr (none_of "[]:"))); chr "[";
                Grp 2 (plus (Chr digit)); chr "]"; chr ":"]
               (Seq (star (Chr space)) (Seq (Grp 3 (star (Chr dot))) Eol))).
  intros H. apply seqs_suffix in H as (pre & s1 & c1 & -> & H).
  rewrite m_seq in H. unfold star at 1 in H. rewrite m_rep in H.
  apply ReInv.star_chr_greedy in H as (w & rest3 & -> & _ & Hhead & H);
    [| intros a s c; apply message_tail_closed | lia].
  rewrite m_seq in H. unfold star in H.
  apply ReInv.grp_rep_chr_inv in H as (msg & rest4 & -> & _ & _ & H).
  apply ReInv.m_eol_inv in H as [Hrest4 H].
  unfold finish in H. injection H as <-.
  exists msg. split; [reflexivity |].
  apply rstrip_suffix, rstrip_suffix in Hstripped.
  destruct Hrest4 as [-> | ->].
  2:{ apply rstrip_suffix in Hstripped. discriminate Hstripped. }
  rewrite append_nil_r in Hstripped, Hhead.
  unfold strip. rewrite Hstripped.
  destruct msg as [|a r]; [reflexivity |].
  simpl in Hhead |- *. change (space a) with (isspace a) in Hhead.
  destruct (isspace a); [discriminate Hhead | reflexivity].
Qed.

Lemma split_subsystem_stripped rest sub msg :
  strip rest = rest ->
  split_subsystem rest = (sub, msg) -> strip msg = msg.
Proof.
  intros Hrest. unfold split_subsystem.
  destruct (_ && _)%bool; [| intros [= _ <-]; exact Hrest].
  destruct (_ && _)%bool; [| intros [= _ <-]; exact Hrest].
  intros [= _ <-]. apply RawProps.strip_idem.
Qed.

Lemma parsed_message_stripped h line source ev :
  parse_dmesg_line h line source = Some ev -> strip (message ev) = message ev.
Proof.
  intros Haccepted. unfold parse_dmesg_line in Haccepted.
  destruct (String.eqb line ""); [discriminate |].
  destruct (String.eqb (strip line) ""); [discriminate |].
  destruct (re_match DMESG_PATTERN (strip line)) as [c|].
  - destruct (re_match PRIORITY_PATTERN _) as [pc|];
      destruct (re_match PROCESS_PATTERN _) as [pm|] eqn:Epm;
      try destruct (split_subsystem _) as [sub msg] eqn:Es;
      injection Haccepted as <-; cbn [message];
      try exact (split_subsystem_stripped _ _ _ (RawProps.strip_idem _) Es);
      destruct (process_message_stripped _ _ (RawProps.rstrip_strip _) Epm)
        as (msg & -> & Hmsg);
      (destruct msg; [reflexivity | exact Hmsg]).
  - unfold _parse_kernel_prefix in Haccepted.
    destruct (re_match KERNEL_PREFIX _); [| discriminate].
    injection Haccepted as <-. cbn [message]. apply RawProps.strip_idem.
Qed.

(** X7: the message of every parsed event is stripped: it neither
    starts nor ends with whitespace, on either path and whether or not a
    subsystem or a process was found. *)
Theorem X7_message_is_stripped h line source ev
  (Haccepted : parse_dmesg_line h line source = Some ev) :
  strip (message ev) = message ev.
Proof. exact (parsed_message_stripped h line source ev Haccepted). Qed.

(** A process line whose message is set off by several blanks. *)
Lemma X7_witness :
  exists ev,
    parse_dmesg_line Samples.host0 "[3.25] init[1]:     started   " "dmesg" = Some ev
    /\ message ev = "started"
    /\ strip (message ev) = message ev.
Proof.
  destruct (parse_dmesg_line Samples.host0 "[3.25] init[1]:     started   " "dmesg")
    as [ev|] eqn:E; [| vm_compute in E; discriminate E].
  exists ev. split; [reflexivity |].
  split.
  - vm_compute in E. injection E as <-. reflexivity.
  - exact (X7_message_is_stripped _ _ _ ev E).
Defined.

(** X8: on the timestamped path the severity of the event is always one
    of the eight levels: an inline priority digit from 0 to 7 gives its
    level, and without one, or with the digits 8 and 9, the keywords of
    the message decide. *)
Theorem X8_timestamped_severity_in_enumeration h line source c ev
  (Htimestamped : re_match DMESG_PATTERN (strip line) = Some c)
  (Haccepted : parse_dmesg_line h line source = Some ev) :
  In (severity ev) Spec.severity_enumeration.
Proof.
  exact (ParserProps.timestamped_severity_standard h line source c ev
           Htimestamped Haccepted).
Qed.

(** A timestamped line with the priority digit 8. *)
Lemma X8_witness :
  exists ev,
    parse_dmesg_line Samples.host0 "[1.0] <8>usb: reset failed" "dmesg" = Some ev
    /\ In (severity ev) Spec.severity_enumeration.
Proof.
  destruct (parse_dmesg_line Samples.host0 "[1.0] <8>usb: reset failed" "dmesg")
    as [ev|] eqn:E; [| vm_compute in E; discriminate E].
  destruct (re_match DMESG_PATTERN (strip "[1.0] <8>usb: reset failed"))
    as [c|] eqn:Ec; [| vm_compute in Ec; discriminate Ec].
  exists ev. split; [reflexivity |].
  exact (X8_timestamped_severity_in_enumeration _ _ _ c ev Ec E).
Defined.

(** X9: a line of the live stream is stripped by the adapter before it
    is parsed, and the [raw] of the event is exactly that stripped line,
    on the timestamped path and on the fallback path alike. *)
Theorem X9_streamed_raw_is_the_stripped_line h line source ev
  (Haccepted : parse_dmesg_line h (Sources.decoded line) source = Some ev) :
  raw ev = Sources.decoded line /\ raw ev = strip line.
Proof.
  split; exact (RawProps.streamed_raw h line source ev Haccepted).
Qed.

(** A streamed line with its newline and a blank in front. *)
Lemma X9_witness :
  exists ev,
    parse_dmesg_line Samples.host0
      (Sources.decoded (" <6>usb: reset" +:+ Samples.nl)) "dmesg" = Some ev
    /\ raw ev = "<6>usb: reset".
Proof.
  destruct (parse_dmesg_line Samples.host0
              (Sources.decoded (" <6>usb: reset" +:+ Samples.nl)) "dmesg")
    as [ev|] eqn:E; [| vm_compute in E; discriminate E].
  exists ev. split; [reflexivity |].
  destruct (X9_streamed_raw_is_the_stripped_line Samples.host0
              (" <6>usb: reset" +:+ Samples.nl) "dmesg" ev E) as [_ ->].
  vm_compute. reflexivity.
Defined.

(** X10: in a snapshot, whose lines come from splitting the tool's
    output at newlines, the [raw] of an event parsed on the timestamped
    path is the line itself, unchanged. *)
Theorem X10_snapshot_timestamped_raw_is_the_line h stdout line source c ev
  (Hline : In line (Sources.stdout_lines stdout))
  (Htimestamped : re_match DMESG_PATTERN (strip line) = Some c)
  (Haccepted : parse_dmesg_line h line source = Some ev) :
  raw ev = line.
Proof.
  apply (RawProps.snapshot_timestamped_raw h line source c ev); try assumption.
  pose proof (RawProps.split_pieces newline (strip stdout)) as Hall.
  rewrite Forall_forall in Hall. apply Hall. apply list_elem_of_In. exact Hline.
Qed.

(** The second line of a snapshot, with trailing blanks. *)
Lemma X10_witness :
  exists ev,
    parse_dmesg_line Samples.host0 "[2.0] usb: device removed  " "dmesg" = Some ev
    /\ raw ev = "[2.0] usb: device removed  ".
Proof.
  destruct (parse_dmesg_line Samples.host0 "[2.0] usb: device removed  " "dmesg")
    as [ev|] eqn:E; [| vm_compute in E; discriminate E].
  destruct (re_match DMESG_PATTERN (strip "[2.0] usb: device removed  "))
    as [c|] eqn:Ec; [| vm_compute in Ec; discriminate Ec].
  exists ev. split; [reflexivity |].
  apply (X10_snapshot_timestamped_raw_is_the_line Samples.host0
           ("[1.0] usb: device attached" +:+ Samples.nl
            +:+ "[2.0] usb: device removed  " +:+ Samples.nl +:+ "[3.0] end")
           "[2.0] usb: device removed  " "dmesg" c ev).
  - vm_compute. right. left. reflexivity.
  - exact Ec.
  - exact E.
Defined.

(** ** Continuation marks *)

Lemma stripped_head m c r : strip m = m -> m = String c r -> isspace c = false.
Proof.
  intros Hs Hm. unfold strip in Hs. rewrite Hm in Hs at 2.
  exact (StrFacts.lstrip_by_head _ _ _ _ Hs).
Qed.

Lemma indented_needs_blank c r :
  (Ascii.eqb c tab || Ascii.eqb c " ")%bool = false ->
  re_match INDENTED (String c r) = None.
Proof.
  intros Hc. unfold re_match, INDENTED.
  rewrite ReFacts.m_rep, ReFacts.rep_loop_S. cbn zeta.
  rewrite ReFacts.m_chr_cons, Hc. reflexivity.
Qed.

Lemma space_covers_blanks c :
  isspace c = false -> (Ascii.eqb c tab || Ascii.eqb c " ")%bool = false.
Proof.
  intros H.
  destruct (Ascii.eqb_spec c tab) as [-> | _]; [discriminate H |].
  destruct (Ascii.eqb_spec c " ") as [-> | _]; [discriminate H | reflexivity].
Qed.

Lemma continuation_of_stripped m :
  strip m = m ->
  startswith (String tab "") m = false
  /\ re_match INDENTED m = None
  /\ _is_continuation_line m
     = (existsb (fun marker => startswith marker m)
                ["Code:"; "Backtrace"; "Call Trace"; "Call trace"; "EIP"; "RIP"; "RSP"]
        || is_some (re_match HEX_DUMP m))%bool.
Proof.
  intros Hs. destruct m as [|c r]; [repeat split |].
  pose proof (stripped_head _ c r Hs eq_refl) as Hc.
  pose proof (space_covers_blanks c Hc) as Hb.
  assert (Htab : startswith (String tab "") (String c r) = false).
  { cbn [startswith]. apply orb_false_elim in Hb. destruct Hb as [Hb _].
    rewrite Ascii.eqb_sym, Hb. reflexivity. }
  assert (Hind : re_match INDENTED (String c r) = None)
    by exact (indented_needs_blank c r Hb).
  split; [exact Htab |]. split; [exact Hind |].
  unfold _is_continuation_line. cbn [String.eqb].
  unfold CONTINUATION_MARKERS. cbn [existsb]. rewrite Htab, Hind.
  cbn [is_some]. rewrite !orb_false_r.
  destruct (startswith "Code:" _); [reflexivity |].
  destruct (startswith "Backtrace" _); [reflexivity |].
  destruct (startswith "Call Trace" _); [reflexivity |].
  destruct (startswith "Call trace" _); [reflexivity |].
  destruct (startswith "EIP" _); [reflexivity |].
  destruct (startswith "RIP" _); [reflexivity |].
  destruct (startswith "RSP" _); [reflexivity |].
  cbn [orb]. destruct (is_some (re_match HEX_DUMP (String c r))); reflexivity.
Qed.

(** X30: indentation never marks a continuation.  The message the
    continuation test looks at is stripped, so it cannot start with a tab
    or with two blanks: the marker made of a tab and the indentation
    pattern never fire.  An event is flagged as a continuation exactly
    when its line has a timestamp and its message starts with one of the
    seven word markers or with a hex dump of at least six bytes. *)
Theorem X30_indentation_never_marks_a_continuation h line source ev
  (Haccepted : parse_dmesg_line h line source = Some ev) :
  let marked :=
    (existsb (fun marker => startswith marker (message ev))
             ["Code:"; "Backtrace"; "Call Trace"; "Call trace"; "EIP"; "RIP"; "RSP"]
     || is_some (re_match HEX_DUMP (message ev)))%bool in
  startswith (String tab "") (message ev) = false
  /\ re_match INDENTED (message ev) = None
  /\ Engine.is_cont ev
     = (is_some (re_match DMESG_PATTERN (strip line)) && marked)%bool.
Proof.
  cbn zeta.
  pose proof (parsed_message_stripped h line source ev Haccepted) as Hs.
  destruct (continuation_of_stripped (message ev) Hs) as (Htab & Hind & Hcont).
  split; [exact Htab |]. split; [exact Hind |].
  rewrite <- Hcont. clear Hs Htab Hind Hcont.
  unfold parse_dmesg_line in Haccepted.
  destruct (String.eqb line ""); [discriminate |].
  destruct (String.eqb (strip line) ""); [discriminate |].
  destruct (re_match DMESG_PATTERN (strip line)) as [c|]; cbn [is_some andb].
  - assert (Hflag : forall b : bool,
              match (if b then {[ "continuation" := PyBool true ]} else ∅
                     : gmap string pyval) !! "continuation" with
              | Some v => truthy v
              | None => false
              end = b).
    { intros [|]; reflexivity. }
    destruct (re_match PRIORITY_PATTERN _) as [pc|];
      destruct (re_match PROCESS_PATTERN _) as [pm|];
      try destruct (split_subsystem _) as [sub msg];
      injection Haccepted as <-; unfold Engine.is_cont; cbn [annotations message];
      apply Hflag.
  - unfold _parse_kernel_prefix in Haccepted.
    destruct (re_match KERNEL_PREFIX _); [| discriminate].
    injection Haccepted as <-. reflexivity.
Qed.

(** An indented line of a stack trace and a line with a word marker. *)
Lemma X30_witness :
  (exists ev,
      parse_dmesg_line Samples.host0 "[5.0]      do_syscall_64+0x5c/0x90" "dmesg" = Some ev
      /\ Engine.is_cont ev = false)
  /\ (exists ev,
        parse_dmesg_line Samples.host0 "[5.0] Call Trace:" "dmesg" = Some ev
        /\ Engine.is_cont ev = true).
Proof.
  split.
  - destruct (parse_dmesg_line Samples.host0 "[5.0]      do_syscall_64+0x5c/0x90" "dmesg")
      as [ev|] eqn:E; [| vm_compute in E; discriminate E].
    exists ev. split; [reflexivity |].
    destruct (X30_indentation_never_marks_a_continuation _ _ _ ev E) as (_ & _ & H).
    rewrite H. vm_compute in E. injection E as <-. vm_compute. reflexivity.
  - destruct (parse_dmesg_line Samples.host0 "[5.0] Call Trace:" "dmesg")
      as [ev|] eqn:E; [| vm_compute in E; discriminate E].
    exists ev. split; [reflexivity |].
    destruct (X30_indentation_never_marks_a_continuation _ _ _ ev E) as (_ & _ & H).
    rewrite H. vm_compute in E. injection E as <-. vm_compute. reflexivity.
Defined.

End ParserMore.

(** ** More on the source adapters *)

Module SourcesMore.
Import Event Errors Sources.

Lemma parse_lines_length h i source lines :
  (length (parse_lines h i source lines) <= length lines)%nat.
Proof.
  revert i. induction lines as [|line rest IH]; intros i; [reflexivity |].
  cbn [parse_lines]. specialize (IH (S i)).
  destruct (Parser.parse_dmesg_line (h i) line source); simpl; lia.
Qed.

Lemma parse_lines_sound h source lines :
  forall i ev,
    In ev (parse_lines h i source lines) ->
    exists j line,
      lines !! j = Some line
      /\ Parser.parse_dmesg_line (h (i + j)%nat) line source = Some ev.
Proof.
  induction lines as [|line rest IH]; intros i ev Hin; [destruct Hin |].
  cbn [parse_lines] in Hin.
  assert (Hrest : In ev (parse_lines h (S i) source rest) ->
                  exists j l, (line :: rest) !! j = Some l
                              /\ Parser.parse_dmesg_line (h (i + j)%nat) l source = Some ev).
  { intros H. apply IH in H as (j & l & Hj & Hp). exists (S j), l.
    split; [exact Hj |]. replace (i + S j)%nat with (S i + j)%nat by lia. exact Hp. }
  destruct (Parser.parse_dmesg_line (h i) line source) as [e|] eqn:E; [| exact (Hrest Hin)].
  destruct Hin as [<- | Hin]; [| exact (Hrest Hin)].
  exists 0%nat, line. split; [reflexivity |].
  replace (i + 0)%nat with i by lia. exact E.
Qed.

Lemma parse_lines_complete h source lines :
  forall i j line ev,
    lines !! j = Some line ->
    Parser.parse_dmesg_line (h (i + j)%nat) line source = Some ev ->
    In ev (parse_lines h i source lines).
Proof.
  induction lines as [|l rest IH]; intros i j line ev Hj Hp; [discriminate Hj |].
  cbn [parse_lines]. destruct j as [|j].
  - injection Hj as ->. replace (i + 0)%nat with i in Hp by lia.
    rewrite Hp. left. reflexivity.
  - assert (Hin : In ev (parse_lines h (S i) source rest)).
    { apply (IH (S i) j line ev Hj).
      replace (S i + j)%nat with (i + S j)%nat by lia. exact Hp. }
    destruct (Parser.parse_dmesg_line (h i) l source); [right |]; exact Hin.
Qed.

(** X11: when [dmesg -L] exits with 0, the snapshot holds exactly the
    events of the output lines that parse: every event returned is the
    parse of one of the lines, every line that parses contributes its
    event, and there are never more events than lines. *)
Theorem X11_dmesg_snapshot_is_the_parsed_lines run h self stdout
  (Hrun : run ["dmesg"; "-L"] = Completed 0 stdout) :
  exists events,
    fst (dmesg_get_snapshot run h self) = Return events
    /\ (length events <= length (stdout_lines stdout))%nat
    /\ (forall ev, In ev events ->
          exists j line,
            stdout_lines stdout !! j = Some line
            /\ Parser.parse_dmesg_line (h j) line "dmesg" = Some ev)
    /\ (forall j line ev,
          stdout_lines stdout !! j = Some line ->
          Parser.parse_dmesg_line (h j) line "dmesg" = Some ev ->
          In ev events).
Proof.
  unfold dmesg_get_snapshot. rewrite Hrun. cbn [Z.eqb negb fst].
  eexists. split; [reflexivity |]. split; [apply parse_lines_length |]. split.
  - intros ev Hin. exact (parse_lines_sound h "dmesg" _ 0 ev Hin).
  - intros j line ev Hj Hp. exact (parse_lines_complete h "dmesg" _ 0 j line ev Hj Hp).
Qed.

(** Two lines that parse and a blank one between them. *)
Lemma X11_witness :
  exists events,
    fst (dmesg_get_snapshot
           (fun _ => Completed 0 ("[1.0] a: b" +:+ Samples.nl +:+ Samples.nl +:+ "[2.0] c: d"))
           Samples.hosts0 (DmesgSource_init 100)) = Return events
    /\ (length events <= 3)%nat.
Proof.
  destruct (X11_dmesg_snapshot_is_the_parsed_lines
              (fun _ => Completed 0 ("[1.0] a: b" +:+ Samples.nl +:+ Samples.nl +:+ "[2.0] c: d"))
              Samples.hosts0 (DmesgSource_init 100)
              ("[1.0] a: b" +:+ Samples.nl +:+ Samples.nl +:+ "[2.0] c: d"))
    as (events & Hr & Hlen & _).
  - reflexivity.
  - exists events. split; [exact Hr | exact Hlen].
Defined.

Lemma last_slice_positive {A} (n : Z) (l : list A) :
  (1 <= n)%Z -> last_slice n l = drop (length l - Z.to_nat n) l.
Proof.
  intros Hn. unfold last_slice.
  destruct (Z.ltb_spec (- n) 0) as [_ | H]; [| lia].
  f_equal. lia.
Qed.

Lemma last_slice_zero {A} (l : list A) : last_slice 0 l = l.
Proof.
  unfold last_slice.
  change (- 0 <? 0)%Z with false. cbv iota.
  replace (Z.to_nat ((- 0) `min` Z.of_nat (length l))) with 0%nat by lia. reflexivity.
Qed.

(** X12: after a successful snapshot the dmesg adapter remembers, as
    [last_lines], the last [buffer_size] lines of the output when
    [buffer_size] is at least 1, at most that many; with [buffer_size]
    0 it remembers all of them, since the slice [-0:] is the whole list. *)
Theorem X12_dmesg_last_lines run h (buffer_size : Z) stdout
  (Hrun : run ["dmesg"; "-L"] = Completed 0 stdout) :
  let self' := snd (dmesg_get_snapshot run h (DmesgSource_init buffer_size)) in
  ((1 <= buffer_size)%Z ->
   last_lines self'
   = drop (length (stdout_lines stdout) - Z.to_nat buffer_size) (stdout_lines stdout)
   /\ length (last_lines self')
      = Nat.min (Z.to_nat buffer_size) (length (stdout_lines stdout)))
  /\ (buffer_size = 0%Z -> last_lines self' = stdout_lines stdout).
Proof.
  cbn zeta. unfold dmesg_get_snapshot. rewrite Hrun.
  cbn [Z.eqb negb snd last_lines DmesgSource_init dmesg_buffer_size].
  split.
  - intros Hn. rewrite last_slice_positive by exact Hn.
    split; [reflexivity |]. rewrite length_drop. lia.
  - intros ->. apply last_slice_zero.
Qed.

(** Three lines: a size of 2 keeps two, a size of 0 keeps three. *)
Lemma X12_witness :
  last_lines (snd (dmesg_get_snapshot
                     (fun _ => Completed 0 ("a" +:+ Samples.nl +:+ "b" +:+ Samples.nl +:+ "c"))
                     Samples.hosts0 (DmesgSource_init 2)))
  = ["b"; "c"]
  /\ last_lines (snd (dmesg_get_snapshot
                        (fun _ => Completed 0 ("a" +:+ Samples.nl +:+ "b" +:+ Samples.nl +:+ "c"))
                        Samples.hosts0 (DmesgSource_init 0)))
     = ["a"; "b"; "c"].
Proof.
  split.
  - etransitivity.
    + apply (proj1 (X12_dmesg_last_lines
                      (fun _ => Completed 0 ("a" +:+ Samples.nl +:+ "b" +:+ Samples.nl +:+ "c"))
                      Samples.hosts0 2
                      ("a" +:+ Samples.nl +:+ "b" +:+ Samples.nl +:+ "c") eq_refl)).
      lia.
    + vm_compute. reflexivity.
  - etransitivity.
    + apply (proj2 (X12_dmesg_last_lines
                      (fun _ => Completed 0 ("a" +:+ Samples.nl +:+ "b" +:+ Samples.nl +:+ "c"))
                      Samples.hosts0 0
                      ("a" +:+ Samples.nl +:+ "b" +:+ Samples.nl +:+ "c") eq_refl)).
      reflexivity.
    + vm_compute. reflexivity.
Defined.

Lemma until_eof_app_eof l1 l2 : until_eof (l1 ++ "" :: l2) = until_eof l1.
Proof.
  induction l1 as [|x l1 IH]; [reflexivity |].
  cbn [app until_eof]. destruct (String.eqb x ""); [reflexivity |].
  rewrite IH. reflexivity.
Qed.

Lemma until_eof_app l1 l2 : exists more, until_eof (l1 ++ l2) = until_eof l1 ++ more.
Proof.
  induction l1 as [|x l1 IH].
  - exists (until_eof l2). reflexivity.
  - cbn [app until_eof]. destruct (String.eqb x "").
    + exists []. reflexivity.
    + destruct IH as [more ->]. exists more. reflexivity.
Qed.

Lemma parse_lines_app h source l1 l2 :
  forall i,
    parse_lines h i source (l1 ++ l2)
    = parse_lines h i source l1 ++ parse_lines h (i + length l1) source l2.
Proof.
  induction l1 as [|x l1 IH]; intros i.
  - cbn. replace (i + 0)%nat with i by lia. reflexivity.
  - cbn [app parse_lines length]. rewrite IH.
    replace (S i + length l1)%nat with (i + S (length l1))%nat by lia.
    destruct (Parser.parse_dmesg_line (h i) x source); reflexivity.
Qed.

(** X13: the live stream only grows: the events yielded for the lines
    read so far stay as they are when more lines arrive, and nothing that
    follows the end of the child's output (an empty read) is parsed. *)
Theorem X13_stream_is_incremental h source lines more :
  (exists later, stream_live h source (lines ++ more) = stream_live h source lines ++ later)
  /\ stream_live h source (lines ++ "" :: more) = stream_live h source lines.
Proof.
  unfold stream_live. split.
  - destruct (until_eof_app lines more) as [extra ->].
    rewrite map_app, parse_lines_app. eexists. reflexivity.
  - rewrite until_eof_app_eof. reflexivity.
Qed.

End SourcesMore.

(** ** More on the engine *)

Module EngineMore.
Import Event Errors Engine.

Lemma notify_outcome beh cbs a ev log :
  (Forall (fun cb => beh cb ev <> CbCancelled) cbs ->
   fst (notify beh cbs a ev log) = Return tt /\ reached beh cbs ev = cbs)
  /\ (Exists (fun cb => beh cb ev = CbCancelled) cbs ->
      fst (notify beh cbs a ev log) = Raise CancelledError).
Proof.
  revert log. induction cbs as [|cb rest IH]; intros log.
  - split; [intros _; split; reflexivity | intros H; inversion H].
  - cbn [notify reached]. split.
    + intros H. inversion H as [|? ? Hcb Hrest]; subst.
      destruct (beh cb ev); try congruence;
        destruct (proj1 (IH (log ++ [(cb, a)])) Hrest) as [-> ->]; split; reflexivity.
    + intros H. destruct (beh cb ev) eqn:E; try reflexivity;
        (inversion H as [? ? Hcb | ? ? Hrest]; subst; [congruence |]);
        exact (proj2 (IH (log ++ [(cb, a)])) Hrest).
Qed.

Lemma reached_subset beh cbs ev cb : In cb (reached beh cbs ev) -> In cb cbs.
Proof.
  induction cbs as [|c rest IH]; cbn [reached]; [tauto |].
  destruct (beh c ev); cbn [In]; tauto.
Qed.

(** One turn of the loop on an event that opens a new slot. *)
Lemma consume_new beh ev e :
  running e = true -> paused e = false ->
  is_cont ev = false \/ buffer e = [] ->
  let e' := snd (consume beh ev e) in
  buffer e' = deque_append (buffer_size e) (buffer e) (next_addr e)
  /\ objects e' = <[next_addr e := ev]> (objects e)
  /\ next_addr e' = S (next_addr e)
  /\ buffer_size e' = buffer_size e
  /\ running e' = true /\ paused e' = false
  /\ event_callbacks e' = event_callbacks e
  /\ delivered e'
     = delivered e ++ map (fun cb => (cb, next_addr e)) (reached beh (event_callbacks e) ev)
  /\ fst (consume beh ev e)
     = match fst (notify beh (event_callbacks e) (next_addr e) ev (delivered e)) with
       | Return _ => Handled
       | Raise _ => Left
       end.
Proof.
  intros Hr Hp Hnew. cbn zeta. unfold consume. rewrite Hr, Hp. cbn [negb alloc].
  unfold handle_event. cbn [objects set_objects buffer].
  rewrite lookup_insert_eq.
  assert (Hbranch :
    match is_cont ev, last (buffer e) with
    | true, Some l =>
        match <[next_addr e:=ev]> (objects e) !! l with
        | Some last_ev =>
            notify_at beh l
              (set_objects (<[l:=merge last_ev ev]> (<[next_addr e:=ev]> (objects e)))
                 (S (next_addr e))
                 (set_objects (<[next_addr e:=ev]> (objects e)) (S (next_addr e)) e))
        | None =>
            (Return tt, set_objects (<[next_addr e:=ev]> (objects e)) (S (next_addr e)) e)
        end
    | _, _ =>
        notify_at beh (next_addr e)
          (set_buffer
             (deque_append (buffer_size e) (buffer e) (next_addr e))
             (set_objects (<[next_addr e:=ev]> (objects e)) (S (next_addr e)) e))
    end
    = notify_at beh (next_addr e)
        (set_buffer
           (deque_append (buffer_size e) (buffer e) (next_addr e))
           (set_objects (<[next_addr e:=ev]> (objects e)) (S (next_addr e)) e))).
  { destruct Hnew as [-> | ->]; [reflexivity |]. destruct (is_cont ev); reflexivity. }
  cbn [next_addr buffer_size set_objects] in Hbranch |- *.
  rewrite Hbranch. clear Hbranch.
  unfold notify_at. cbn [objects set_buffer set_objects].
  rewrite lookup_insert_eq.
  cbn [event_callbacks delivered set_buffer set_objects].
  pose proof (EngineProps.notify_reached beh (event_callbacks e) (next_addr e) ev
                (delivered e)) as Hlog.
  destruct (notify beh (event_callbacks e) (next_addr e) ev (delivered e)) as [r log].
  cbn [snd fst] in Hlog |- *. subst log.
  destruct r; cbn; repeat split; assumption.
Qed.

(** X14: an event that is no continuation, or that finds the buffer
    empty, gets a slot of its own, and the subscribers are called with it
    one after the other in registration order.  A subscriber that raises
    does not stop the others; only a cancellation ends the round and the
    loop, and even then the event is in the buffer. *)
Theorem X14_new_event_reaches_every_subscriber beh ev e
  (Hrun : running e = true)
  (Hnp : paused e = false)
  (Hnew : is_cont ev = false \/ buffer e = []) :
  let e' := snd (consume beh ev e) in
  buffer e' = deque_append (buffer_size e) (buffer e) (next_addr e)
  /\ objects e' !! next_addr e = Some ev
  /\ delivered e'
     = delivered e ++ map (fun cb => (cb, next_addr e)) (reached beh (event_callbacks e) ev)
  /\ (Forall (fun cb => beh cb ev <> CbCancelled) (event_callbacks e) ->
      fst (consume beh ev e) = Handled
      /\ delivered e'
         = delivered e ++ map (fun cb => (cb, next_addr e)) (event_callbacks e))
  /\ (Exists (fun cb => beh cb ev = CbCancelled) (event_callbacks e) ->
      fst (consume beh ev e) = Left).
Proof.
  destruct (consume_new beh ev e Hrun Hnp Hnew)
    as (Hb & Ho & _ & _ & _ & _ & _ & Hd & Hf).
  cbn zeta in *. split; [exact Hb |].
  split; [rewrite Ho; apply lookup_insert_eq |].
  split; [exact Hd |].
  pose proof (notify_outcome beh (event_callbacks e) (next_addr e) ev (delivered e))
    as [Hok Hcancel].
  split.
  - intros Hall. destruct (Hok Hall) as [Hr Hreach].
    rewrite Hf, Hr, Hd, Hreach. split; reflexivity.
  - intros Hex. rewrite Hf, (Hcancel Hex). reflexivity.
Qed.

Lemma X14_witness :
  let e' := snd (consume Samples.quiet (Samples.plain_event "a")
                   (Samples.engine_running 2)) in
  buffer e' = [0]%nat /\ delivered e' = [(7, 0); (9, 0)]%nat.
Proof.
  destruct (X14_new_event_reaches_every_subscriber Samples.quiet
              (Samples.plain_event "a") (Samples.engine_running 2)
              eq_refl eq_refl (or_intror eq_refl))
    as (Hb & _ & _ & Hall & _).
  cbn zeta. split; [rewrite Hb; reflexivity |].
  destruct Hall as [_ Hd].
  - repeat constructor; discriminate.
  - rewrite Hd. reflexivity.
Defined.

(** One turn of the loop on a continuation event that finds a last
    buffered event. *)
Lemma consume_cont beh ev e (l : addr) last_ev :
  running e = true -> paused e = false ->
  is_cont ev = true ->
  last (buffer e) = Some l ->
  objects e !! l = Some last_ev ->
  (l < next_addr e)%nat ->
  let e' := snd (consume beh ev e) in
  buffer e' = buffer e
  /\ objects e' = <[l := merge last_ev ev]> (<[next_addr e := ev]> (objects e))
  /\ next_addr e' = S (next_addr e)
  /\ buffer_size e' = buffer_size e
  /\ running e' = true /\ paused e' = false
  /\ event_callbacks e' = event_callbacks e
  /\ delivered e'
     = delivered e
       ++ map (fun cb => (cb, l)) (reached beh (event_callbacks e) (merge last_ev ev))
  /\ fst (consume beh ev e)
     = match fst (notify beh (event_callbacks e) l (merge last_ev ev) (delivered e)) with
       | Return _ => Handled
       | Raise _ => Left
       end.
Proof.
  intros Hrun Hnp Hcont Hlast Hobj Hold. cbn zeta.
  assert (Hne : next_addr e <> l) by lia.
  unfold consume. rewrite Hrun, Hnp. cbn [negb alloc].
  unfold handle_event. cbn [objects buffer set_objects next_addr].
  rewrite lookup_insert_eq, Hcont, Hlast.
  rewrite lookup_insert_ne by exact Hne. rewrite Hobj.
  unfold notify_at. cbn [objects set_objects].
  rewrite lookup_insert_eq.
  cbn [event_callbacks delivered set_objects].
  pose proof (EngineProps.notify_reached beh (event_callbacks e) l (merge last_ev ev)
                (delivered e)) as Hlog.
  destruct (notify beh (event_callbacks e) l (merge last_ev ev) (delivered e))
    as [r log].
  cbn [snd fst] in Hlog |- *. subst log.
  destruct r; cbn; repeat split; assumption.
Qed.

Lemma merge_message conts head :
  message (fold_left merge conts head)
  = fold_left (fun m ev => m +:+ String PyStr.newline "" +:+ message ev)
              conts (message head)
  /\ raw (fold_left merge conts head)
     = fold_left (fun m ev => m +:+ String PyStr.newline "" +:+ raw ev)
                 conts (raw head)
  /\ event_id (fold_left merge conts head) = event_id head
  /\ severity (fold_left merge conts head) = severity head
  /\ subsystem (fold_left merge conts head) = subsystem head.
Proof.
  revert head. induction conts as [|ev rest IH]; intros head; cbn [fold_left].
  - repeat split.
  - destruct (IH (merge head ev)) as (Hm & Hr & Hi & Hs & Hsub).
    rewrite Hm, Hr, Hi, Hs, Hsub. repeat split.
Qed.

(** X15: continuation events that follow one another all go into the
    last buffered event: the buffer keeps its entries, the last event's
    message and raw text grow by one line each time, its identity and
    severity stay, and the subscribers are called once for every
    continuation, always with that same event object. *)
Theorem X15_continuations_pile_up beh conts e (l : addr) head
  (Hrun : running e = true)
  (Hnp : paused e = false)
  (Hquiet : forall cb x, beh cb x <> CbCancelled)
  (Hcont : Forall (fun ev => is_cont ev = true) conts)
  (Hlast : last (buffer e) = Some l)
  (Hobj : objects e !! l = Some head)
  (Hold : (l < next_addr e)%nat) :
  let e' := run_stream beh conts e in
  let merged := fold_left merge conts head in
  buffer e' = buffer e
  /\ objects e' !! l = Some merged
  /\ message merged
     = fold_left (fun m ev => m +:+ String PyStr.newline "" +:+ message ev)
                 conts (message head)
  /\ raw merged
     = fold_left (fun m ev => m +:+ String PyStr.newline "" +:+ raw ev)
                 conts (raw head)
  /\ event_id merged = event_id head
  /\ severity merged = severity head
  /\ delivered e'
     = delivered e
       ++ flat_map (fun _ => map (fun cb => (cb, l)) (event_callbacks e)) conts.
Proof.
  cbn zeta.
  destruct (merge_message conts head) as (Hm & Hr & Hi & Hs & _).
  split; [| split; [| split; [exact Hm | split; [exact Hr | split; [exact Hi |
    split; [exact Hs |]]]]]]; clear Hm Hr Hi Hs.
  - revert e head Hrun Hnp Hlast Hobj Hold.
    induction Hcont as [|ev rest Hev Hrest IH]; intros e head Hrun Hnp Hlast Hobj Hold;
      cbn [run_stream]; [reflexivity |].
    destruct (consume_cont beh ev e l head Hrun Hnp Hev Hlast Hobj Hold)
      as (Hb & Ho & Hn & _ & Hr' & Hp' & _ & _ & Hf).
    cbn zeta in *.
    destruct (EngineProps.notify_quiet beh (event_callbacks e) l (merge head ev)
                (delivered e) Hquiet) as [Hret _].
    rewrite Hret in Hf.
    destruct (consume beh ev e) as [t e1]. cbn [fst snd] in *. subst t.
    rewrite (IH e1 (merge head ev)); [exact Hb | exact Hr' | exact Hp' | | |].
    + rewrite Hb. exact Hlast.
    + rewrite Ho. apply lookup_insert_eq.
    + rewrite Hn. lia.
  - revert e head Hrun Hnp Hlast Hobj Hold.
    induction Hcont as [|ev rest Hev Hrest IH]; intros e head Hrun Hnp Hlast Hobj Hold;
      cbn [run_stream fold_left]; [exact Hobj |].
    destruct (consume_cont beh ev e l head Hrun Hnp Hev Hlast Hobj Hold)
      as (Hb & Ho & Hn & _ & Hr' & Hp' & _ & _ & Hf).
    cbn zeta in *.
    destruct (EngineProps.notify_quiet beh (event_callbacks e) l (merge head ev)
                (delivered e) Hquiet) as [Hret _].
    rewrite Hret in Hf.
    destruct (consume beh ev e) as [t e1]. cbn [fst snd] in *. subst t.
    apply IH; [exact Hr' | exact Hp' | | |].
    + rewrite Hb. exact Hlast.
    + rewrite Ho. apply lookup_insert_eq.
    + rewrite Hn. lia.
  - revert e head Hrun Hnp Hlast Hobj Hold.
    induction Hcont as [|ev rest Hev Hrest IH]; intros e head Hrun Hnp Hlast Hobj Hold;
      cbn [run_stream flat_map]; [symmetry; apply app_nil_r |].
    destruct (consume_cont beh ev e l head Hrun Hnp Hev Hlast Hobj Hold)
      as (Hb & Ho & Hn & _ & Hr' & Hp' & Hc & Hd & Hf).
    cbn zeta in *.
    destruct (EngineProps.notify_quiet beh (event_callbacks e) l (merge head ev)
                (delivered e) Hquiet) as [Hret Hall].
    rewrite Hret in Hf. rewrite Hall in Hd.
    destruct (consume beh ev e) as [t e1]. cbn [fst snd] in *. subst t.
    rewrite (IH e1 (merge head ev)); [| exact Hr' | exact Hp' | | |].
    + rewrite Hd, Hc, <- app_assoc. reflexivity.
    + rewrite Hb. exact Hlast.
    + rewrite Ho. apply lookup_insert_eq.
    + rewrite Hn. lia.
Qed.

Lemma X15_witness :
  let e' := run_stream Samples.quiet
              [Samples.cont_event "one"; Samples.cont_event "two"]
              Samples.engine_one in
  buffer e' = [0]%nat
  /\ (exists merged,
        objects e' !! 0%nat = Some merged
        /\ message merged = "head" +:+ Samples.nl +:+ "one" +:+ Samples.nl +:+ "two")
  /\ length (delivered e') = 6%nat.
Proof.
  destruct (X15_continuations_pile_up Samples.quiet
              [Samples.cont_event "one"; Samples.cont_event "two"]
              Samples.engine_one 0%nat (Samples.plain_event "head"))
    as (Hb & Ho & Hm & _ & _ & _ & Hd).
  - reflexivity.
  - reflexivity.
  - intros cb x; discriminate.
  - repeat constructor.
  - reflexivity.
  - vm_compute; reflexivity.
  - simpl; lia.
  - cbn zeta in *. split; [rewrite Hb; reflexivity |].
    split; [eexists; split; [exact Ho | rewrite Hm; reflexivity] |].
    rewrite Hd. reflexivity.
Defined.

(** A stream into an engine of capacity 0, whose buffer is bound to stay
    empty. *)
Lemma run_stream_capacity_zero beh evs e :
  buffer_size e = 0%nat -> buffer e = [] ->
  running e = true -> paused e = false ->
  (forall cb x, beh cb x <> CbCancelled) ->
  let e' := run_stream beh evs e in
  buffer e' = []
  /\ next_addr e' = (next_addr e + length evs)%nat
  /\ (forall a : addr, (a < next_addr e)%nat -> objects e' !! a = objects e !! a)
  /\ (forall i ev, evs !! i = Some ev ->
                   objects e' !! (next_addr e + i)%nat = Some ev)
  /\ delivered e'
     = delivered e
       ++ flat_map (fun a => map (fun cb => (cb, a)) (event_callbacks e))
                   (seq (next_addr e) (length evs)).
Proof.
  revert e. induction evs as [|ev rest IH]; intros e Hcap Hempty Hrun Hnp Hquiet;
    cbn zeta; cbn [run_stream].
  - split; [exact Hempty |]. split; [cbn; lia |]. split; [reflexivity |].
    split; [intros i ev H; rewrite lookup_nil in H; discriminate H |].
    cbn. symmetry; apply app_nil_r.
  - destruct (consume_new beh ev e Hrun Hnp (or_intror Hempty))
      as (Hb & Ho & Hn & Hs & Hr' & Hp' & Hc & Hd & Hf).
    cbn zeta in *.
    destruct (EngineProps.notify_quiet beh (event_callbacks e) (next_addr e) ev
                (delivered e) Hquiet) as [Hret Hall].
    rewrite Hret in Hf. rewrite Hall in Hd.
    destruct (consume beh ev e) as [t e1]. cbn [fst snd] in *. subst t.
    assert (Hb1 : buffer e1 = []).
    { rewrite Hb, Hcap, Hempty. reflexivity. }
    destruct (IH e1) as (Hb2 & Hn2 & Hold2 & Hnew2 & Hd2);
      [congruence | exact Hb1 | exact Hr' | exact Hp' | exact Hquiet |].
    cbn zeta in *.
    split; [exact Hb2 |].
    split; [rewrite Hn2, Hn; cbn [length]; lia |].
    split.
    { intros a Ha. rewrite Hold2 by lia. rewrite Ho.
      apply lookup_insert_ne. lia. }
    split.
    { intros [|i] ev' Hi; cbn in Hi.
      - injection Hi as <-. rewrite Nat.add_0_r, Hold2 by lia.
        rewrite Ho. apply lookup_insert_eq.
      - rewrite <- (Hnew2 i ev' Hi), Hn. f_equal. lia. }
    rewrite Hd2, Hd, Hc, Hn, <- app_assoc. reflexivity.
Qed.

(** X16: an engine of capacity 0 keeps nothing: the buffer stays empty
    however many events arrive.  The subscribers still get every event,
    each one as an object of its own, a continuation event too, since
    there is never a last buffered event to merge it into. *)
Theorem X16_capacity_zero_buffers_nothing beh evs e
  (Hcap : buffer_size e = 0%nat)
  (Hempty : buffer e = [])
  (Hrun : running e = true)
  (Hnp : paused e = false)
  (Hquiet : forall cb x, beh cb x <> CbCancelled) :
  let e' := run_stream beh evs e in
  buffer e' = []
  /\ (forall i ev, evs !! i = Some ev ->
                   objects e' !! (next_addr e + i)%nat = Some ev)
  /\ delivered e'
     = delivered e
       ++ flat_map (fun a => map (fun cb => (cb, a)) (event_callbacks e))
                   (seq (next_addr e) (length evs)).
Proof.
  destruct (run_stream_capacity_zero beh evs e Hcap Hempty Hrun Hnp Hquiet)
    as (Hb & _ & _ & Hnew & Hd).
  cbn zeta. split; [exact Hb |]. split; [exact Hnew | exact Hd].
Qed.

Lemma X16_witness :
  let e' := run_stream Samples.quiet
              [Samples.plain_event "a"; Samples.cont_event "b"]
              (Samples.engine_running 0) in
  buffer e' = []
  /\ objects e' !! 1%nat = Some (Samples.cont_event "b")
  /\ delivered e' = [(7, 0); (9, 0); (7, 1); (9, 1)]%nat.
Proof.
  destruct (X16_capacity_zero_buffers_nothing Samples.quiet
              [Samples.plain_event "a"; Samples.cont_event "b"]
              (Samples.engine_running 0))
    as (Hb & Ho & Hd).
  - reflexivity.
  - reflexivity.
  - reflexivity.
  - reflexivity.
  - intros cb x; discriminate.
  - cbn zeta in *. split; [exact Hb |].
    split; [exact (Ho 1%nat (Samples.cont_event "b") eq_refl) |].
    rewrite Hd. reflexivity.
Defined.

(** The addresses [alloc_all] hands out. *)
Lemma alloc_all_exact evs e :
  fst (alloc_all evs e) = seq (next_addr e) (length evs)
  /\ next_addr (snd (alloc_all evs e)) = (next_addr e + length evs)%nat
  /\ (forall a : addr, (a < next_addr e)%nat ->
                       objects (snd (alloc_all evs e)) !! a = objects e !! a)
  /\ (forall i ev, evs !! i = Some ev ->
                   objects (snd (alloc_all evs e)) !! (next_addr e + i)%nat = Some ev)
  /\ buffer (snd (alloc_all evs e)) = buffer e
  /\ buffer_size (snd (alloc_all evs e)) = buffer_size e
  /\ delivered (snd (alloc_all evs e)) = delivered e
  /\ event_callbacks (snd (alloc_all evs e)) = event_callbacks e
  /\ running (snd (alloc_all evs e)) = running e
  /\ paused (snd (alloc_all evs e)) = paused e
  /\ has_source (snd (alloc_all evs e)) = has_source e.
Proof.
  revert e. induction evs as [|ev rest IH]; intros e; cbn [alloc_all].
  - cbn. repeat split; try lia.
    intros i ev H. rewrite lookup_nil in H. discriminate H.
  - unfold alloc.
    specialize (IH (set_objects (<[next_addr e:=ev]> (objects e)) (S (next_addr e)) e)).
    destruct (alloc_all rest
                (set_objects (<[next_addr e:=ev]> (objects e)) (S (next_addr e)) e))
      as [als e2].
    cbn [fst snd next_addr objects buffer buffer_size delivered event_callbacks
         running paused has_source set_objects] in IH |- *.
    destruct IH as (Ha & Hn & Hold & Hnew & Hb & Hs & Hd & Hc & Hr & Hp & Hsrc).
    split; [cbn [length seq]; rewrite Ha; reflexivity |].
    split; [rewrite Hn; cbn [length]; lia |].
    split.
    { intros a Hlt. rewrite Hold by lia. apply lookup_insert_ne. lia. }
    split.
    { intros [|i] ev' Hi; cbn in Hi.
      - injection Hi as <-. rewrite Nat.add_0_r, Hold by lia.
        apply lookup_insert_eq.
      - rewrite <- (Hnew i ev' Hi). f_equal. lia. }
    repeat split; assumption.
Qed.

(** X17: [load_snapshot] needs a source: without one it raises
    [RuntimeError] and changes nothing.  With one it returns all events of
    the snapshot whatever the capacity, while the buffer keeps the newest
    [buffer_size] entries of what it held and the snapshot; no subscriber
    is called, and a continuation event of the snapshot is an entry like
    any other. *)
Theorem X17_load_snapshot events e :
  (has_source e = false -> load_snapshot events e = (Raise RuntimeError, e))
  /\ (has_source e = true ->
      (length (buffer e) <= buffer_size e)%nat ->
      let e' := snd (load_snapshot events e) in
      let new := seq (next_addr e) (length events) in
      fst (load_snapshot events e) = Return new
      /\ (forall i ev, events !! i = Some ev ->
                       objects e' !! (next_addr e + i)%nat = Some ev)
      /\ buffer e'
         = drop (length (buffer e ++ new) - buffer_size e) (buffer e ++ new)
      /\ delivered e' = delivered e).
Proof.
  unfold load_snapshot. split; intros Hsrc; rewrite Hsrc; cbn [negb]; [reflexivity |].
  intros Hlen.
  destruct (alloc_all_exact events e)
    as (Ha & _ & _ & Hnew & Hb & Hs & Hd & _).
  destruct (alloc_all events e) as [als e1]. cbn [fst snd] in *. subst als.
  split; [reflexivity |].
  split; [exact Hnew |].
  split; [| exact Hd].
  cbn [buffer set_buffer]. rewrite Hb, Hs.
  apply EngineProps.deque_extend_newest. exact Hlen.
Qed.

Lemma X17_witness :
  let e' := snd (load_snapshot
                   [Samples.plain_event "a"; Samples.cont_event "b";
                    Samples.plain_event "c"]
                   (Samples.engine_running 2)) in
  buffer e' = [1; 2]%nat /\ delivered e' = [].
Proof.
  destruct (X17_load_snapshot
              [Samples.plain_event "a"; Samples.cont_event "b"; Samples.plain_event "c"]
              (Samples.engine_running 2)) as [_ H].
  destruct H as (_ & _ & Hb & Hd).
  - reflexivity.
  - simpl; lia.
  - cbn zeta in *. split; [rewrite Hb; reflexivity | rewrite Hd; reflexivity].
Defined.

(** ** Subscriptions and the life cycle *)

Lemma remove_first_absent cb l : ~ In cb l -> remove_first cb l = l.
Proof.
  induction l as [|x l IH]; cbn [remove_first In]; [reflexivity |].
  intros H. destruct (Nat.eqb_spec x cb) as [-> | Hne]; [tauto |].
  rewrite IH by tauto. reflexivity.
Qed.

Lemma remove_first_snoc cb l : ~ In cb l -> remove_first cb (l ++ [cb]) = l.
Proof.
  induction l as [|x l IH]; cbn [remove_first In app].
  - intros _. rewrite Nat.eqb_refl. reflexivity.
  - intros H. destruct (Nat.eqb_spec x cb) as [-> | Hne]; [tauto |].
    rewrite IH by tauto. reflexivity.
Qed.

Lemma remove_first_count cb l x :
  count_occ Nat.eq_dec (remove_first cb l) x
  = if Nat.eqb x cb then pred (count_occ Nat.eq_dec l x) else count_occ Nat.eq_dec l x.
Proof.
  induction l as [|y l IH]; cbn [remove_first count_occ].
  - destruct (Nat.eqb x cb); reflexivity.
  - destruct (Nat.eqb_spec y cb) as [-> | Hne].
    + destruct (Nat.eq_dec cb x) as [-> | Hx].
      * rewrite Nat.eqb_refl. reflexivity.
      * destruct (Nat.eqb_spec x cb); [congruence | reflexivity].
    + cbn [count_occ]. rewrite IH.
      destruct (Nat.eq_dec y x) as [-> | Hx]; [| reflexivity].
      destruct (Nat.eqb_spec x cb); [congruence | reflexivity].
Qed.

Lemma remove_first_subset cb l x : In x (remove_first cb l) -> In x l.
Proof.
  induction l as [|y l IH]; cbn [remove_first In]; [tauto |].
  destruct (Nat.eqb y cb); cbn [In]; tauto.
Qed.

Lemma remove_first_once cb l :
  (count_occ Nat.eq_dec l cb <= 1)%nat -> ~ In cb (remove_first cb l).
Proof.
  intros H Hin.
  apply (count_occ_In Nat.eq_dec) in Hin.
  rewrite remove_first_count, Nat.eqb_refl in Hin. lia.
Qed.

(** X18: [unsubscribe] takes away one registration of the callback, the
    oldest, and leaves the others alone; for a callback that is not
    subscribed it does nothing.  Subscribing a callback that was not
    subscribed and unsubscribing it again gives the engine back as it
    was. *)
Theorem X18_unsubscribe_undoes_subscribe cb e :
  (forall x,
      count_occ Nat.eq_dec (event_callbacks (unsubscribe cb e)) x
      = if Nat.eqb x cb
        then pred (count_occ Nat.eq_dec (event_callbacks e) x)
        else count_occ Nat.eq_dec (event_callbacks e) x)
  /\ (~ In cb (event_callbacks e) -> unsubscribe cb e = e)
  /\ (~ In cb (event_callbacks e) -> unsubscribe cb (subscribe cb e) = e)
  /\ (In cb (event_callbacks e) ->
      event_callbacks (unsubscribe cb (subscribe cb e))
      = remove_first cb (event_callbacks e) ++ [cb]).
Proof.
  split; [intros x; apply remove_first_count |].
  split; [| split].
  - intros H. unfold unsubscribe. rewrite (remove_first_absent _ _ H).
    destruct e; reflexivity.
  - intros H. unfold unsubscribe, subscribe. cbn [event_callbacks set_callbacks].
    rewrite (remove_first_snoc _ _ H). destruct e; reflexivity.
  - intros H. unfold unsubscribe, subscribe. cbn [event_callbacks set_callbacks].
    induction (event_callbacks e) as [|x l IH]; cbn [In] in H; [tauto |].
    cbn [remove_first app].
    destruct (Nat.eqb_spec x cb) as [-> | Hne]; [reflexivity |].
    rewrite IH by (destruct H; [congruence | assumption]). reflexivity.
Qed.

Lemma X18_witness :
  unsubscribe 5%nat (subscribe 5%nat (Samples.engine_running 2))
  = Samples.engine_running 2
  /\ event_callbacks (unsubscribe 7%nat (subscribe 7%nat (Samples.engine_running 2)))
     = [9; 7]%nat.
Proof.
  destruct (X18_unsubscribe_undoes_subscribe 5%nat (Samples.engine_running 2))
    as (_ & _ & Hback & _).
  destruct (X18_unsubscribe_undoes_subscribe 7%nat (Samples.engine_running 2))
    as (_ & _ & _ & Hmove).
  split.
  - apply Hback. cbn. intros [H | [H | []]]; discriminate H.
  - rewrite Hmove; [reflexivity | cbn; left; reflexivity].
Defined.

(** What one notification round, one event and one operation add to the
    log of calls. *)
Lemma notify_at_log beh a e :
  event_callbacks (snd (notify_at beh a e)) = event_callbacks e
  /\ running (snd (notify_at beh a e)) = running e
  /\ paused (snd (notify_at beh a e)) = paused e
  /\ has_source (snd (notify_at beh a e)) = has_source e
  /\ exists more,
      delivered (snd (notify_at beh a e)) = delivered e ++ more
      /\ Forall (fun d => In (fst d) (event_callbacks e)) more.
Proof.
  unfold notify_at. destruct (objects e !! a) as [ev|].
  - pose proof (EngineProps.notify_reached beh (event_callbacks e) a ev (delivered e))
      as Hlog.
    destruct (notify beh (event_callbacks e) a ev (delivered e)) as [r log].
    cbn [snd] in *. subst log. cbn. repeat split.
    eexists. split; [reflexivity |].
    apply Forall_forall. intros d Hd. apply list_elem_of_In in Hd.
    apply in_map_iff in Hd. destruct Hd as (cb & <- & Hcb). cbn.
    exact (reached_subset _ _ _ _ Hcb).
  - cbn. repeat split. exists []. split; [symmetry; apply app_nil_r | constructor].
Qed.

Lemma handle_event_log beh a e :
  event_callbacks (snd (handle_event beh a e)) = event_callbacks e
  /\ running (snd (handle_event beh a e)) = running e
  /\ paused (snd (handle_event beh a e)) = paused e
  /\ has_source (snd (handle_event beh a e)) = has_source e
  /\ exists more,
      delivered (snd (handle_event beh a e)) = delivered e ++ more
      /\ Forall (fun d => In (fst d) (event_callbacks e)) more.
Proof.
  assert (Hnone :
    event_callbacks e = event_callbacks e /\ running e = running e
    /\ paused e = paused e /\ has_source e = has_source e
    /\ exists more, delivered e = delivered e ++ more
                    /\ Forall (fun d => In (fst d) (event_callbacks e)) more).
  { repeat split. exists []. split; [symmetry; apply app_nil_r | constructor]. }
  unfold handle_event. destruct (objects e !! a) as [event|]; [| exact Hnone].
  destruct (is_cont event); [destruct (last (buffer e)) as [l|] |].
  - destruct (objects e !! l) as [last_ev|]; [| exact Hnone].
    exact (notify_at_log beh l
             (set_objects (<[l:=merge last_ev event]> (objects e)) (next_addr e) e)).
  - exact (notify_at_log beh a
             (set_buffer (deque_append (buffer_size e) (buffer e) a) e)).
  - exact (notify_at_log beh a
             (set_buffer (deque_append (buffer_size e) (buffer e) a) e)).
Qed.

Lemma consume_log beh ev e :
  event_callbacks (snd (consume beh ev e)) = event_callbacks e
  /\ running (snd (consume beh ev e)) = running e
  /\ paused (snd (consume beh ev e)) = paused e
  /\ has_source (snd (consume beh ev e)) = has_source e
  /\ (running e = false \/ paused e = true -> snd (consume beh ev e) = e)
  /\ exists more,
      delivered (snd (consume beh ev e)) = delivered e ++ more
      /\ Forall (fun d => In (fst d) (event_callbacks e)) more.
Proof.
  unfold consume. destruct (running e) eqn:Hr; cbn [negb];
    [destruct (paused e) eqn:Hp |].
  - cbn [snd]. rewrite Hr, Hp. repeat split.
    exists []. split; [symmetry; apply app_nil_r | constructor].
  - unfold alloc.
    pose proof (handle_event_log beh (next_addr e)
                  (set_objects (<[next_addr e:=ev]> (objects e)) (S (next_addr e)) e))
      as H.
    destruct (handle_event beh (next_addr e)
                (set_objects (<[next_addr e:=ev]> (objects e)) (S (next_addr e)) e))
      as [r e2].
    cbn [fst snd event_callbacks running paused has_source delivered set_objects] in H.
    destruct H as (Hc & Hr2 & Hp2 & Hs2 & Hmore).
    assert (Hsnd : snd (match r with
                        | Return _ => (Handled, e2)
                        | Raise _ => (Left, e2)
                        end) = e2) by (destruct r; reflexivity).
    rewrite Hsnd, Hc, Hr2, Hp2, Hs2, Hr, Hp.
    split; [reflexivity |]. split; [reflexivity |]. split; [reflexivity |].
    split; [reflexivity |]. split; [intros [H | H]; discriminate H | exact Hmore].
  - cbn [snd]. rewrite Hr. repeat split.
    exists []. split; [symmetry; apply app_nil_r | constructor].
Qed.

Lemma load_snapshot_frame events e :
  event_callbacks (snd (load_snapshot events e)) = event_callbacks e
  /\ running (snd (load_snapshot events e)) = running e
  /\ paused (snd (load_snapshot events e)) = paused e
  /\ has_source (snd (load_snapshot events e)) = has_source e
  /\ delivered (snd (load_snapshot events e)) = delivered e
  /\ (has_source e = false -> snd (load_snapshot events e) = e).
Proof.
  unfold load_snapshot. destruct (has_source e) eqn:Hs; cbn [negb].
  - destruct (alloc_all_exact events e)
      as (_ & _ & _ & _ & _ & _ & Hd & Hc & Hr & Hp & Hsrc).
    destruct (alloc_all events e) as [als e1]. cbn [fst snd] in *.
    cbn [event_callbacks running paused has_source delivered set_buffer].
    rewrite Hd, Hc, Hr, Hp, Hsrc, Hs.
    repeat split. intros H; discriminate H.
  - cbn [snd]. rewrite Hs. repeat split.
Qed.

Lemma apply_log beh o e :
  exists more,
    delivered (apply beh o e) = delivered e ++ more
    /\ Forall (fun d => In (fst d) (event_callbacks e)) more.
Proof.
  assert (Hsame : forall e', delivered e' = delivered e ->
            exists more, delivered e' = delivered e ++ more
                         /\ Forall (fun d => In (fst d) (event_callbacks e)) more).
  { intros e' H. exists []. rewrite app_nil_r. split; [exact H | constructor]. }
  destruct o; cbn [apply]; try (apply Hsame; reflexivity).
  - apply Hsame. apply load_snapshot_frame.
  - apply Hsame. unfold start_streaming.
    destruct (running e); [reflexivity |]. destruct (has_source e); reflexivity.
  - apply consume_log.
Qed.

Lemma apply_callbacks beh o e cb :
  In cb (event_callbacks (apply beh o e)) ->
  In cb (event_callbacks e) \/ o = OpSubscribe cb.
Proof.
  destruct o; cbn [apply]; try (intros H; left; exact H).
  - destruct (load_snapshot_frame events e) as (-> & _). tauto.
  - unfold start_streaming.
    destruct (running e); [tauto |]. destruct (has_source e); cbn; tauto.
  - destruct (consume_log beh ev e) as (-> & _). tauto.
  - unfold subscribe. cbn [event_callbacks set_callbacks]. rewrite in_app_iff.
    cbn [In]. intros [H | [<- | []]]; [left; exact H | right; reflexivity].
  - unfold unsubscribe. cbn [event_callbacks set_callbacks].
    intros H. left. exact (remove_first_subset _ _ _ H).
Qed.

Lemma apply_all_cons beh o ops e :
  apply_all beh (o :: ops) e = apply_all beh ops (apply beh o e).
Proof. reflexivity. Qed.

Lemma apply_all_unsubscribed beh cb ops e :
  ~ In cb (event_callbacks e) ->
  Forall (fun o => o <> OpSubscribe cb) ops ->
  exists more,
    delivered (apply_all beh ops e) = delivered e ++ more
    /\ Forall (fun d => fst d <> cb) more.
Proof.
  intros Hnot Hops. revert e Hnot.
  induction Hops as [|o ops Ho Hops IH]; intros e Hnot.
  - exists []. split; [symmetry; apply app_nil_r | constructor].
  - rewrite apply_all_cons.
    destruct (apply_log beh o e) as (m1 & Hd1 & Hm1).
    destruct (IH (apply beh o e)) as (m2 & Hd2 & Hm2).
    { intros Hin. destruct (apply_callbacks _ _ _ _ Hin); [tauto | congruence]. }
    exists (m1 ++ m2). split; [rewrite Hd2, Hd1, app_assoc; reflexivity |].
    apply Forall_app. split; [| exact Hm2].
    eapply Forall_impl; [exact Hm1 |].
    intros d Hd Heq. cbn in Hd. rewrite Heq in Hd. tauto.
Qed.

(** X19: a callback that was subscribed at most once is not called any
    more after [unsubscribe], whatever is done to the engine and however
    many events arrive, as long as it is not subscribed again. *)
Theorem X19_unsubscribed_callback_is_not_called beh cb ops e
  (Honce : (count_occ Nat.eq_dec (event_callbacks e) cb <= 1)%nat)
  (Hops : Forall (fun o => o <> OpSubscribe cb) ops) :
  exists more,
    delivered (apply_all beh ops (unsubscribe cb e)) = delivered e ++ more
    /\ Forall (fun d => fst d <> cb) more.
Proof.
  apply (apply_all_unsubscribed beh cb ops (unsubscribe cb e)); [| exact Hops].
  unfold unsubscribe. cbn [event_callbacks set_callbacks].
  apply remove_first_once. exact Honce.
Qed.

Lemma X19_witness :
  exists more,
    delivered (apply_all Samples.quiet
                 [OpEvent (Samples.plain_event "a"); OpSubscribe 5%nat;
                  OpEvent (Samples.plain_event "b")]
                 (unsubscribe 7%nat (Samples.engine_running 2)))
    = [] ++ more
    /\ Forall (fun d => fst d <> 7%nat) more.
Proof.
  apply (X19_unsubscribed_callback_is_not_called Samples.quiet 7%nat
           [OpEvent (Samples.plain_event "a"); OpSubscribe 5%nat;
            OpEvent (Samples.plain_event "b")]
           (Samples.engine_running 2)).
  - simpl; lia.
  - repeat constructor; discriminate.
Defined.

(** An engine that is not running, or is paused, under one operation. *)
Lemma apply_stopped beh o e :
  running e = false -> o <> OpStart ->
  running (apply beh o e) = false
  /\ delivered (apply beh o e) = delivered e
  /\ ((forall events, o <> OpLoadSnapshot events) ->
      buffer (apply beh o e) = buffer e \/ buffer (apply beh o e) = []).
Proof.
  intros Hr Ho. destruct o; cbn [apply]; try congruence;
    try (cbn; repeat split; solve [assumption | left; reflexivity | right; reflexivity]).
  - destruct (load_snapshot_frame events e) as (_ & -> & _ & _ & -> & _).
    split; [exact Hr |]. split; [reflexivity |].
    intros H. exfalso. exact (H events eq_refl).
  - destruct (consume_log beh ev e) as (_ & _ & _ & _ & Hsame & _).
    rewrite (Hsame (or_introl Hr)).
    split; [exact Hr |]. split; [reflexivity | left; reflexivity].
Qed.

Lemma apply_paused beh o e :
  paused e = true -> o <> OpResume ->
  paused (apply beh o e) = true
  /\ delivered (apply beh o e) = delivered e
  /\ ((forall events, o <> OpLoadSnapshot events) ->
      buffer (apply beh o e) = buffer e \/ buffer (apply beh o e) = []).
Proof.
  intros Hp Ho. destruct o; cbn [apply]; try congruence;
    try (cbn; repeat split; solve [assumption | left; reflexivity | right; reflexivity]).
  - destruct (load_snapshot_frame events e) as (_ & _ & -> & _ & -> & _).
    split; [exact Hp |]. split; [reflexivity |].
    intros H. exfalso. exact (H events eq_refl).
  - unfold start_streaming.
    destruct (running e); [| destruct (has_source e)]; cbn;
      (split; [exact Hp |]; split; [reflexivity | intros _; left; reflexivity]).
  - destruct (consume_log beh ev e) as (_ & _ & _ & _ & Hsame & _).
    rewrite (Hsame (or_intror Hp)).
    split; [exact Hp |]. split; [reflexivity | left; reflexivity].
Qed.

(** X20: while the engine is stopped, and while it is paused, the live
    sequence has no effect: no subscriber is called until [start_streaming],
    respectively [resume], and unless a snapshot is loaded the buffer holds
    what it held or, after a flush, nothing; paused, the buffer does not
    fill. *)
Theorem X20_no_delivery_while_stopped_or_paused beh ops e
  (Hidle : (running e = false /\ Forall (fun o => o <> OpStart) ops)
           \/ (paused e = true /\ Forall (fun o => o <> OpResume) ops)) :
  delivered (apply_all beh ops e) = delivered e
  /\ (Forall (fun o => forall events, o <> OpLoadSnapshot events) ops ->
      buffer (apply_all beh ops e) = buffer e \/ buffer (apply_all beh ops e) = []).
Proof.
  destruct Hidle as [[Hr Hops] | [Hp Hops]].
  - revert e Hr. induction Hops as [|o ops Ho Hops IH]; intros e Hr.
    + split; [reflexivity | left; reflexivity].
    + rewrite apply_all_cons.
      destruct (apply_stopped beh o e Hr Ho) as (Hr1 & Hd1 & Hb1).
      destruct (IH _ Hr1) as [Hd2 Hb2].
      split; [rewrite Hd2; exact Hd1 |].
      intros Hsnap. inversion Hsnap as [|? ? Hso Hsops]; subst.
      destruct (Hb2 Hsops) as [H | H]; [| right; exact H].
      rewrite H. exact (Hb1 Hso).
  - revert e Hp. induction Hops as [|o ops Ho Hops IH]; intros e Hp.
    + split; [reflexivity | left; reflexivity].
    + rewrite apply_all_cons.
      destruct (apply_paused beh o e Hp Ho) as (Hp1 & Hd1 & Hb1).
      destruct (IH _ Hp1) as [Hd2 Hb2].
      split; [rewrite Hd2; exact Hd1 |].
      intros Hsnap. inversion Hsnap as [|? ? Hso Hsops]; subst.
      destruct (Hb2 Hsops) as [H | H]; [| right; exact H].
      rewrite H. exact (Hb1 Hso).
Qed.

Lemma X20_witness :
  delivered (apply_all Samples.quiet
               [OpEvent (Samples.plain_event "a"); OpSubscribe 5%nat;
                OpEvent (Samples.plain_event "b")]
               (pause Samples.engine_one))
  = [(7, 0); (9, 0)]%nat.
Proof.
  destruct (X20_no_delivery_while_stopped_or_paused Samples.quiet
              [OpEvent (Samples.plain_event "a"); OpSubscribe 5%nat;
               OpEvent (Samples.plain_event "b")]
              (pause Samples.engine_one)) as [Hd _].
  - right. split; [reflexivity | repeat constructor; discriminate].
  - rewrite Hd. reflexivity.
Defined.

Lemma apply_no_source beh o e :
  has_source e = false -> running e = false -> buffer e = [] ->
  o <> OpSelectSource ->
  has_source (apply beh o e) = false
  /\ running (apply beh o e) = false
  /\ buffer (apply beh o e) = []
  /\ delivered (apply beh o e) = delivered e
  /\ objects (apply beh o e) = objects e.
Proof.
  intros Hs Hr Hb Ho. destruct o; cbn [apply]; try congruence;
    try (cbn; repeat split; assumption).
  - destruct (load_snapshot_frame events e) as (_ & _ & _ & _ & _ & Hsame).
    rewrite (Hsame Hs). repeat split; assumption.
  - unfold start_streaming. rewrite Hr, Hs. cbn. repeat split; assumption.
  - destruct (consume_log beh ev e) as (_ & _ & _ & _ & Hsame & _).
    rewrite (Hsame (or_introl Hr)). repeat split; assumption.
Qed.

(** X21: an engine that never got a source, because [initialize] was not
    called or found none, cannot be made to do anything: [start_streaming]
    and [load_snapshot] raise [RuntimeError] and leave it as it is, so it
    never runs, its buffer stays empty, no event object is taken in and no
    subscriber is ever called. *)
Theorem X21_without_a_source_nothing_happens beh n e0 ops
  (Hinit : init n = Return e0)
  (Hops : Forall (fun o => o <> OpSelectSource) ops) :
  let e := apply_all beh ops e0 in
  running e = false /\ buffer e = [] /\ delivered e = [] /\ objects e = ∅
  /\ fst (start_streaming e) = Raise RuntimeError
  /\ forall events, load_snapshot events e = (Raise RuntimeError, e).
Proof.
  cbn zeta.
  assert (H0 : has_source e0 = false /\ running e0 = false /\ buffer e0 = []
               /\ delivered e0 = [] /\ objects e0 = ∅).
  { unfold init in Hinit. destruct (n <? 0)%Z; [discriminate Hinit |].
    injection Hinit as <-. repeat split. }
  clear Hinit.
  assert (H : has_source (apply_all beh ops e0) = false
              /\ running (apply_all beh ops e0) = false
              /\ buffer (apply_all beh ops e0) = []
              /\ delivered (apply_all beh ops e0) = []
              /\ objects (apply_all beh ops e0) = ∅).
  { revert e0 H0. induction Hops as [|o ops Ho Hops IH]; intros e0 H0; [exact H0 |].
    rewrite apply_all_cons. apply IH.
    destruct H0 as (Hs & Hr & Hb & Hd & Hobj).
    destruct (apply_no_source beh o e0 Hs Hr Hb Ho) as (Hs1 & Hr1 & Hb1 & Hd1 & Ho1).
    rewrite Hd1, Ho1. repeat split; assumption. }
  destruct H as (Hs & Hr & Hb & Hd & Hobj).
  split; [exact Hr |]. split; [exact Hb |]. split; [exact Hd |]. split; [exact Hobj |].
  split.
  - unfold start_streaming. rewrite Hr, Hs. reflexivity.
  - intros events. unfold load_snapshot. rewrite Hs. reflexivity.
Qed.

Lemma X21_witness :
  exists e0,
    init 4 = Return e0
    /\ buffer (apply_all Samples.quiet
                 [OpSubscribe 3%nat; OpStart;
                  OpLoadSnapshot [Samples.plain_event "a"];
                  OpEvent (Samples.plain_event "b")] e0) = [].
Proof.
  destruct (init 4) as [e0|x] eqn:E; [| vm_compute in E; discriminate E].
  exists e0. split; [reflexivity |].
  exact (proj1 (proj2 (X21_without_a_source_nothing_happens Samples.quiet 4 e0
           [OpSubscribe 3%nat; OpStart; OpLoadSnapshot [Samples.plain_event "a"];
            OpEvent (Samples.plain_event "b")]
           E ltac:(repeat constructor; discriminate)))).
Defined.

(** X22: in every engine that can be reached from a new one, whatever
    was done to it, each entry [get_buffer] returns is an event object
    that exists: no operation leaves a dangling reference in the buffer,
    and there are never more entries than the capacity. *)
Theorem X22_buffer_entries_are_events beh n e0 ops
  (Hinit : init n = Return e0) :
  let e := apply_all beh ops e0 in
  Forall (fun a => is_Some (objects e !! a)) (get_buffer e)
  /\ (length (get_buffer e) <= buffer_size e)%nat
  /\ Z.of_nat (buffer_size e) = n.
Proof.
  cbn zeta. unfold get_buffer. split.
  - pose proof (EngineInvariant.well_formed_reachable beh n e0 ops Hinit) as H.
    unfold well_formed in H. eapply Forall_impl; [exact H |].
    intros a [_ Ha]. exact Ha.
  - assert (H0 : (length (buffer e0) <= buffer_size e0)%nat
                 /\ Z.of_nat (buffer_size e0) = n).
    { unfold init in Hinit. destruct (n <? 0)%Z eqn:En; [discriminate Hinit |].
      injection Hinit as <-. cbn. split; lia. }
    destruct H0 as [Hlen Hn].
    destruct (EngineProps.apply_all_bounded beh ops e0 Hlen) as [Hs Hb].
    rewrite Hs. split; [exact Hb | exact Hn].
Qed.

Lemma X22_witness :
  exists e0,
    init 1 = Return e0
    /\ (length (get_buffer
                  (apply_all Samples.quiet
                     [OpSelectSource; OpStart; OpEvent (Samples.plain_event "a");
                      OpEvent (Samples.plain_event "b")] e0)) <= 1)%nat.
Proof.
  destruct (init 1) as [e0|x] eqn:E; [| vm_compute in E; discriminate E].
  exists e0. split; [reflexivity |].
  destruct (X22_buffer_entries_are_events Samples.quiet 1 e0
              [OpSelectSource; OpStart; OpEvent (Samples.plain_event "a");
               OpEvent (Samples.plain_event "b")] E) as (_ & Hlen & Hn).
  cbn zeta in *.
  replace (buffer_size (apply_all Samples.quiet
             [OpSelectSource; OpStart; OpEvent (Samples.plain_event "a");
              OpEvent (Samples.plain_event "b")] e0)) with 1%nat in Hlen by lia.
  exact Hlen.
Defined.

End EngineMore.

(** ** More on the plugin manager *)

Module PluginsMore.
Import Event Errors Plugins PluginOps.

(** What a call of [load_plugin] can do to the manager. *)
Lemma load_plugin_shape dir name mgr :
  snd (load_plugin dir name mgr) = mgr
  \/ exists p,
      plugins mgr !! name = None
      /\ _load_plugin_module dir name = Return p
      /\ fst (load_plugin dir name mgr) = Return true
      /\ snd (load_plugin dir name mgr) = set_plugins (<[name := p]> (plugins mgr)) mgr.
Proof.
  unfold load_plugin. destruct (plugins mgr !! name) eqn:Hl; [left; reflexivity |].
  unfold load_attempt.
  destruct (_load_plugin_module dir name) as [p|x] eqn:Hm.
  2:{ left. destruct (is_Exception x); reflexivity. }
  destruct (truth p); cbn [negb]; [| left; reflexivity].
  destruct (match min_engine_version p with
            | Some required => _check_version_compatibility required (engine_version mgr)
            | None => true
            end); cbn [negb]; [| left; reflexivity].
  destruct (context_set mgr).
  - destruct (on_load p) as [[|]| |]; try (left; reflexivity).
    right. exists p. repeat split.
  - right. exists p. repeat split.
Qed.

Lemma process_names_called registry event names name :
  In name (snd (process_names registry event names)) ->
  In name names /\ is_Some (registry !! name).
Proof.
  induction names as [|n rest IH]; cbn [process_names snd In]; [tauto |].
  destruct (registry !! n) as [p|] eqn:Hn.
  - destruct (on_event p event);
      try (destruct (process_names registry event rest) as [r called];
           cbn [snd In] in *; intros [<- | H];
           [split; [left; reflexivity | rewrite Hn; eexists; reflexivity]
           | split; [right |]; apply (IH H)]).
    cbn [snd In]. intros [<- | []].
    split; [left; reflexivity | rewrite Hn; eexists; reflexivity].
  - intros H. split; [right |]; apply (IH H).
Qed.

(** X23: a load that goes through (the file gives a plugin instance, the
    engine is recent enough for it, and its load hook, when there is a
    context to call it with, returns true) returns true and registers the
    instance under the name, without enabling it: the plugin gets no event
    yet.  Loading the same name again returns true at once and changes
    nothing, whatever the file holds by then. *)
Theorem X23_load_registers_without_enabling dir name mgr p
  (Hfresh : plugins mgr !! name = None)
  (Hmod : _load_plugin_module dir name = Return p)
  (Htruth : truth p = true)
  (Hver : forall required,
      min_engine_version p = Some required ->
      _check_version_compatibility required (engine_version mgr) = true)
  (Hhook : context_set mgr = false \/ on_load p = Returns true) :
  let mgr' := snd (load_plugin dir name mgr) in
  fst (load_plugin dir name mgr) = Return true
  /\ plugins mgr' = <[name := p]> (plugins mgr)
  /\ enabled_plugins mgr' = enabled_plugins mgr
  /\ (forall dir', load_plugin dir' name mgr' = (Return true, mgr'))
  /\ (forall event,
        ~ In name (enabled_plugins mgr) ->
        ~ In name (snd (process_event mgr' event))).
Proof.
  cbn zeta.
  assert (Hload : load_plugin dir name mgr
                  = (Return true, set_plugins (<[name := p]> (plugins mgr)) mgr)).
  { rewrite (PluginsProps.load_plugin_fresh dir name mgr Hfresh).
    unfold load_attempt. rewrite Hmod, Htruth. cbn [negb].
    assert (Hc : match min_engine_version p with
                 | Some required =>
                     _check_version_compatibility required (engine_version mgr)
                 | None => true
                 end = true).
    { destruct (min_engine_version p) as [r|]; [apply Hver |]; reflexivity. }
    rewrite Hc. cbn [negb].
    destruct Hhook as [-> | Hh]; [reflexivity |].
    rewrite Hh. destruct (context_set mgr); reflexivity. }
  rewrite Hload. cbn [fst snd plugins enabled_plugins set_plugins].
  split; [reflexivity |]. split; [reflexivity |]. split; [reflexivity |].
  split.
  - intros dir'. unfold load_plugin. cbn [plugins set_plugins].
    rewrite lookup_insert_eq. reflexivity.
  - intros event Hnot Hin. unfold process_event in Hin.
    cbn [plugins enabled_plugins set_plugins] in Hin.
    apply process_names_called in Hin. tauto.
Qed.

Lemma X23_witness :
  let good := Samples.plugin "1.0" (Returns true) (Returns tt) in
  let mgr' := snd (load_plugin (Samples.one_plugin good) "demo" Samples.manager0) in
  fst (load_plugin (Samples.one_plugin good) "demo" Samples.manager0) = Return true
  /\ plugins mgr' !! "demo" = Some good
  /\ enabled_plugins mgr' = []
  /\ load_plugin (Samples.one_plugin Samples.declining) "demo" mgr' = (Return true, mgr').
Proof.
  cbn zeta.
  destruct (X23_load_registers_without_enabling
              (Samples.one_plugin (Samples.plugin "1.0" (Returns true) (Returns tt)))
              "demo" Samples.manager0
              (Samples.plugin "1.0" (Returns true) (Returns tt)))
    as (Hr & Hp & He & Hagain & _).
  - reflexivity.
  - reflexivity.
  - reflexivity.
  - intros required H. injection H as <-. vm_compute. reflexivity.
  - right. reflexivity.
  - cbn zeta in *. split; [exact Hr |].
    split; [rewrite Hp; apply lookup_insert_eq |].
    split; [rewrite He; reflexivity | apply Hagain].
Defined.

Lemma filter_all {A} (P : A -> Prop) `{forall x, Decision (P x)} (l : list A) :
  Forall P l -> filter P l = l.
Proof.
  induction 1 as [|x l Hx Hl IH]; [reflexivity |].
  rewrite filter_cons_True by exact Hx. rewrite IH. reflexivity.
Qed.

(** One call keeps the manager consistent. *)
Lemma discard_spec name l x : x ∈ discard name l <-> x <> name /\ x ∈ l.
Proof. unfold discard. rewrite list_elem_of_filter. reflexivity. Qed.

Lemma consistent_discard name mgr :
  consistent mgr ->
  consistent (set_enabled (discard name (enabled_plugins mgr)) mgr).
Proof.
  intros [Hnd Hall]. split; cbn [enabled_plugins plugins set_enabled].
  - apply NoDup_filter. exact Hnd.
  - apply Forall_forall. intros x Hx. apply discard_spec in Hx.
    rewrite Forall_forall in Hall. apply Hall. tauto.
Qed.

Lemma consistent_after c mgr :
  reorders c -> consistent mgr -> consistent (after c mgr).
Proof.
  intros Hre Hc. pose proof Hc as [Hnd Hall].
  destruct c as [dir name|name|rehash name|name]; cbn [after].
  - destruct (load_plugin_shape dir name mgr) as [-> | (p & _ & _ & _ & ->)];
      [exact Hc |].
    split; cbn [enabled_plugins plugins set_plugins]; [exact Hnd |].
    eapply Forall_impl; [exact Hall |]. intros x Hx. cbn in *.
    destruct (decide (name = x)) as [-> | Hne].
    + rewrite lookup_insert_eq. eexists; reflexivity.
    + rewrite lookup_insert_ne by exact Hne. exact Hx.
  - unfold unload_plugin. destruct (plugins mgr !! name) as [p|] eqn:Hp; [| exact Hc].
    destruct (on_unload p); cbn [snd]; try exact Hc.
    split; cbn [enabled_plugins plugins set_plugins set_enabled].
    + apply NoDup_filter. exact Hnd.
    + apply Forall_forall. intros x Hx. apply discard_spec in Hx.
      destruct Hx as [Hne Hx].
      rewrite lookup_delete_ne by congruence.
      rewrite Forall_forall in Hall. exact (Hall x Hx).
  - unfold enable_plugin. destruct (plugins mgr !! name) as [p|] eqn:Hp; [| exact Hc].
    cbn [snd]. destruct (bool_decide (name ∈ enabled_plugins mgr)) eqn:Hin; [exact Hc |].
    apply bool_decide_eq_false in Hin.
    cbn [reorders] in Hre.
    split; cbn [enabled_plugins plugins set_enabled].
    + rewrite (Hre (enabled_plugins mgr ++ [name])).
      apply NoDup_app. split; [exact Hnd |]. split; [| apply NoDup_singleton].
      intros x Hx Hx'. apply list_elem_of_singleton in Hx'. subst x. tauto.
    + rewrite (Hre (enabled_plugins mgr ++ [name])).
      apply Forall_app. split; [exact Hall |].
      constructor; [rewrite Hp; eexists; reflexivity | constructor].
  - cbn [disable_plugin snd]. apply consistent_discard. exact Hc.
Qed.

Lemma after_all_cons c calls mgr :
  after_all (c :: calls) mgr = after_all calls (after c mgr).
Proof. reflexivity. Qed.

Lemma consistent_after_all calls mgr :
  Forall reorders calls -> consistent mgr -> consistent (after_all calls mgr).
Proof.
  intros Hre. revert mgr.
  induction Hre as [|c calls Hc _ IH]; intros mgr H; [exact H |].
  rewrite after_all_cons. apply IH. apply consistent_after; assumption.
Qed.

(** X24: whatever sequence of loads, unloads, enables and disables a
    manager goes through, with or without a context, and in whatever
    order the set of enabled names comes to be iterated, every enabled
    name is the name of a loaded plugin and is in the set once.  So
    [process_event] calls the event hook of each enabled plugin exactly
    once, in the order in which the set is iterated, skipping none, as
    long as no hook is cancelled. *)
Theorem X24_enabled_plugins_are_loaded v calls with_context event
  (Hsets : Forall reorders calls) :
  let mgr := after_all calls (if with_context : bool
                              then set_context (init v) else init v) in
  NoDup (enabled_plugins mgr)
  /\ Forall (fun name => is_Some (plugins mgr !! name)) (enabled_plugins mgr)
  /\ ((forall name p, In name (enabled_plugins mgr) -> plugins mgr !! name = Some p ->
                      on_event p event <> Cancelled) ->
      process_event mgr event = (Return tt, enabled_plugins mgr)).
Proof.
  cbn zeta.
  assert (Hc : consistent (after_all calls (if with_context
                                            then set_context (init v) else init v))).
  { apply consistent_after_all; [exact Hsets |].
    destruct with_context; split; cbn; constructor. }
  destruct Hc as [Hnd Hall]. split; [exact Hnd |]. split; [exact Hall |].
  intros Hquiet. unfold process_event.
  rewrite (PluginsProps.process_names_no_cancel _ _ _ Hquiet).
  f_equal. apply filter_all. exact Hall.
Qed.

Lemma X24_witness :
  let good := Samples.plugin "1.0" (Returns true) (Returns tt) in
  let mgr := after_all [Load (Samples.one_plugin good) "demo"; Enable reverse "demo";
                        Enable reverse "demo"; Enable reverse "other"]
                       (set_context (init "1.0")) in
  process_event mgr (Samples.plain_event "x") = (Return tt, enabled_plugins mgr).
Proof.
  cbn zeta.
  destruct (X24_enabled_plugins_are_loaded "1.0"
              [Load (Samples.one_plugin
                       (Samples.plugin "1.0" (Returns true) (Returns tt))) "demo";
               Enable reverse "demo"; Enable reverse "demo"; Enable reverse "other"]
              true (Samples.plain_event "x")) as (_ & _ & H).
  { repeat constructor; intros l; apply reverse_Permutation. }
  cbn zeta in H. apply H.
  intros name p Hin Hp. vm_compute in Hin.
  destruct Hin as [<- | []]. vm_compute in Hp. injection Hp as <-. discriminate.
Defined.

Lemma load_plugin_registered dir name mgr :
  plugins mgr !! name = None ->
  fst (load_plugin dir name mgr) = Return true ->
  exists p,
    _load_plugin_module dir name = Return p
    /\ snd (load_plugin dir name mgr) = set_plugins (<[name := p]> (plugins mgr)) mgr.
Proof.
  intros Hfresh. rewrite (PluginsProps.load_plugin_fresh dir name mgr Hfresh).
  unfold load_attempt.
  destruct (_load_plugin_module dir name) as [p|x] eqn:Hm.
  2:{ destruct (is_Exception x); intros H; discriminate H. }
  destruct (truth p); cbn [negb]; [| intros H; discriminate H].
  destruct (match min_engine_version p with
            | Some required => _check_version_compatibility required (engine_version mgr)
            | None => true
            end); cbn [negb]; [| intros H; discriminate H].
  destruct (context_set mgr).
  - destruct (on_load p) as [[|]| |]; intros H; try discriminate H.
    exists p. split; reflexivity.
  - intros _. exists p. split; reflexivity.
Qed.

Lemma discard_absent name l : ~ In name l -> discard name l = l.
Proof.
  intros H. unfold discard. apply filter_all.
  apply Forall_forall. intros x Hx ->. apply list_elem_of_In in Hx. tauto.
Qed.

Lemma discard_snoc name l : ~ In name l -> discard name (l ++ [name]) = l.
Proof.
  intros H. unfold discard. rewrite filter_app.
  fold (discard name l). rewrite (discard_absent _ _ H).
  rewrite filter_cons_False by tauto. apply app_nil_r.
Qed.

(** X25: unloading undoes loading.  When a name that was neither loaded
    nor enabled has been loaded, unloading it, be it enabled in between or
    not, returns true and gives back the manager as it was before the
    load, provided the unload hook returns: the same plugins, and the same
    set of enabled names (where the name was enabled in between, the set
    may be iterated in another order than before).  When the hook raises
    the call returns false and the plugin stays loaded, and enabled if it
    was. *)
Theorem X25_unload_undoes_load dir rehash name mgr
  (Hfresh : plugins mgr !! name = None)
  (Hoff : ~ In name (enabled_plugins mgr))
  (Hok : fst (load_plugin dir name mgr) = Return true)
  (Hset : forall l, rehash l ≡ₚ l) :
  let mgr1 := snd (load_plugin dir name mgr) in
  let mgr2 := snd (enable_plugin rehash name mgr1) in
  exists p,
    plugins mgr1 !! name = Some p
    /\ fst (enable_plugin rehash name mgr1) = true
    /\ In name (enabled_plugins mgr2)
    /\ (forall u, on_unload p = Returns u ->
                  unload_plugin name mgr1 = (Return true, mgr)
                  /\ exists enabled,
                      enabled ≡ₚ enabled_plugins mgr
                      /\ unload_plugin name mgr2
                         = (Return true, set_enabled enabled mgr))
    /\ (on_unload p = Fails ->
        unload_plugin name mgr1 = (Return false, mgr1)
        /\ unload_plugin name mgr2 = (Return false, mgr2)).
Proof.
  cbn zeta.
  destruct (load_plugin_registered dir name mgr Hfresh Hok) as (p & _ & ->).
  exists p.
  assert (Hl : plugins (set_plugins (<[name:=p]> (plugins mgr)) mgr) !! name = Some p)
    by (cbn; apply lookup_insert_eq).
  assert (Hnot : bool_decide (name ∈ enabled_plugins mgr) = false).
  { apply bool_decide_eq_false. intros H. apply list_elem_of_In in H. tauto. }
  split; [exact Hl |].
  unfold enable_plugin. rewrite Hl. cbn [fst snd enabled_plugins set_plugins].
  rewrite Hnot.
  split; [reflexivity |].
  split.
  { cbn [enabled_plugins set_enabled]. apply list_elem_of_In.
    rewrite (Hset (enabled_plugins mgr ++ [name])).
    apply list_elem_of_In. apply in_app_iff. right. left. reflexivity. }
  unfold unload_plugin. cbn [plugins enabled_plugins set_plugins set_enabled].
  rewrite lookup_insert_eq.
  split.
  - intros u ->. split.
    + f_equal. destruct mgr as [v pl en ctx].
      cbn [plugins enabled_plugins engine_version context_set set_plugins set_enabled] in *.
      rewrite (delete_insert_id _ _ _ Hfresh), (discard_absent _ _ Hoff). reflexivity.
    + exists (discard name (rehash (enabled_plugins mgr ++ [name]))). split.
      * unfold discard at 1. rewrite (Hset (enabled_plugins mgr ++ [name])).
        fold (discard name (enabled_plugins mgr ++ [name])).
        rewrite (discard_snoc _ _ Hoff). reflexivity.
      * f_equal. destruct mgr as [v pl en ctx].
        cbn [plugins enabled_plugins engine_version context_set set_plugins set_enabled]
          in *.
        rewrite (delete_insert_id _ _ _ Hfresh). reflexivity.
  - intros ->. split; reflexivity.
Qed.

Lemma X25_witness :
  let good := Samples.plugin "1.0" (Returns true) (Returns tt) in
  let mgr1 := snd (load_plugin (Samples.one_plugin good) "demo" Samples.manager0) in
  unload_plugin "demo" mgr1 = (Return true, Samples.manager0)
  /\ unload_plugin "demo" (snd (enable_plugin reverse "demo" mgr1))
     = (Return true, Samples.manager0).
Proof.
  cbn zeta.
  destruct (X25_unload_undoes_load
              (Samples.one_plugin (Samples.plugin "1.0" (Returns true) (Returns tt)))
              reverse "demo" Samples.manager0) as (p & Hp & _ & _ & Hret & _).
  - reflexivity.
  - intros [].
  - reflexivity.
  - intros l. apply reverse_Permutation.
  - cbn zeta in *.
    assert (Hu : on_unload p = Returns tt).
    { vm_compute in Hp. injection Hp as <-. reflexivity. }
    destruct (Hret tt Hu) as [H1 (enabled & Hperm & H2)].
    split; [exact H1 |]. rewrite H2.
    apply Permutation_nil_r in Hperm. rewrite Hperm. reflexivity.
Defined.

(** The manager after the unloading of some names, one after the other. *)
Lemma shutdown_spec names mgr :
  NoDup names ->
  (forall n p, n ∈ names -> plugins mgr !! n = Some p -> on_unload p <> Cancelled) ->
  fst (shutdown names mgr) = Return tt
  /\ (forall n,
        plugins (snd (shutdown names mgr)) !! n
        = if decide (n ∈ names /\ unloads mgr n = true) then None
          else plugins mgr !! n)
  /\ enabled_plugins (snd (shutdown names mgr))
     = filter (fun n => ~ (n ∈ names /\ unloads mgr n = true)) (enabled_plugins mgr).
Proof.
  intros Hnd. revert mgr. induction Hnd as [|x rest Hx Hrest IH]; intros mgr Hnc.
  - cbn [shutdown fst snd]. split; [reflexivity |]. split.
    + intros n. destruct (decide _) as [[H _] | _]; [| reflexivity].
      apply elem_of_nil in H. contradiction.
    + symmetry. apply filter_all. apply Forall_forall. intros n _ [H _].
      apply elem_of_nil in H. contradiction.
  - assert (Hkeep :
      (forall n p, n ∈ rest -> plugins mgr !! n = Some p -> on_unload p <> Cancelled)).
    { intros n p Hn. apply Hnc. right. exact Hn. }
    assert (Hsame : unloads mgr x = false ->
      fst (shutdown rest mgr) = Return tt
      /\ (forall n,
            plugins (snd (shutdown rest mgr)) !! n
            = if decide (n ∈ x :: rest /\ unloads mgr n = true) then None
              else plugins mgr !! n)
      /\ enabled_plugins (snd (shutdown rest mgr))
         = filter (fun n => ~ (n ∈ x :: rest /\ unloads mgr n = true))
                  (enabled_plugins mgr)).
    { intros Hu. destruct (IH mgr Hkeep) as (Hr & Hp & He).
      split; [exact Hr |]. split.
      - intros n. rewrite Hp.
        destruct (decide (n ∈ rest /\ unloads mgr n = true)) as [[H1 H2] | H1];
          destruct (decide (n ∈ x :: rest /\ unloads mgr n = true)) as [[H3 H4] | H3];
          try reflexivity.
        + exfalso. apply H3. split; [right; exact H1 | exact H2].
        + exfalso. apply elem_of_cons in H3. destruct H3 as [-> | H3];
            [congruence | tauto].
      - rewrite He. apply list_filter_iff. intros n. split; intros H [H1 H2]; apply H.
        + split; [| exact H2]. apply elem_of_cons in H1.
          destruct H1 as [-> | H1]; [congruence | exact H1].
        + split; [right; exact H1 | exact H2]. }
    cbn [shutdown]. unfold unload_plugin.
    destruct (plugins mgr !! x) as [p|] eqn:Hpx.
    2:{ cbn [fst snd]. apply Hsame. unfold unloads. rewrite Hpx. reflexivity. }
    destruct (on_unload p) as [u| |] eqn:Hun.
    3:{ exfalso. exact (Hnc x p (list_elem_of_here _ _) Hpx Hun). }
    2:{ apply Hsame. unfold unloads. rewrite Hpx, Hun. reflexivity. }
    set (mgr1 := set_enabled (discard x (enabled_plugins mgr))
                             (set_plugins (delete x (plugins mgr)) mgr)).
    assert (Hux : unloads mgr x = true) by (unfold unloads; rewrite Hpx, Hun; reflexivity).
    assert (Hun1 : forall n, n <> x -> unloads mgr1 n = unloads mgr n).
    { intros n Hn. unfold unloads, mgr1. cbn [plugins set_enabled set_plugins].
      rewrite lookup_delete_ne by congruence. reflexivity. }
    destruct (IH mgr1) as (Hr & Hp & He).
    { intros n q Hn Hq. apply (Hnc n q); [right; exact Hn |].
      unfold mgr1 in Hq. cbn [plugins set_enabled set_plugins] in Hq.
      apply lookup_delete_Some in Hq. tauto. }
    split; [exact Hr |]. split.
    + intros n. rewrite Hp.
      destruct (decide (n = x)) as [-> | Hne].
      * destruct (decide (x ∈ rest /\ unloads mgr1 x = true)) as [[H1 _] | _];
          [contradiction |].
        destruct (decide (x ∈ x :: rest /\ unloads mgr x = true)) as [_ | H3].
        -- unfold mgr1. cbn [plugins set_enabled set_plugins]. apply lookup_delete_eq.
        -- exfalso. apply H3. split; [left | exact Hux].
      * rewrite (Hun1 n Hne).
        assert (Hpl : plugins mgr1 !! n = plugins mgr !! n).
        { unfold mgr1. cbn [plugins set_enabled set_plugins].
          apply lookup_delete_ne. congruence. }
        rewrite Hpl.
        destruct (decide (n ∈ rest /\ unloads mgr n = true)) as [[H1 H2] | H1];
          destruct (decide (n ∈ x :: rest /\ unloads mgr n = true)) as [[H3 H4] | H3];
          try reflexivity.
        -- exfalso. apply H3. split; [right; exact H1 | exact H2].
        -- exfalso. apply elem_of_cons in H3. destruct H3 as [-> | H3]; tauto.
    + rewrite He.
      change (enabled_plugins mgr1) with (discard x (enabled_plugins mgr)).
      unfold discard. rewrite list_filter_filter. apply list_filter_iff.
      intros n. split.
      * intros [H Hne] [H1 H2]. apply H. rewrite (Hun1 n Hne).
        split; [| exact H2]. apply elem_of_cons in H1. destruct H1; tauto.
      * intros H. assert (Hne : n <> x).
        { intros ->. apply H. split; [left | exact Hux]. }
        split; [| exact Hne]. intros [H1 H2]. apply H.
        rewrite (Hun1 n Hne) in H2. split; [right; exact H1 | exact H2].
Qed.

(** X26: [shutdown], as long as no unload hook is cancelled, goes through
    all loaded plugins and ends normally.  Afterwards exactly the plugins
    whose unload hook raised are still loaded, and still enabled if they
    were; all others are gone and disabled.  When every hook returns, no
    plugin is left. *)
Theorem X26_shutdown_leaves_the_failing_plugins names mgr
  (Hnd : NoDup names)
  (Hkeys : forall n, n ∈ names <-> is_Some (plugins mgr !! n))
  (Hnc : forall n p, plugins mgr !! n = Some p -> on_unload p <> Cancelled) :
  let mgr' := snd (shutdown names mgr) in
  fst (shutdown names mgr) = Return tt
  /\ (forall n p, plugins mgr' !! n = Some p
                  <-> plugins mgr !! n = Some p /\ on_unload p = Fails)
  /\ enabled_plugins mgr'
     = filter (fun n => unloads mgr n = false) (enabled_plugins mgr)
  /\ ((forall n p, plugins mgr !! n = Some p -> on_unload p <> Fails) ->
      plugins mgr' = ∅).
Proof.
  cbn zeta.
  destruct (shutdown_spec names mgr Hnd) as (Hr & Hp & He).
  { intros n p _. apply Hnc. }
  assert (Hin : forall n, unloads mgr n = true -> n ∈ names).
  { intros n H. apply Hkeys. unfold unloads in H.
    destruct (plugins mgr !! n); [eexists; reflexivity | discriminate H]. }
  assert (Hiff : forall n p, plugins (snd (shutdown names mgr)) !! n = Some p
                             <-> plugins mgr !! n = Some p /\ on_unload p = Fails).
  { intros n p. rewrite Hp.
    destruct (decide (n ∈ names /\ unloads mgr n = true)) as [[H1 H2] | H1].
    - split; [intros H; discriminate H |]. intros [Hl Hf].
      unfold unloads in H2. rewrite Hl, Hf in H2. discriminate H2.
    - split.
      + intros Hl. split; [exact Hl |].
        destruct (on_unload p) as [u| |] eqn:Hun; [| reflexivity |].
        * exfalso. apply H1.
          assert (Hu : unloads mgr n = true)
            by (unfold unloads; rewrite Hl, Hun; reflexivity).
          split; [exact (Hin n Hu) | exact Hu].
        * exfalso. exact (Hnc n p Hl Hun).
      + tauto. }
  split; [exact Hr |]. split; [exact Hiff |]. split.
  - rewrite He. apply list_filter_iff. intros n. split.
    + intros H. destruct (unloads mgr n) eqn:Hu; [| reflexivity].
      exfalso. apply H. split; [exact (Hin n Hu) | reflexivity].
    + intros H [_ H2]. congruence.
  - intros Hnf. apply map_eq. intros n. rewrite lookup_empty.
    destruct (plugins (snd (shutdown names mgr)) !! n) as [p|] eqn:Hl; [| reflexivity].
    apply Hiff in Hl. destruct Hl as [Hl Hf]. exfalso. exact (Hnf n p Hl Hf).
Qed.

Lemma X26_witness :
  fst (shutdown ["c"; "a"; "b"] Samples.manager3) = Return tt
  /\ plugins (snd (shutdown ["c"; "a"; "b"] Samples.manager3)) = ∅.
Proof.
  assert (Hdom : forall n p, plugins Samples.manager3 !! n = Some p ->
                             on_unload p = Returns tt).
  { intros n p H. unfold Samples.manager3 in H. cbn [plugins] in H.
    apply lookup_insert_Some in H. destruct H as [[_ <-] | [_ H]]; [reflexivity |].
    apply lookup_insert_Some in H. destruct H as [[_ <-] | [_ H]]; [reflexivity |].
    apply lookup_insert_Some in H. destruct H as [[_ <-] | [_ H]]; [reflexivity |].
    rewrite lookup_empty in H. discriminate H. }
  destruct (X26_shutdown_leaves_the_failing_plugins ["c"; "a"; "b"] Samples.manager3)
    as (Hr & _ & _ & Hall).
  - repeat constructor; rewrite ?elem_of_cons, ?elem_of_nil; intros H;
      repeat (destruct H as [H | H]; try discriminate H); exact H.
  - intros n. unfold Samples.manager3. cbn [plugins].
    rewrite !elem_of_cons, elem_of_nil. split.
    + intros [-> | [-> | [-> | []]]]; vm_compute; eexists; reflexivity.
    + intros [p H].
      apply lookup_insert_Some in H. destruct H as [[<- _] | [_ H]]; [tauto |].
      apply lookup_insert_Some in H. destruct H as [[<- _] | [_ H]]; [tauto |].
      apply lookup_insert_Some in H. destruct H as [[<- _] | [_ H]]; [tauto |].
      rewrite lookup_empty in H. discriminate H.
  - intros n p H. rewrite (Hdom n p H). discriminate.
  - cbn zeta in *. split; [exact Hr |]. apply Hall.
    intros n p H. rewrite (Hdom n p H). discriminate.
Defined.

(** ** The version comparison as an order *)

Lemma list_ge_refl a : list_ge a a = true.
Proof.
  induction a as [|x a IH]; cbn [list_ge]; [reflexivity |].
  rewrite Z.eqb_refl. exact IH.
Qed.

Lemma list_ge_trans a b c :
  list_ge b a = true -> list_ge c b = true -> list_ge c a = true.
Proof.
  revert b c. induction a as [|x a IH]; intros b c Hba Hcb.
  - destruct c; reflexivity.
  - destruct b as [|y b]; [discriminate Hba |].
    destruct c as [|z c]; [discriminate Hcb |].
    cbn [list_ge] in *.
    destruct (Z.eqb_spec y x) as [-> | Hyx].
    + destruct (Z.eqb_spec z x) as [-> | Hzx]; [exact (IH _ _ Hba Hcb) | exact Hcb].
    + apply Z.ltb_lt in Hba.
      destruct (Z.eqb_spec z y) as [-> | Hzy].
      * destruct (Z.eqb_spec y x); [congruence |]. apply Z.ltb_lt. exact Hba.
      * apply Z.ltb_lt in Hcb.
        destruct (Z.eqb_spec z x) as [-> | Hzx]; [lia |]. apply Z.ltb_lt. lia.
Qed.

Lemma list_ge_total a b : list_ge a b = true \/ list_ge b a = true.
Proof.
  revert b. induction a as [|x a IH]; intros [|y b]; cbn [list_ge]; try tauto.
  destruct (Z.eqb_spec x y) as [-> | Hxy].
  - rewrite Z.eqb_refl. apply IH.
  - destruct (Z.eqb_spec y x) as [-> | _]; [congruence |].
    destruct (Z.ltb_spec y x); [left; reflexivity |].
    right. apply Z.ltb_lt. lia.
Qed.

Lemma check_inv required available :
  _check_version_compatibility required available = true ->
  exists req_parts avail_parts,
    ints (PyStr.split "." required) = Some req_parts
    /\ ints (PyStr.split "." available) = Some avail_parts
    /\ list_ge avail_parts req_parts = true.
Proof.
  unfold _check_version_compatibility.
  destruct (ints (PyStr.split "." required)) as [r|]; [| intros H; discriminate H].
  destruct (ints (PyStr.split "." available)) as [a|]; [| intros H; discriminate H].
  intros H. exists r, a. repeat split. exact H.
Qed.

(** X27: on version strings whose components are integer literals, as
    [int] reads them (whitespace around, one sign at most, digits that
    single underscores may group, 4300 digits at most), the check is a
    total preorder.  A plugin that asks for exactly the engine's version
    is accepted; a plugin that an engine of version [v] accepts is
    accepted by every engine whose version satisfies [v], so an upgrade
    never locks a plugin out; and of two versions at least one satisfies
    the other.  A string with a component that is no such literal, one of
    4301 digits for instance, satisfies nothing and is satisfied by
    nothing, itself included. *)
Theorem X27_version_check_is_a_preorder :
  (forall v,
      Forall (fun c => Spec.int_literal c = true) (PyStr.split "." v) ->
      _check_version_compatibility v v = true)
  /\ (forall required v w,
        _check_version_compatibility required v = true ->
        _check_version_compatibility v w = true ->
        _check_version_compatibility required w = true)
  /\ (forall v w,
        Forall (fun c => Spec.int_literal c = true) (PyStr.split "." v) ->
        Forall (fun c => Spec.int_literal c = true) (PyStr.split "." w) ->
        _check_version_compatibility v w = true
        \/ _check_version_compatibility w v = true)
  /\ (forall v w,
        Exists (fun c => Spec.int_literal c = false) (PyStr.split "." v) ->
        _check_version_compatibility v w = false
        /\ _check_version_compatibility w v = false).
Proof.
  split; [| split; [| split]].
  - intros v H. unfold _check_version_compatibility.
    rewrite (PluginsProps.ints_literals _ H). apply list_ge_refl.
  - intros r v w Hrv Hvw.
    destruct (check_inv _ _ Hrv) as (rp & vp & Hr & Hv & H1).
    destruct (check_inv _ _ Hvw) as (vp' & wp & Hv' & Hw & H2).
    rewrite Hv in Hv'. injection Hv' as <-.
    unfold _check_version_compatibility. rewrite Hr, Hw.
    exact (list_ge_trans _ _ _ H1 H2).
  - intros v w Hv Hw. unfold _check_version_compatibility.
    rewrite (PluginsProps.ints_literals _ Hv), (PluginsProps.ints_literals _ Hw).
    destruct (list_ge_total (map Spec.int_value (PyStr.split "." w))
                            (map Spec.int_value (PyStr.split "." v))); tauto.
  - intros v w Hv. unfold _check_version_compatibility.
    rewrite (PluginsProps.ints_not_literal _ Hv).
    split; [reflexivity |]. destruct (ints (PyStr.split "." w)); reflexivity.
Qed.

Lemma X27_witness :
  _check_version_compatibility "1.2" "1.2" = true
  /\ _check_version_compatibility "1.2" "2.0" = true
  /\ _check_version_compatibility "v1" "v1" = false
  /\ _check_version_compatibility (Samples.ones 4301) (Samples.ones 4301) = false.
Proof.
  destruct X27_version_check_is_a_preorder as (Hrefl & Htrans & _ & Hbad).
  split; [apply Hrefl; repeat constructor |].
  split; [apply (Htrans "1.2" "1.10" "2.0"); vm_compute; reflexivity |].
  split.
  - apply (Hbad "v1" "v1"). left. reflexivity.
  - apply (Hbad (Samples.ones 4301) (Samples.ones 4301)).
    replace (PyStr.split "." (Samples.ones 4301)) with [Samples.ones 4301]
      by (vm_compute; reflexivity).
    left. vm_compute. reflexivity.
Defined.

End PluginsMore.

(** ** Source selection *)

Module ProbeMore.
Import Event Errors Sources Probe.

Lemma can_read_dmesg_spec run :
  can_read_dmesg run = true <-> exists stdout, run ["dmesg"] = Completed 0 stdout.
Proof.
  unfold can_read_dmesg. destruct (run ["dmesg"]) as [| |rc out].
  - split; [intros H; discriminate H | intros [? H]; discriminate H].
  - split; [intros H; discriminate H | intros [? H]; discriminate H].
  - split.
    + intros H. apply Z.eqb_eq in H. subst rc. exists out. reflexivity.
    + intros [out' H]. injection H as -> _. reflexivity.
Qed.

(** X28: [initialize] takes [dmesg] whenever plain [dmesg] exits with
    status 0, whatever [journalctl] does; it takes [journalctl] only when
    [dmesg] is missing, times out or exits with another status; it fails,
    leaving the engine without a source, only when both probes fail.  The
    adapter gets the engine's capacity.  What [dmesg -w] or [dmesg -L] do
    plays no part: an engine initialised for [dmesg] whose [dmesg -L] is
    refused raises [PermissionDeniedError] at the snapshot, and does not
    turn to [journalctl]. *)
Theorem X28_initialize_prefers_dmesg run e :
  (can_read_dmesg run = true <-> exists stdout, run ["dmesg"] = Completed 0 stdout)
  /\ (can_read_dmesg run = true ->
      initialize run e
      = (true, Some (UseDmesg (DmesgSource_init (Z.of_nat (Engine.buffer_size e)))),
         Engine.set_source true e))
  /\ (can_read_dmesg run = false -> can_use_journalctl run = true ->
      initialize run e
      = (true,
         Some (UseJournalctl
                 {| journal_buffer_size := Z.of_nat (Engine.buffer_size e) |}),
         Engine.set_source true e))
  /\ (can_read_dmesg run = false -> can_use_journalctl run = false ->
      initialize run e = (false, None, e))
  /\ (forall run',
        run' ["dmesg"] = run ["dmesg"] ->
        run' ["journalctl"; "-k"; "-n"; "1"] = run ["journalctl"; "-k"; "-n"; "1"] ->
        initialize run' e = initialize run e)
  /\ (forall h returncode stdout,
        can_read_dmesg run = true ->
        run ["dmesg"; "-L"] = Completed returncode stdout ->
        returncode <> 0%Z ->
        fst (dmesg_get_snapshot run h
               (DmesgSource_init (Z.of_nat (Engine.buffer_size e))))
        = Raise PermissionDeniedError).
Proof.
  split; [apply can_read_dmesg_spec |].
  unfold initialize, get_available_sources.
  split; [intros ->; destruct (can_use_journalctl run); reflexivity |].
  split; [intros -> ->; reflexivity |].
  split; [intros -> ->; reflexivity |].
  split.
  - intros run' Hd Hj. unfold can_read_dmesg, can_use_journalctl.
    rewrite Hd, Hj. reflexivity.
  - intros h rc out _ Hrun Hrc. unfold dmesg_get_snapshot. rewrite Hrun.
    destruct (Z.eqb_spec rc 0) as [-> | _]; [congruence | reflexivity].
Qed.

Lemma X28_witness :
  fst (fst (initialize Samples.dmesg_two_lines (Samples.engine_running 2))) = true
  /\ initialize (fun _ => TimedOut) (Samples.engine_running 2)
     = (false, None, Samples.engine_running 2).
Proof.
  destruct (X28_initialize_prefers_dmesg Samples.dmesg_two_lines
              (Samples.engine_running 2)) as (_ & Hd & _).
  destruct (X28_initialize_prefers_dmesg (fun _ => TimedOut)
              (Samples.engine_running 2)) as (_ & _ & _ & Hnone & _).
  split; [rewrite Hd; reflexivity | apply Hnone; reflexivity].
Defined.

End ProbeMore.

(** ** Polling the buffer *)

Module ReaderMore.
Import Event Errors Engine Reader.

(** X29: [get_new_logs] remembers the length of the buffer, not the last
    event it reported.  Called again with nothing new it returns nothing;
    after events have come in that found room in the buffer it returns
    exactly these, once.  But when the buffer was full at the last call it
    never returns anything again, however many events arrive: the new
    events push old ones out and the length stays what it was.  And
    [clear_buffer] empties the buffer without resetting the remembered
    length, so the events that come next, as many as the buffer held, are
    not reported either. *)
Theorem X29_get_new_logs_goes_silent_on_a_full_buffer beh r
  (Hinit : engine_initialized r = true)
  (Hidx : _last_buffer_index r = Z.of_nat (length (buffer (engine r))))
  (Hlen : (length (buffer (engine r)) <= buffer_size (engine r))%nat) :
  fst (get_new_logs r) = []
  /\ (forall evs,
        running (engine r) = true -> paused (engine r) = false ->
        (forall cb x, beh cb x <> CbCancelled) ->
        Forall (fun ev => is_cont ev = false) evs ->
        (length (buffer (engine r)) + length evs <= buffer_size (engine r))%nat ->
        let r1 := with_engine (run_stream beh evs) r in
        fst (get_new_logs r1) = seq (next_addr (engine r)) (length evs)
        /\ fst (get_new_logs (snd (get_new_logs r1))) = [])
  /\ (length (buffer (engine r)) = buffer_size (engine r) ->
      forall ops, fst (get_new_logs (with_engine (apply_all beh ops) r)) = [])
  /\ (forall evs,
        running (engine r) = true -> paused (engine r) = false ->
        (forall cb x, beh cb x <> CbCancelled) ->
        Forall (fun ev => is_cont ev = false) evs ->
        (length evs <= length (buffer (engine r)))%nat ->
        fst (clear_buffer r) = true
        /\ fst (get_new_logs (with_engine (run_stream beh evs) (snd (clear_buffer r))))
           = []).
Proof.
  assert (Hcall : forall r', engine_initialized r' = true ->
            (0 <= _last_buffer_index r')%Z ->
            get_new_logs r'
            = (drop (Z.to_nat (_last_buffer_index r')) (buffer (engine r')),
               {| engine := engine r'; engine_initialized := true;
                  _last_buffer_index := Z.of_nat (length (buffer (engine r'))) |})).
  { intros r' Hi Hpos. unfold get_new_logs, get_buffer, slice_from. rewrite Hi.
    cbn [negb]. destruct (Z.ltb_spec (_last_buffer_index r') 0); [lia |]. reflexivity. }
  split; [| split; [| split]].
  - rewrite Hcall by (try exact Hinit; lia). cbn [fst]. rewrite Hidx, Nat2Z.id.
    apply drop_all.
  - intros evs Hrun Hnp Hquiet Hplain Hroom. cbn zeta.
    destruct (EngineProps.run_stream_plain beh evs (engine r) Hrun Hnp Hquiet Hplain)
      as (Hb & _ & _ & _).
    cbn zeta in Hb.
    rewrite (EngineProps.deque_extend_newest _ _ _ Hlen) in Hb.
    replace (length (buffer (engine r) ++ seq (next_addr (engine r)) (length evs))
             - buffer_size (engine r))%nat with 0%nat in Hb
      by (rewrite length_app, length_seq; lia).
    rewrite drop_0 in Hb.
    rewrite Hcall; unfold with_engine; cbn [engine engine_initialized _last_buffer_index];
      [| exact Hinit | lia].
    cbn [fst snd]. rewrite Hb, Hidx, Nat2Z.id.
    split; [apply drop_app_length |].
    rewrite Hcall; cbn [engine engine_initialized _last_buffer_index]; [| reflexivity | lia].
    cbn [fst]. rewrite Nat2Z.id, Hb. apply drop_all.
  - intros Hfull ops.
    destruct (EngineProps.apply_all_bounded beh ops (engine r) Hlen) as [_ Hb].
    rewrite Hcall; unfold with_engine; cbn [engine engine_initialized _last_buffer_index];
      [| exact Hinit | lia].
    cbn [fst]. rewrite Hidx, Nat2Z.id. apply drop_ge. lia.
  - intros evs Hrun Hnp Hquiet Hplain Hfew. split; [reflexivity |].
    destruct (EngineProps.run_stream_plain beh evs (flush_buffer (engine r))
                Hrun Hnp Hquiet Hplain) as (Hb & _ & _ & _).
    cbn zeta in Hb. cbn [buffer buffer_size next_addr flush_buffer set_buffer] in Hb.
    rewrite (EngineProps.deque_extend_newest _ _ []) in Hb by (cbn; lia).
    rewrite Hcall; unfold with_engine, clear_buffer;
      cbn [fst snd engine engine_initialized _last_buffer_index];
      [| exact Hinit | lia].
    rewrite Hb, Hidx, Nat2Z.id. apply drop_ge.
    rewrite length_drop. cbn [app]. rewrite length_seq. lia.
Qed.

Lemma X29_witness :
  let r := {| engine := Samples.engine_one; engine_initialized := true;
              _last_buffer_index := 1 |} in
  fst (get_new_logs
         (with_engine (run_stream Samples.quiet
                         [Samples.plain_event "a"; Samples.plain_event "b"]) r))
  = [1; 2]%nat.
Proof.
  cbn zeta.
  destruct (X29_get_new_logs_goes_silent_on_a_full_buffer Samples.quiet
              {| engine := Samples.engine_one; engine_initialized := true;
                 _last_buffer_index := 1 |}) as (_ & Hroom & _ & _).
  - reflexivity.
  - reflexivity.
  - simpl; lia.
  - destruct (Hroom [Samples.plain_event "a"; Samples.plain_event "b"]) as [H _].
    + reflexivity.
    + reflexivity.
    + intros cb x; discriminate.
    + repeat constructor.
    + simpl; lia.
    + cbn zeta in H. rewrite H. reflexivity.
Defined.

End ReaderMore.
